(** * bino: the media input layer (src/media_input.cpp)

    A shallow embedding of [media_input], the class that combines one or more
    media objects into a single input with flattened video and audio stream
    indices, and the properties of it that the specification states.

    C++ [int] and [int64_t] values are modelled in [Z]; every arithmetic
    operation of the file stays inside the range of its type on the inputs the
    assertions of the code admit, so no wrap-around is written out.  Failed
    assertions, exceptions and undefined behaviour are results of type
    [res]. *)

From Stdlib Require Import ZArith List String Ascii Bool Lia.
From Stdlib Require Import Floats.SpecFloat.
From Stdlib Require DecimalString.
From Stdlib Require Lists.Finite Zquot.
Import ListNotations.

Local Open Scope Z_scope.
Local Open Scope list_scope.

(** ** Results of fallible code *)

Inductive error : Type :=
| assertion_failed      (* an [assert] of the code does not hold *)
| open_failed           (* [media_object::open] threw *)
| seek_failed           (* [media_object::seek] threw *)
| undefined_behaviour.  (* index out of range, uninitialised read, division by zero *)

Inductive res (A : Type) : Type :=
| Ok (a : A)
| Fail (e : error).

Arguments Ok {A} a.
Arguments Fail {A} e.

Definition res_bind {A B : Type} (r : res A) (k : A -> res B) : res B :=
  match r with
  | Ok a => k a
  | Fail e => Fail e
  end.

Declare Scope res_scope.
Delimit Scope res_scope with res.
Notation "x <- c ;; k" := (res_bind c (fun x => k))
  (at level 61, c at next level, right associativity) : res_scope.
Notation "' pat <- c ;; k" := (res_bind c (fun x => match x with pat => k end))
  (at level 61, pat pattern, c at next level, right associativity) : res_scope.

Definition guard (b : bool) : res unit :=
  if b then Ok tt else Fail assertion_failed.

(** [v[i]] for a vector [v] and a signed index [i]. *)
Definition at_index {A : Type} (l : list A) (i : Z) : res A :=
  if i <? 0 then Fail undefined_behaviour
  else match nth_error l (Z.to_nat i) with
       | Some x => Ok x
       | None => Fail undefined_behaviour
       end.

Definition INT64_MAX : Z := 9223372036854775807.
Definition INT64_MIN : Z := -9223372036854775808.

(** ** Frames and blobs (media_data.h) *)

(** Modelled from the spec: the closed set of stereo layouts. *)
Inductive stereo_layout_t : Type :=
| mono
| separate
| top_bottom
| top_bottom_half
| left_right
| left_right_half
| even_odd_rows.

Definition stereo_layout_eqb (a b : stereo_layout_t) : bool :=
  match a, b with
  | mono, mono | separate, separate
  | top_bottom, top_bottom | top_bottom_half, top_bottom_half
  | left_right, left_right | left_right_half, left_right_half
  | even_odd_rows, even_odd_rows => true
  | _, _ => false
  end.

(** [T x[2][3]]: two views of three planes each. *)
Definition array3 (A : Type) : Type := (A * A * A)%type.
Definition array2x3 (A : Type) : Type := (array3 A * array3 A)%type.

Definition get3 {A : Type} (a : array3 A) (p : nat) : A :=
  let '(x0, x1, x2) := a in
  match p with
  | O => x0
  | S O => x1
  | _ => x2
  end.

Definition set3 {A : Type} (a : array3 A) (p : nat) (x : A) : array3 A :=
  let '(x0, x1, x2) := a in
  match p with
  | O => (x, x1, x2)
  | S O => (x0, x, x2)
  | S (S O) => (x0, x1, x)
  | _ => a
  end.

Definition get2x3 {A : Type} (a : array2x3 A) (v p : nat) : A :=
  match v with
  | O => get3 (fst a) p
  | _ => get3 (snd a) p
  end.

Definition set2x3 {A : Type} (a : array2x3 A) (v p : nat) (x : A) : array2x3 A :=
  match v with
  | O => (set3 (fst a) p x, snd a)
  | S O => (fst a, set3 (snd a) p x)
  | _ => a
  end.

(** Modelled from the spec: the video format template / video frame.  Pixel
    layout, colour space, value range and chroma location are C++ enums,
    kept as their integer values; the aspect ratio is an IEEE 754 value;
    plane pointers are addresses. *)
Record video_frame : Type := mk_video_frame {
  raw_width : Z;
  raw_height : Z;
  raw_aspect_ratio : spec_float;
  width : Z;
  height : Z;
  aspect_ratio : spec_float;
  layout : Z;
  color_space : Z;
  value_range : Z;
  chroma_location : Z;
  stereo_layout : stereo_layout_t;
  stereo_layout_swap : bool;
  data : array2x3 Z;
  line_size : array2x3 Z;
  presentation_time : Z;
  frame_valid : bool
}.

Definition is_valid (f : video_frame) : bool := frame_valid f.

(** Modelled from the spec: the default-constructed frame [video_frame()] is
    the invalid frame.  Only its invalidity is relied upon below. *)
Definition video_frame_default : video_frame :=
  {| raw_width := -1; raw_height := -1; raw_aspect_ratio := S754_zero false;
     width := -1; height := -1; aspect_ratio := S754_zero false;
     layout := 0; color_space := 0; value_range := 0; chroma_location := 0;
     stereo_layout := mono; stereo_layout_swap := false;
     data := ((0, 0, 0), (0, 0, 0));
     line_size := ((0, 0, 0), (0, 0, 0));
     presentation_time := INT64_MIN;
     frame_valid := false |}.

Definition with_stereo_layout (f : video_frame) (l : stereo_layout_t) : video_frame :=
  {| raw_width := raw_width f; raw_height := raw_height f;
     raw_aspect_ratio := raw_aspect_ratio f;
     width := width f; height := height f; aspect_ratio := aspect_ratio f;
     layout := layout f; color_space := color_space f;
     value_range := value_range f; chroma_location := chroma_location f;
     stereo_layout := l; stereo_layout_swap := stereo_layout_swap f;
     data := data f; line_size := line_size f;
     presentation_time := presentation_time f; frame_valid := frame_valid f |}.

Definition with_stereo_layout_swap (f : video_frame) (b : bool) : video_frame :=
  {| raw_width := raw_width f; raw_height := raw_height f;
     raw_aspect_ratio := raw_aspect_ratio f;
     width := width f; height := height f; aspect_ratio := aspect_ratio f;
     layout := layout f; color_space := color_space f;
     value_range := value_range f; chroma_location := chroma_location f;
     stereo_layout := stereo_layout f; stereo_layout_swap := b;
     data := data f; line_size := line_size f;
     presentation_time := presentation_time f; frame_valid := frame_valid f |}.

Definition with_data (f : video_frame) (d : array2x3 Z) : video_frame :=
  {| raw_width := raw_width f; raw_height := raw_height f;
     raw_aspect_ratio := raw_aspect_ratio f;
     width := width f; height := height f; aspect_ratio := aspect_ratio f;
     layout := layout f; color_space := color_space f;
     value_range := value_range f; chroma_location := chroma_location f;
     stereo_layout := stereo_layout f; stereo_layout_swap := stereo_layout_swap f;
     data := d; line_size := line_size f;
     presentation_time := presentation_time f; frame_valid := frame_valid f |}.

Definition with_line_size (f : video_frame) (d : array2x3 Z) : video_frame :=
  {| raw_width := raw_width f; raw_height := raw_height f;
     raw_aspect_ratio := raw_aspect_ratio f;
     width := width f; height := height f; aspect_ratio := aspect_ratio f;
     layout := layout f; color_space := color_space f;
     value_range := value_range f; chroma_location := chroma_location f;
     stereo_layout := stereo_layout f; stereo_layout_swap := stereo_layout_swap f;
     data := data f; line_size := d;
     presentation_time := presentation_time f; frame_valid := frame_valid f |}.

Definition with_presentation_time (f : video_frame) (t : Z) : video_frame :=
  {| raw_width := raw_width f; raw_height := raw_height f;
     raw_aspect_ratio := raw_aspect_ratio f;
     width := width f; height := height f; aspect_ratio := aspect_ratio f;
     layout := layout f; color_space := color_space f;
     value_range := value_range f; chroma_location := chroma_location f;
     stereo_layout := stereo_layout f; stereo_layout_swap := stereo_layout_swap f;
     data := data f; line_size := line_size f;
     presentation_time := t; frame_valid := frame_valid f |}.

(** Modelled from the spec: the audio format template / audio blob. *)
Record audio_blob : Type := mk_audio_blob {
  channels : Z;
  rate : Z;
  sample_format : Z;
  blob_data : Z;
  blob_size : Z;
  blob_presentation_time : Z;
  blob_valid : bool
}.

Definition audio_blob_default : audio_blob :=
  {| channels := -1; rate := -1; sample_format := 0;
     blob_data := 0; blob_size := 0;
     blob_presentation_time := INT64_MIN; blob_valid := false |}.

(** ** Media objects (media_object.h)

    The demuxing and decoding engine is an external collaborator of
    [media_input]; it enters the model through the observations that
    [media_input] makes of it. *)

(** Modelled from the spec: one video stream of a media object, with its
    format template, duration, frame rate, activation flag and the frames it
    still has to deliver. *)
Record video_stream : Type := mk_video_stream {
  vs_template : video_frame;
  vs_duration : Z;
  vs_frame_rate_num : Z;
  vs_frame_rate_den : Z;
  vs_active : bool;
  vs_frames : list video_frame
}.

(** Modelled from the spec: one audio stream of a media object. *)
Record audio_stream : Type := mk_audio_stream {
  as_template : audio_blob;
  as_duration : Z;
  as_active : bool
}.

(** Modelled from the spec: the media source, identified by its URL, with
    its tags, its streams, its current position, and the positions that a
    seek on it reaches (a seek to any other position fails). *)
Record media_object : Type := mk_media_object {
  mo_url : string;
  mo_tags : list (string * string);
  mo_video : list video_stream;
  mo_audio : list audio_stream;
  mo_pos : Z;
  mo_seekable : Z -> bool
}.

Module MediaObject.

(** Modelled from the spec: a default-constructed (closed) media object,
    without streams, and at the unknown position. *)
Definition new : media_object :=
  {| mo_url := EmptyString; mo_tags := []; mo_video := []; mo_audio := [];
     mo_pos := INT64_MIN; mo_seekable := fun _ => false |}.

(** Modelled from the spec: the accessors of a media object; a stream
    index out of range is undefined behaviour. *)
Definition url (mo : media_object) : string := mo_url mo.

Definition video_streams (mo : media_object) : Z :=
  Z.of_nat (List.length (mo_video mo)).

Definition audio_streams (mo : media_object) : Z :=
  Z.of_nat (List.length (mo_audio mo)).

Definition video_frame_template (mo : media_object) (j : Z) : res video_frame :=
  (s <- at_index (mo_video mo) j ;; Ok (vs_template s))%res.

Definition audio_blob_template (mo : media_object) (j : Z) : res audio_blob :=
  (s <- at_index (mo_audio mo) j ;; Ok (as_template s))%res.

Definition video_frame_rate_numerator (mo : media_object) (j : Z) : res Z :=
  (s <- at_index (mo_video mo) j ;; Ok (vs_frame_rate_num s))%res.

Definition video_frame_rate_denominator (mo : media_object) (j : Z) : res Z :=
  (s <- at_index (mo_video mo) j ;; Ok (vs_frame_rate_den s))%res.

Definition set_vs_active (b : bool) (s : video_stream) : video_stream :=
  {| vs_template := vs_template s; vs_duration := vs_duration s;
     vs_frame_rate_num := vs_frame_rate_num s;
     vs_frame_rate_den := vs_frame_rate_den s;
     vs_active := b; vs_frames := vs_frames s |}.

Definition set_as_active (b : bool) (s : audio_stream) : audio_stream :=
  {| as_template := as_template s; as_duration := as_duration s;
     as_active := b |}.

Definition set_mo_video (mo : media_object) (v : list video_stream) : media_object :=
  {| mo_url := mo_url mo; mo_tags := mo_tags mo; mo_video := v;
     mo_audio := mo_audio mo; mo_pos := mo_pos mo;
     mo_seekable := mo_seekable mo |}.

Definition set_mo_audio (mo : media_object) (a : list audio_stream) : media_object :=
  {| mo_url := mo_url mo; mo_tags := mo_tags mo; mo_video := mo_video mo;
     mo_audio := a; mo_pos := mo_pos mo;
     mo_seekable := mo_seekable mo |}.

Definition set_mo_pos (mo : media_object) (pos : Z) : media_object :=
  {| mo_url := mo_url mo; mo_tags := mo_tags mo; mo_video := mo_video mo;
     mo_audio := mo_audio mo; mo_pos := pos;
     mo_seekable := mo_seekable mo |}.

(** Modelled from the spec: [seek(pos)] moves the current position, which
    [tell()] reports; it throws, and leaves the source where it is, when the
    source cannot seek to [pos]. *)
Definition seek (pos : Z) (mo : media_object) : res media_object :=
  if mo_seekable mo pos then Ok (set_mo_pos mo pos) else Fail seek_failed.

Definition tell (mo : media_object) : Z := mo_pos mo.

(** Modelled from the spec: the next frame of a stream is the head of what
    it still has to deliver, the invalid frame once it is exhausted. *)
Definition next_frame (s : video_stream) : video_frame :=
  match vs_frames s with
  | f :: _ => f
  | [] => video_frame_default
  end.

Definition advance (s : video_stream) : video_stream :=
  {| vs_template := vs_template s; vs_duration := vs_duration s;
     vs_frame_rate_num := vs_frame_rate_num s;
     vs_frame_rate_den := vs_frame_rate_den s;
     vs_active := vs_active s; vs_frames := tl (vs_frames s) |}.

Fixpoint update_nth {A : Type} (n : nat) (f : A -> A) (l : list A) : list A :=
  match l, n with
  | [], _ => []
  | x :: l', O => f x :: l'
  | x :: l', S n' => x :: update_nth n' f l'
  end.

(** Modelled from the spec: [finish_video_frame_read(j)] gives the next
    frame of stream [j] and moves that stream on. *)
Definition finish_video_frame_read (mo : media_object) (j : Z)
  : res (video_frame * media_object) :=
  (s <- at_index (mo_video mo) j ;;
   Ok (next_frame s,
       set_mo_video mo (update_nth (Z.to_nat j) advance (mo_video mo))))%res.

End MediaObject.

(** What [media_input] calls but does not define. *)
Record externals : Type := mk_externals {
  (** [media_object::open(url)]: the opened object, [None] when it throws. *)
  media_object_open : string -> option media_object;
  (** [video_frame::set_view_dimensions()]. *)
  set_view_dimensions : video_frame -> video_frame;
  (** [video_frame::format_info()] and [audio_blob::format_info()]. *)
  video_format_info : video_frame -> string;
  audio_format_info : audio_blob -> string;
  (** [str::to<int64_t>(s)]: [None] when it throws. *)
  str_to_int64 : string -> option Z
}.

(** ** The media input (media_input.h) *)

Record media_input : Type := mk_media_input {
  _id : string;
  _media_objects : list media_object;
  _tag_names : list string;
  _tag_values : list string;
  _video_stream_names : list string;
  _audio_stream_names : list string;
  _supports_stereo_layout_separate : bool;
  _active_video_stream : Z;
  _active_audio_stream : Z;
  _initial_skip : Z;
  _duration : Z;
  _video_frame : video_frame;
  _audio_blob : audio_blob
}.

(** Enumerations used by the loops of the code. *)
Fixpoint indexed_from {A : Type} (i : Z) (l : list A) : list (Z * A) :=
  match l with
  | [] => []
  | x :: l' => (i, x) :: indexed_from (i + 1) l'
  end.

Definition zrange (n : nat) : list Z := map Z.of_nat (seq 0 n).

Module MediaInput.

(** The constructor initialises four members; the containers and the
    templates are default-constructed, and
    [_supports_stereo_layout_separate] is left as it is found. *)
Definition new (indeterminate : bool) : media_input :=
  {| _id := EmptyString; _media_objects := [];
     _tag_names := []; _tag_values := [];
     _video_stream_names := []; _audio_stream_names := [];
     _supports_stereo_layout_separate := indeterminate;
     _active_video_stream := -1; _active_audio_stream := -1;
     _initial_skip := 0; _duration := -1;
     _video_frame := video_frame_default;
     _audio_blob := audio_blob_default |}.

(** Modelled from the spec: the accessors declared inline in
    media_input.h.  The stream counts are the sizes of the stream-name
    tables, which [open] fills with one label per flattened stream. *)
Definition video_streams (m : media_input) : Z :=
  Z.of_nat (List.length (_video_stream_names m)).

Definition audio_streams (m : media_input) : Z :=
  Z.of_nat (List.length (_audio_stream_names m)).

Definition duration (m : media_input) : Z := _duration m.

Definition initial_skip (m : media_input) : Z := _initial_skip m.

Definition id (m : media_input) : string := _id m.

Definition tags (m : media_input) : Z := Z.of_nat (List.length (_tag_names m)).

(** The walk shared by [get_video_stream] and [get_audio_stream]: [None]
    when the loop ends without writing the two reference parameters. *)
Fixpoint get_stream_loop (count : media_object -> Z)
    (objs : list media_object) (i : Z) (stream : Z) : option (Z * Z) :=
  match objs with
  | [] => None
  | mo :: rest =>
      if count mo <? stream + 1
      then get_stream_loop count rest (i + 1) (stream - count mo)
      else Some (i, stream)
  end.

Definition get_video_stream (m : media_input) (stream : Z) : res (Z * Z) :=
  (_ <- guard (stream <? video_streams m) ;;
   match get_stream_loop MediaObject.video_streams (_media_objects m) 0 stream with
   | Some p => Ok p
   | None => Fail undefined_behaviour
   end)%res.

Definition get_audio_stream (m : media_input) (stream : Z) : res (Z * Z) :=
  (_ <- guard (stream <? audio_streams m) ;;
   match get_stream_loop MediaObject.audio_streams (_media_objects m) 0 stream with
   | Some p => Ok p
   | None => Fail undefined_behaviour
   end)%res.

(** *** Member updates *)

Definition set_id (m : media_input) (x : string) : media_input :=
  mk_media_input x (_media_objects m) (_tag_names m) (_tag_values m)
    (_video_stream_names m) (_audio_stream_names m)
    (_supports_stereo_layout_separate m) (_active_video_stream m)
    (_active_audio_stream m) (_initial_skip m) (_duration m)
    (_video_frame m) (_audio_blob m).

Definition set_media_objects (m : media_input) (x : list media_object) : media_input :=
  mk_media_input (_id m) x (_tag_names m) (_tag_values m)
    (_video_stream_names m) (_audio_stream_names m)
    (_supports_stereo_layout_separate m) (_active_video_stream m)
    (_active_audio_stream m) (_initial_skip m) (_duration m)
    (_video_frame m) (_audio_blob m).

Definition set_tags (m : media_input) (names values : list string) : media_input :=
  mk_media_input (_id m) (_media_objects m) names values
    (_video_stream_names m) (_audio_stream_names m)
    (_supports_stereo_layout_separate m) (_active_video_stream m)
    (_active_audio_stream m) (_initial_skip m) (_duration m)
    (_video_frame m) (_audio_blob m).

Definition set_stream_names (m : media_input) (v a : list string) : media_input :=
  mk_media_input (_id m) (_media_objects m) (_tag_names m) (_tag_values m)
    v a
    (_supports_stereo_layout_separate m) (_active_video_stream m)
    (_active_audio_stream m) (_initial_skip m) (_duration m)
    (_video_frame m) (_audio_blob m).

Definition set_supports_stereo_layout_separate (m : media_input) (x : bool) : media_input :=
  mk_media_input (_id m) (_media_objects m) (_tag_names m) (_tag_values m)
    (_video_stream_names m) (_audio_stream_names m)
    x (_active_video_stream m)
    (_active_audio_stream m) (_initial_skip m) (_duration m)
    (_video_frame m) (_audio_blob m).

Definition set_active_video_stream (m : media_input) (x : Z) : media_input :=
  mk_media_input (_id m) (_media_objects m) (_tag_names m) (_tag_values m)
    (_video_stream_names m) (_audio_stream_names m)
    (_supports_stereo_layout_separate m) x
    (_active_audio_stream m) (_initial_skip m) (_duration m)
    (_video_frame m) (_audio_blob m).

Definition set_active_audio_stream (m : media_input) (x : Z) : media_input :=
  mk_media_input (_id m) (_media_objects m) (_tag_names m) (_tag_values m)
    (_video_stream_names m) (_audio_stream_names m)
    (_supports_stereo_layout_separate m) (_active_video_stream m)
    x (_initial_skip m) (_duration m)
    (_video_frame m) (_audio_blob m).

Definition set_initial_skip (m : media_input) (x : Z) : media_input :=
  mk_media_input (_id m) (_media_objects m) (_tag_names m) (_tag_values m)
    (_video_stream_names m) (_audio_stream_names m)
    (_supports_stereo_layout_separate m) (_active_video_stream m)
    (_active_audio_stream m) x (_duration m)
    (_video_frame m) (_audio_blob m).

Definition set_duration (m : media_input) (x : Z) : media_input :=
  mk_media_input (_id m) (_media_objects m) (_tag_names m) (_tag_values m)
    (_video_stream_names m) (_audio_stream_names m)
    (_supports_stereo_layout_separate m) (_active_video_stream m)
    (_active_audio_stream m) (_initial_skip m) x
    (_video_frame m) (_audio_blob m).

Definition set_video_frame (m : media_input) (x : video_frame) : media_input :=
  mk_media_input (_id m) (_media_objects m) (_tag_names m) (_tag_values m)
    (_video_stream_names m) (_audio_stream_names m)
    (_supports_stereo_layout_separate m) (_active_video_stream m)
    (_active_audio_stream m) (_initial_skip m) (_duration m)
    x (_audio_blob m).

Definition set_audio_blob (m : media_input) (x : audio_blob) : media_input :=
  mk_media_input (_id m) (_media_objects m) (_tag_names m) (_tag_values m)
    (_video_stream_names m) (_audio_stream_names m)
    (_supports_stereo_layout_separate m) (_active_video_stream m)
    (_active_audio_stream m) (_initial_skip m) (_duration m)
    (_video_frame m) x.

(** *** Member functions that change the object

    A computation returns its result together with the object as it is
    left, also when it fails: an exception propagates out of a member
    function with the members as they were when it was thrown. *)
Definition M (A : Type) : Type := media_input -> res A * media_input.

Definition ret {A : Type} (a : A) : M A := fun m => (Ok a, m).

Definition bind {A B : Type} (c : M A) (k : A -> M B) : M B :=
  fun m =>
    match c m with
    | (Ok a, m') => k a m'
    | (Fail e, m') => (Fail e, m')
    end.

Definition modify (f : media_input -> media_input) : M unit :=
  fun m => (Ok tt, f m).

(** A [const] member function run on the current object. *)
Definition read {A : Type} (f : media_input -> res A) : M A :=
  fun m => (f m, m).

Definition assert (b : media_input -> bool) : M unit :=
  read (fun m => guard (b m)).

Declare Scope m_scope.
Delimit Scope m_scope with M.
Notation "x <- c ;; k" := (bind c (fun x => k))
  (at level 61, c at next level, right associativity) : m_scope.
Notation "' pat <- c ;; k" := (bind c (fun x => match x with pat => k end))
  (at level 61, pat pattern, c at next level, right associativity) : m_scope.
Notation "c ;;; k" := (bind c (fun _ => k))
  (at level 61, right associativity) : m_scope.

(** *** Strings *)

(** [std::string::npos] on a 64-bit target. *)
Definition npos : N := 18446744073709551615%N.

Fixpoint find_last_of_from (s : string) (c : ascii) (i : N) (found : N) : N :=
  match s with
  | EmptyString => found
  | String a s' =>
      find_last_of_from s' c (i + 1)%N (if Ascii.eqb a c then i else found)
  end.

Definition find_last_of (s : string) (c : ascii) : N :=
  find_last_of_from s c 0%N npos.

Definition substr_from (s : string) (pos : N) : string :=
  String.substring (N.to_nat pos) (String.length s - N.to_nat pos) s.

Definition basename (url : string) : string :=
  let last_slash := find_last_of url "/"%char in
  let last_backslash := find_last_of url "\"%char in
  let i := N.min last_slash last_backslash in
  let i := if negb (last_slash =? npos)%N && negb (last_backslash =? npos)%N
           then N.max last_slash last_backslash
           else i in
  if (i =? npos)%N then url else substr_from url (i + 1)%N.

(** [str::from(n)] for a positive counter: its decimal digits. *)
Definition str_from (n : Z) : string :=
  DecimalString.NilZero.string_of_uint (N.to_uint (Z.to_N n)).

(** [(_media_objects.size() == 1 ? "" : str::from(i + 1) + " - ")], and
    the same on the number of streams of a media object. *)
Definition pfx (size : nat) (i : Z) : string :=
  if Nat.eqb size 1 then EmptyString
  else (str_from (i + 1) ++ " - ")%string.

(** *** Accessors *)

(** [tag_value(const std::string &)]: the value of the first tag of that
    name, the empty string when there is none. *)
Fixpoint tag_value_loop (names values : list string) (tag_name : string)
  : res string :=
  match names with
  | [] => Ok EmptyString
  | n :: names' =>
      if String.eqb tag_name n
      then match values with
           | v :: _ => Ok v
           | [] => Fail undefined_behaviour
           end
      else tag_value_loop names' (tl values) tag_name
  end.

Definition tag_value (m : media_input) (tag_name : string) : res string :=
  tag_value_loop (_tag_names m) (_tag_values m) tag_name.

Definition video_frame_template (m : media_input) : res video_frame :=
  (_ <- guard (0 <=? _active_video_stream m) ;; Ok (_video_frame m))%res.

Definition video_frame_rate_numerator (m : media_input) : res Z :=
  (_ <- guard (0 <=? _active_video_stream m) ;;
   '(o, s) <- get_video_stream m (_active_video_stream m) ;;
   mo <- at_index (_media_objects m) s ;;
   MediaObject.video_frame_rate_numerator mo s)%res.

Definition video_frame_rate_denominator (m : media_input) : res Z :=
  (_ <- guard (0 <=? _active_video_stream m) ;;
   '(o, s) <- get_video_stream m (_active_video_stream m) ;;
   mo <- at_index (_media_objects m) s ;;
   MediaObject.video_frame_rate_denominator mo s)%res.

Definition video_frame_duration (m : media_input) : res Z :=
  (_ <- guard (0 <=? _active_video_stream m) ;;
   den <- video_frame_rate_denominator m ;;
   num <- video_frame_rate_numerator m ;;
   if num =? 0 then Fail undefined_behaviour
   else Ok (Z.quot (den * 1000000) num))%res.

(** The second parameter of [stereo_layout_is_supported] is unnamed. *)
Definition stereo_layout_is_supported (m : media_input)
    (layout : stereo_layout_t) (_ : bool) : res bool :=
  if video_streams m <? 1 then Ok false
  else
    (_ <- guard (0 <=? _active_video_stream m) ;;
     _ <- guard (_active_video_stream m <? video_streams m) ;;
     '(o, s) <- get_video_stream m (_active_video_stream m) ;;
     mo <- at_index (_media_objects m) o ;;
     t <- MediaObject.video_frame_template mo s ;;
     Ok (negb
           (((stereo_layout_eqb layout left_right
              || stereo_layout_eqb layout left_right_half)
             && negb (Z.rem (raw_width t) 2 =? 0))
            || ((stereo_layout_eqb layout top_bottom
                 || stereo_layout_eqb layout top_bottom_half)
                && negb (Z.rem (raw_height t) 2 =? 0))
            || (stereo_layout_eqb layout even_odd_rows
                && negb (Z.rem (raw_height t) 2 =? 0))
            || (stereo_layout_eqb layout separate
                && negb (_supports_stereo_layout_separate m)))))%res.

(** *** Seeking, layout and stream selection *)

(** The loop of [seek] over the media objects.  It stops at the first
    object whose [seek] throws: the objects before it have moved, that
    object and the ones behind it have not. *)
Fixpoint seek_media_objects (pos : Z) (objs : list media_object)
  : res unit * list media_object :=
  match objs with
  | [] => (Ok tt, [])
  | mo :: objs' =>
      match MediaObject.seek pos mo with
      | Ok mo' =>
          let (r, rest) := seek_media_objects pos objs' in (r, mo' :: rest)
      | Fail e => (Fail e, mo :: objs')
      end
  end.

Definition seek (pos : Z) : M unit :=
  fun m =>
    let (r, objs) := seek_media_objects pos (_media_objects m) in
    (r, set_media_objects m objs).

(** The double loop of the selection functions: every video stream [j] of
    every media object [i] gets the activation flag [active i j]. *)
Definition video_streams_set_active (active : Z -> Z -> bool)
    (objs : list media_object) : list media_object :=
  map (fun '(i, mo) =>
         MediaObject.set_mo_video mo
           (map (fun '(j, vs) => MediaObject.set_vs_active (active i j) vs)
                (indexed_from 0 (mo_video mo))))
      (indexed_from 0 objs).

Definition audio_streams_set_active (active : Z -> Z -> bool)
    (objs : list media_object) : list media_object :=
  map (fun '(i, mo) =>
         MediaObject.set_mo_audio mo
           (map (fun '(j, s) => MediaObject.set_as_active (active i j) s)
                (indexed_from 0 (mo_audio mo))))
      (indexed_from 0 objs).

Section WithExternals.

Variable E : externals.

Definition set_stereo_layout (layout : stereo_layout_t) (swap : bool) : M unit :=
  (supported <- read (fun m => stereo_layout_is_supported m layout swap) ;;
   assert (fun _ => supported) ;;;
   '(o, s) <- read (fun m => get_video_stream m (_active_video_stream m)) ;;
   mo <- read (fun m => at_index (_media_objects m) o) ;;
   t <- read (fun _ => MediaObject.video_frame_template mo s) ;;
   modify (fun m =>
     set_video_frame m
       (set_view_dimensions E
          (with_stereo_layout_swap (with_stereo_layout t layout) swap))) ;;;
   if stereo_layout_eqb layout separate
   then
     let pos := MediaObject.tell mo in
     if INT64_MIN <? pos then seek pos else ret tt
   else ret tt)%M.

Definition select_video_stream (video_stream : Z) : M unit :=
  (assert (fun _ => 0 <=? video_stream) ;;;
   assert (fun m => video_stream <? video_streams m) ;;;
   is_separate <- read (fun m =>
     Ok (stereo_layout_eqb (stereo_layout (_video_frame m)) separate)) ;;
   if is_separate : bool
   then
     modify (fun m =>
       set_media_objects m
         (video_streams_set_active (fun _ _ => true) (_media_objects m)))
   else
     layout <- read (fun m => Ok (stereo_layout (_video_frame m))) ;;
     swap <- read (fun m => Ok (stereo_layout_swap (_video_frame m))) ;;
     modify (fun m => set_active_video_stream m video_stream) ;;;
     set_stereo_layout layout swap ;;;
     '(o, s) <- read (fun m => get_video_stream m (_active_video_stream m)) ;;
     modify (fun m =>
       set_media_objects m
         (video_streams_set_active (fun i j => (i =? o) && (j =? s))
            (_media_objects m))))%M.

Definition select_audio_stream (audio_stream : Z) : M unit :=
  (assert (fun _ => 0 <=? audio_stream) ;;;
   assert (fun m => audio_stream <? audio_streams m) ;;;
   modify (fun m => set_active_audio_stream m audio_stream) ;;;
   '(o, s) <- read (fun m => get_audio_stream m (_active_audio_stream m)) ;;
   modify (fun m =>
     set_media_objects m
       (audio_streams_set_active (fun i j => (i =? o) && (j =? s))
          (_media_objects m))))%M.


(** **** Reading frames *)

(** [_media_objects[o].finish_video_frame_read(s)]. *)
Definition finish_object_read (o s : Z) : M video_frame :=
  fun m =>
    match (mo <- at_index (_media_objects m) o ;;
           MediaObject.finish_video_frame_read mo s)%res with
    | Ok (f, mo') =>
        (Ok f,
         set_media_objects m
           (MediaObject.update_nth (Z.to_nat o) (fun _ => mo') (_media_objects m)))
    | Fail e => (Fail e, m)
    end.

(** One round of the loop over the planes [p] in the separate case. *)
Definition copy_planes_separate (f0 f1 : video_frame)
    (frame : video_frame) (p : nat) : video_frame :=
  let frame := with_data frame (set2x3 (data frame) 0 p (get2x3 (data f0) 0 p)) in
  let frame := with_data frame (set2x3 (data frame) 1 p (get2x3 (data f1) 0 p)) in
  let frame :=
    with_line_size frame (set2x3 (line_size frame) 0 p (get2x3 (line_size f0) 0 p)) in
  with_line_size frame (set2x3 (line_size frame) 1 p (get2x3 (line_size f1) 0 p)).

(** One round of the loop over the planes [p] in the single-stream case. *)
Definition copy_planes_single (f : video_frame)
    (frame : video_frame) (p : nat) : video_frame :=
  let frame := with_data frame (set2x3 (data frame) 0 p (get2x3 (data f) 0 p)) in
  with_line_size frame (set2x3 (line_size frame) 0 p (get2x3 (line_size f) 0 p)).

Definition finish_video_frame_read : M video_frame :=
  (assert (fun m => 0 <=? _active_video_stream m) ;;;
   is_separate <- read (fun m =>
     Ok (stereo_layout_eqb (stereo_layout (_video_frame m)) separate)) ;;
   if is_separate : bool
   then
     '(o0, s0) <- read (fun m => get_video_stream m 0) ;;
     '(o1, s1) <- read (fun m => get_video_stream m 1) ;;
     f0 <- finish_object_read o0 s0 ;;
     f1 <- finish_object_read o1 s1 ;;
     if negb (is_valid f0) || negb (is_valid f1)
     then ret video_frame_default
     else
       frame <- read (fun m => Ok (_video_frame m)) ;;
       let frame := fold_left (copy_planes_separate f0 f1) (seq 0 3) frame in
       ret (with_presentation_time frame (presentation_time f0))
   else
     '(o, s) <- read (fun m => get_video_stream m (_active_video_stream m)) ;;
     f <- finish_object_read o s ;;
     if negb (is_valid f)
     then ret video_frame_default
     else
       frame <- read (fun m => Ok (_video_frame m)) ;;
       let frame := fold_left (copy_planes_single f) (seq 0 3) frame in
       ret (with_presentation_time frame (presentation_time f)))%M.

(** **** Opening *)

(** [_media_objects.resize(n)]. *)
Definition resize (n : nat) (objs : list media_object) : list media_object :=
  firstn n objs ++ repeat MediaObject.new (n - List.length objs).

(** The loop that opens [_media_objects[i]] on [urls[i]].  It stops at
    the first object whose [open] throws; that object and the ones
    behind it stay as [resize] left them. *)
Fixpoint open_media_objects (urls : list string) (objs : list media_object)
  : res unit * list media_object :=
  match urls, objs with
  | u :: urls', mo :: objs' =>
      match media_object_open E u with
      | Some mo' =>
          let (r, rest) := open_media_objects urls' objs' in (r, mo' :: rest)
      | None => (Fail open_failed, mo :: objs')
      end
  | _, _ => (Ok tt, objs)
  end.

Definition construct_id (objs : list media_object) : res string :=
  match objs with
  | [] => Fail undefined_behaviour
  | mo0 :: rest =>
      Ok (fold_left
            (fun id mo =>
               (id ++ String "/" EmptyString ++ basename (MediaObject.url mo))%string)
            rest (basename (MediaObject.url mo0)))
  end.

Definition gathered_tag_names (objs : list media_object) : list string :=
  flat_map (fun '(i, mo) =>
              map (fun t => (pfx (List.length objs) i ++ fst t)%string) (mo_tags mo))
           (indexed_from 0 objs).

Definition gathered_tag_values (objs : list media_object) : list string :=
  flat_map (fun '(i, mo) =>
              map (fun t => (pfx (List.length objs) i ++ snd t)%string) (mo_tags mo))
           (indexed_from 0 objs).

Definition gathered_video_stream_names (objs : list media_object) : list string :=
  flat_map (fun '(i, mo) =>
              map (fun '(j, vs) =>
                     (pfx (List.length objs) i
                      ++ pfx (List.length (mo_video mo)) j
                      ++ video_format_info E (vs_template vs))%string)
                  (indexed_from 0 (mo_video mo)))
           (indexed_from 0 objs).

Definition gathered_audio_stream_names (objs : list media_object) : list string :=
  flat_map (fun '(i, mo) =>
              map (fun '(j, s) =>
                     (pfx (List.length objs) i
                      ++ pfx (List.length (mo_audio mo)) j
                      ++ audio_format_info E (as_template s))%string)
                  (indexed_from 0 (mo_audio mo)))
           (indexed_from 0 objs).

(** [if (d < _duration) _duration = d;] *)
Definition shorter (duration d : Z) : Z :=
  if d <? duration then d else duration.

Definition duration_information (objs : list media_object) : Z :=
  fold_left
    (fun duration mo =>
       fold_left shorter (map as_duration (mo_audio mo))
         (fold_left shorter (map vs_duration (mo_video mo)) duration))
    objs INT64_MAX.

(** [a >= b] on IEEE 754 values. *)
Definition SFgeb (a b : spec_float) : bool :=
  match SFcompare a b with
  | Some (Gt | Eq) => true
  | _ => false
  end.

(** The condition under which two templates form a stereo pair. *)
Definition templates_match (t0 t1 : video_frame) : bool :=
  (width t0 =? width t1)
  && (height t0 =? height t1)
  && (SFleb (aspect_ratio t0) (aspect_ratio t1)
      && SFgeb (aspect_ratio t0) (aspect_ratio t1))
  && (layout t0 =? layout t1)
  && (color_space t0 =? color_space t1)
  && (value_range t0 =? value_range t1)
  && (chroma_location t0 =? chroma_location t1).

Definition template_at (m : media_input) (stream : Z) : res video_frame :=
  ('(o, s) <- get_video_stream m stream ;;
   mo <- at_index (_media_objects m) o ;;
   MediaObject.video_frame_template mo s)%res.

Definition blob_template_at (m : media_input) (stream : Z) : res audio_blob :=
  ('(o, s) <- get_audio_stream m stream ;;
   mo <- at_index (_media_objects m) o ;;
   MediaObject.audio_blob_template mo s)%res.

Definition detect_stereo_layout_separate : M unit :=
  (modify (fun m => set_supports_stereo_layout_separate m false) ;;;
   n <- read (fun m => Ok (video_streams m)) ;;
   if n =? 2
   then
     t0 <- read (fun m => template_at m 0) ;;
     t1 <- read (fun m => template_at m 1) ;;
     if templates_match t0 t1
     then modify (fun m => set_supports_stereo_layout_separate m true)
     else ret tt
   else ret tt)%M.

Definition set_active_video : M unit :=
  (supported <- read (fun m => Ok (_supports_stereo_layout_separate m)) ;;
   n <- read (fun m => Ok (video_streams m)) ;;
   (if supported : bool
    then
      modify (fun m => set_active_video_stream m 0) ;;;
      t <- read (fun m => template_at m (_active_video_stream m)) ;;
      modify (fun m => set_video_frame m (with_stereo_layout t separate))
    else if 0 <? n
    then
      modify (fun m => set_active_video_stream m 0) ;;;
      t <- read (fun m => template_at m (_active_video_stream m)) ;;
      modify (fun m => set_video_frame m t)
    else
      modify (fun m => set_active_video_stream m (-1))) ;;;
   active <- read (fun m => Ok (_active_video_stream m)) ;;
   if 0 <=? active then select_video_stream active else ret tt)%M.

Definition find_stereo_layout : M unit :=
  (detect_stereo_layout_separate ;;; set_active_video)%M.

Definition set_active_audio : M unit :=
  (n <- read (fun m => Ok (audio_streams m)) ;;
   modify (fun m => set_active_audio_stream m (if 0 <? n then 0 else -1)) ;;;
   active <- read (fun m => Ok (_active_audio_stream m)) ;;
   if 0 <=? active
   then
     t <- read (fun m => blob_template_at m active) ;;
     modify (fun m => set_audio_blob m t) ;;;
     select_audio_stream active
   else ret tt)%M.

(** The reads of the summary that [open] prints; the printed text itself
    is not part of the model. *)
Fixpoint for_each (l : list Z) (body : Z -> res unit) : res unit :=
  match l with
  | [] => Ok tt
  | i :: l' => (_ <- body i ;; for_each l' body)%res
  end.

Definition print_summary (m : media_input) : res unit :=
  (_ <- video_frame_template m ;;
   _ <- for_each (zrange (List.length (_video_stream_names m)))
          (fun i => _ <- at_index (_video_stream_names m) i ;;
                    _ <- template_at m i ;; Ok tt) ;;
   for_each (zrange (List.length (_audio_stream_names m)))
     (fun i => _ <- at_index (_audio_stream_names m) i ;;
               _ <- blob_template_at m i ;; Ok tt))%res.

Definition open (urls : list string) : M unit :=
  (assert (fun _ => (0 <? List.length urls)%nat) ;;;
   (* Open media objects *)
   modify (fun m => set_media_objects m (resize (List.length urls) (_media_objects m))) ;;;
   (fun m =>
      let (r, objs) := open_media_objects urls (_media_objects m) in
      (r, set_media_objects m objs)) ;;;
   (* Construct id for this input *)
   id <- read (fun m => construct_id (_media_objects m)) ;;
   modify (fun m => set_id m id) ;;;
   (* Gather metadata *)
   modify (fun m =>
     set_tags m (_tag_names m ++ gathered_tag_names (_media_objects m))
                (_tag_values m ++ gathered_tag_values (_media_objects m))) ;;;
   (* Gather streams and stream names *)
   modify (fun m =>
     set_stream_names m
       (_video_stream_names m ++ gathered_video_stream_names (_media_objects m))
       (_audio_stream_names m ++ gathered_audio_stream_names (_media_objects m))) ;;;
   (* Set duration information *)
   modify (fun m => set_duration m (duration_information (_media_objects m))) ;;;
   (* Skip advertisement in 3dtv.at movies *)
   skip <- read (fun m => tag_value m "StereoscopicSkip") ;;
   modify (fun m =>
     match str_to_int64 E skip with
     | Some v => set_initial_skip m v
     | None => m
     end) ;;;
   (* Find stereo layout and set active video stream(s) *)
   find_stereo_layout ;;;
   (* Set active audio stream *)
   set_active_audio ;;;
   (* Print summary *)
   read print_summary)%M.

(** **** Closing *)

Definition close : M unit :=
  modify (fun m =>
    {| _id := EmptyString; _media_objects := [];
       _tag_names := []; _tag_values := [];
       _video_stream_names := []; _audio_stream_names := [];
       _supports_stereo_layout_separate := _supports_stereo_layout_separate m;
       _active_video_stream := -1; _active_audio_stream := -1;
       _initial_skip := 0; _duration := -1;
       _video_frame := video_frame_default;
       _audio_blob := audio_blob_default |}).

End WithExternals.

(** *** Accessors by index *)

(** [tag_name(size_t)] and [tag_value(size_t)]. *)
Definition tag_name (m : media_input) (i : N) : res string :=
  (_ <- guard (Z.of_N i <? Z.of_nat (List.length (_tag_names m))) ;;
   at_index (_tag_names m) (Z.of_N i))%res.

Definition tag_value_at (m : media_input) (i : N) : res string :=
  (_ <- guard (Z.of_N i <? Z.of_nat (List.length (_tag_values m))) ;;
   at_index (_tag_values m) (Z.of_N i))%res.

Definition audio_blob_template (m : media_input) : res audio_blob :=
  (_ <- guard (0 <=? _active_audio_stream m) ;; Ok (_audio_blob m))%res.

End MediaInput.

(** * The vocabulary of the properties *)

(** ** The flattened stream tables

    The streams of one kind of all media objects, in the order of the media
    objects and, inside one object, in the order of its streams; and the
    (media object, local stream) index pairs in that same order. *)

Definition flattened {stream : Type} (streams : media_object -> list stream)
    (objs : list media_object) : list stream :=
  flat_map streams objs.

Definition stream_total {stream : Type} (streams : media_object -> list stream)
    (objs : list media_object) : Z :=
  fold_right Z.add 0 (map (fun mo => Z.of_nat (List.length (streams mo))) objs).

Definition stream_pairs_from {stream : Type} (streams : media_object -> list stream)
    (i : Z) (objs : list media_object) : list (Z * Z) :=
  flat_map (fun '(k, mo) => map (pair k) (zrange (List.length (streams mo))))
           (indexed_from i objs).

Definition stream_pairs {stream : Type} (streams : media_object -> list stream)
    (objs : list media_object) : list (Z * Z) :=
  stream_pairs_from streams 0 objs.

Definition all_video_templates (objs : list media_object) : list video_frame :=
  map vs_template (flattened mo_video objs).

(** The durations of all streams of all media objects. *)
Definition all_durations (objs : list media_object) : list Z :=
  flat_map (fun mo => map vs_duration (mo_video mo) ++ map as_duration (mo_audio mo)) objs.

(** The activation flags of all video streams, in flattened order. *)
Definition active_video_flags (objs : list media_object) : list bool :=
  map vs_active (flattened mo_video objs).

(** ** What the member functions leave alone *)

(** The part of a media object that stream selection and seeking do not
    touch: its streams without their activation flags. *)
Definition static (mo : media_object) : list video_stream * list audio_stream :=
  (map (MediaObject.set_vs_active false) (mo_video mo),
   map (MediaObject.set_as_active false) (mo_audio mo)).

Definition statics (objs : list media_object) : list (list video_stream * list audio_stream) :=
  map static objs.

(** A member function preserves [R] when every run of it, successful or
    not, takes the object to one related to it by [R]. *)
Definition preserves {A : Type} (R : media_input -> media_input -> Prop)
    (c : MediaInput.M A) : Prop :=
  forall m r m', c m = (r, m') -> R m m'.

(** Everything that [open] has gathered, and the static part of the media
    objects. *)
Record tables_stable (m m' : media_input) : Prop := mk_tables_stable {
  stable_id : _id m' = _id m;
  stable_tag_names : _tag_names m' = _tag_names m;
  stable_tag_values : _tag_values m' = _tag_values m;
  stable_video_stream_names : _video_stream_names m' = _video_stream_names m;
  stable_audio_stream_names : _audio_stream_names m' = _audio_stream_names m;
  stable_supports :
    _supports_stereo_layout_separate m' = _supports_stereo_layout_separate m;
  stable_initial_skip : _initial_skip m' = _initial_skip m;
  stable_duration : _duration m' = _duration m;
  stable_statics : statics (_media_objects m') = statics (_media_objects m)
}.

(** The detection changes the flag and nothing else. *)
Record detected (m m' : media_input) : Prop := mk_detected {
  detected_media_objects : _media_objects m' = _media_objects m;
  detected_video_stream_names : _video_stream_names m' = _video_stream_names m;
  detected_audio_stream_names : _audio_stream_names m' = _audio_stream_names m;
  detected_duration : _duration m' = _duration m
}.

(** ** What the claims speak of *)

(** Source order, and local order inside one source. *)
Definition lex_lt (p q : Z * Z) : Prop :=
  fst p < fst q \/ (fst p = fst q /\ snd p < snd q).

(** [f] maps the global indices below [n] one-to-one onto the (media
    object, local stream) pairs of [objs], in source order and in local
    order inside each source, where [n] is the sum of the stream counts. *)
Record resolves_in_order (objs : list media_object) (count : media_object -> Z)
    (f : Z -> res (Z * Z)) (n : Z) : Prop := mk_resolves_in_order {
  resolves_total : n = fold_right Z.add 0 (map count objs);
  resolves_defined :
    forall g, 0 <= g < n ->
      exists o s mo, f g = Ok (o, s) /\ at_index objs o = Ok mo /\ 0 <= s < count mo;
  resolves_injective :
    forall g g', 0 <= g < n -> 0 <= g' < n -> f g = f g' -> g = g';
  resolves_surjective :
    forall o s mo, at_index objs o = Ok mo -> 0 <= s < count mo ->
      exists g, 0 <= g < n /\ f g = Ok (o, s);
  resolves_monotone :
    forall g g' p p', 0 <= g -> g < g' -> g' < n ->
      f g = Ok p -> f g' = Ok p' -> lex_lt p p'
}.

(** [d] is the least element of [l]. *)
Definition is_minimum (d : Z) (l : list Z) : Prop :=
  In d l /\ forall x, In x l -> d <= x.


(** The flattened table has a template at the active index. *)
Definition active_video_template (m : media_input) : option video_frame :=
  nth_error (all_video_templates (_media_objects m))
            (Z.to_nat (_active_video_stream m)).

(** What rules a layout out, for the template [t] of the active stream. *)
Definition layout_ruled_out (l : stereo_layout_t) (t : video_frame)
    (supports_separate : bool) : bool :=
  match l with
  | left_right | left_right_half => Z.odd (raw_width t)
  | top_bottom | top_bottom_half | even_odd_rows => Z.odd (raw_height t)
  | separate => negb supports_separate
  | mono => false
  end.

(** The frame that the separate case puts together from the frames [f0]
    and [f1] of the two streams: the current format of the input, the planes
    and line sizes of [f0] in slot 0 and those of [f1] in slot 1, and the
    presentation time of [f0]. *)
Definition combined_frame (format f0 f1 : video_frame) : video_frame :=
  {| raw_width := raw_width format; raw_height := raw_height format;
     raw_aspect_ratio := raw_aspect_ratio format;
     width := width format; height := height format;
     aspect_ratio := aspect_ratio format;
     layout := layout format; color_space := color_space format;
     value_range := value_range format;
     chroma_location := chroma_location format;
     stereo_layout := stereo_layout format;
     stereo_layout_swap := stereo_layout_swap format;
     data := (fst (data f0), fst (data f1));
     line_size := (fst (line_size f0), fst (line_size f1));
     presentation_time := presentation_time f0;
     frame_valid := frame_valid format |}.

(** The next frames of the two streams of the pair, read off the flattened
    table of video streams. *)
Definition next_frame_at (m : media_input) (g : nat) : option video_frame :=
  option_map MediaObject.next_frame
    (nth_error (flattened mo_video (_media_objects m)) g).

(** The media object with all its video streams marked active. *)
Definition activate_all (mo : media_object) : media_object :=
  MediaObject.set_mo_video mo (map (MediaObject.set_vs_active true) (mo_video mo)).

(** The frame rate of the active video stream, taken from the media object
    that holds it. *)
Definition active_video_frame_rate (m : media_input) : option (Z * Z) :=
  option_map (fun vs => (vs_frame_rate_num vs, vs_frame_rate_den vs))
    (nth_error (flattened mo_video (_media_objects m))
               (Z.to_nat (_active_video_stream m))).

(** ** A worked input

    Four files and a locator that cannot be opened.  [left.mkv] and
    [right.mkv] have one video stream each, of the same format, of 10 and
    7 seconds; [small.mkv] has one video stream of another size;
    [double.mkv] has two video streams.  None of them can seek to a
    negative position, and [right.mkv] can seek to its start only. *)

Definition example_frame (w h : Z) (pt : Z) (plane : Z) : video_frame :=
  {| raw_width := w; raw_height := h;
     raw_aspect_ratio := S754_finite false 3 (-1);
     width := w; height := h; aspect_ratio := S754_finite false 3 (-1);
     layout := 3; color_space := 1; value_range := 1; chroma_location := 0;
     stereo_layout := mono; stereo_layout_swap := false;
     data := ((plane, plane + 1, plane + 2), (0, 0, 0));
     line_size := ((w, w / 2, w / 2), (0, 0, 0));
     presentation_time := pt; frame_valid := true |}.

Definition example_video_stream (w h duration fps : Z) (frames : list video_frame)
  : video_stream :=
  {| vs_template := example_frame w h INT64_MIN 0;
     vs_duration := duration;
     vs_frame_rate_num := fps; vs_frame_rate_den := 1;
     vs_active := false; vs_frames := frames |}.

Definition example_audio_stream (duration : Z) : audio_stream :=
  {| as_template :=
       {| channels := 2; rate := 48000; sample_format := 1;
          blob_data := 0; blob_size := 0;
          blob_presentation_time := INT64_MIN; blob_valid := true |};
     as_duration := duration; as_active := false |}.

Definition example_left : media_object :=
  {| mo_url := "/movies/left.mkv";
     mo_tags := [("title"%string, "Left eye"%string)];
     mo_video :=
       [example_video_stream 640 480 10000000 25
          [example_frame 640 480 0 4096; example_frame 640 480 40000 8192]];
     mo_audio := [example_audio_stream 10000000];
     mo_pos := 0;
     mo_seekable := fun pos => 0 <=? pos |}.

Definition example_right : media_object :=
  {| mo_url := "/movies/right.mkv";
     mo_tags := [];
     mo_video :=
       [example_video_stream 640 480 7000000 30 [example_frame 640 480 0 12288]];
     mo_audio := [];
     mo_pos := 0;
     mo_seekable := fun pos => pos =? 0 |}.

Definition example_small : media_object :=
  {| mo_url := "small.mkv";
     mo_tags := [];
     mo_video := [example_video_stream 320 240 7000000 30 []];
     mo_audio := [];
     mo_pos := 0;
     mo_seekable := fun pos => 0 <=? pos |}.

Definition example_double : media_object :=
  {| mo_url := "double.mkv";
     mo_tags := [];
     mo_video := [example_video_stream 640 480 7000000 25 [];
                  example_video_stream 320 240 7000000 30 []];
     mo_audio := [];
     mo_pos := 0;
     mo_seekable := fun pos => 0 <=? pos |}.

(** Modelled from the spec: the view dimensions are the raw dimensions,
    halved in width for the left/right layouts and in height for the
    top/bottom layouts. *)
Definition example_set_view_dimensions (f : video_frame) : video_frame :=
  {| raw_width := raw_width f; raw_height := raw_height f;
     raw_aspect_ratio := raw_aspect_ratio f;
     width := match stereo_layout f with
              | left_right | left_right_half => Z.quot (raw_width f) 2
              | _ => raw_width f
              end;
     height := match stereo_layout f with
               | top_bottom | top_bottom_half => Z.quot (raw_height f) 2
               | _ => raw_height f
               end;
     aspect_ratio := raw_aspect_ratio f;
     layout := layout f; color_space := color_space f;
     value_range := value_range f; chroma_location := chroma_location f;
     stereo_layout := stereo_layout f; stereo_layout_swap := stereo_layout_swap f;
     data := data f; line_size := line_size f;
     presentation_time := presentation_time f; frame_valid := frame_valid f |}.

Definition example_externals : externals :=
  {| media_object_open := fun u =>
       if String.eqb u "/movies/left.mkv" then Some example_left
       else if String.eqb u "/movies/right.mkv" then Some example_right
       else if String.eqb u "small.mkv" then Some example_small
       else if String.eqb u "double.mkv" then Some example_double
       else None;
     set_view_dimensions := example_set_view_dimensions;
     video_format_info := fun f => "video"%string;
     audio_format_info := fun a => "audio"%string;
     str_to_int64 := fun s => None |}.

Definition example_pair_urls : list string :=
  ["/movies/left.mkv"%string; "/movies/right.mkv"%string].

(** The stereo pair, opened. *)
Definition example_pair : media_input :=
  snd (MediaInput.open example_externals example_pair_urls (MediaInput.new false)).

(** Two files that are no stereo pair, opened, and then the video stream of
    the second one selected. *)
Definition example_mixed : media_input :=
  snd (MediaInput.open example_externals
         ["/movies/left.mkv"%string; "small.mkv"%string] (MediaInput.new false)).

Definition example_mixed_second : media_input :=
  snd (MediaInput.select_video_stream example_externals 1 example_mixed).

(** One file with two video streams, opened, and then its second video
    stream selected. *)
Definition example_double_second : media_input :=
  snd (MediaInput.select_video_stream example_externals 1
         (snd (MediaInput.open example_externals ["double.mkv"%string]
                 (MediaInput.new false)))).

(** The stereo pair, switched to mono, the second stream selected, and
    switched back to separate. *)
Definition example_pair_mono : media_input :=
  snd (MediaInput.set_stereo_layout example_externals mono false example_pair).

Definition example_pair_second : media_input :=
  snd (MediaInput.select_video_stream example_externals 1 example_pair_mono).

Definition example_pair_again : media_input :=
  snd (MediaInput.set_stereo_layout example_externals separate false example_pair_second).

(** The stereo pair, switched to mono, and after a seek to 40000, which
    the second media object fails. *)
Definition example_pair_moved : media_input :=
  snd (MediaInput.seek 40000 example_pair_mono).

(** ** Base names *)

Definition is_separator (c : ascii) : bool :=
  Ascii.eqb c "/" || Ascii.eqb c "\".

(** No character of [s] is a slash or a backslash. *)
Definition no_separator (s : string) : Prop :=
  Forall (fun c => is_separator c = false) (list_ascii_of_string s).

(** The position of the last [c] in [s]. *)
Fixpoint last_of (c : ascii) (s : string) : option nat :=
  match s with
  | EmptyString => None
  | String a s' =>
      match last_of c s' with
      | Some k => Some (S k)
      | None => if Ascii.eqb a c then Some 0%nat else None
      end
  end.

(** The position of the last slash or backslash in [s]. *)
Fixpoint last_separator (s : string) : option nat :=
  match s with
  | EmptyString => None
  | String a s' =>
      match last_separator s' with
      | Some k => Some (S k)
      | None => if is_separator a then Some 0%nat else None
      end
  end.

(** ** The phases of [open] *)

(** The input as [open] has it when it comes to the stereo layout: the
    media objects [objs] opened, the id [id] built, tags, stream names and
    duration gathered behind what the input [m] held, and the skip parsed
    from [skip]. *)
Definition gathered_input (E : externals) (m : media_input)
    (objs : list media_object) (id skip : string) : media_input :=
  {| _id := id;
     _media_objects := objs;
     _tag_names := _tag_names m ++ MediaInput.gathered_tag_names objs;
     _tag_values := _tag_values m ++ MediaInput.gathered_tag_values objs;
     _video_stream_names :=
       _video_stream_names m ++ MediaInput.gathered_video_stream_names E objs;
     _audio_stream_names :=
       _audio_stream_names m ++ MediaInput.gathered_audio_stream_names E objs;
     _supports_stereo_layout_separate := _supports_stereo_layout_separate m;
     _active_video_stream := _active_video_stream m;
     _active_audio_stream := _active_audio_stream m;
     _initial_skip :=
       match str_to_int64 E skip with
       | Some v => v
       | None => _initial_skip m
       end;
     _duration := MediaInput.duration_information objs;
     _video_frame := _video_frame m;
     _audio_blob := _audio_blob m |}.

(** The URLs and tags of the media objects are the same. *)
Definition same_sources (m m' : media_input) : Prop :=
  map mo_url (_media_objects m') = map mo_url (_media_objects m)
  /\ map mo_tags (_media_objects m') = map mo_tags (_media_objects m).

(** The activation flags of all audio streams, in flattened order. *)
Definition active_audio_flags (objs : list media_object) : list bool :=
  map as_active (flattened mo_audio objs).

(** The flags of [n] streams of which exactly the one at the global index
    [k] is active. *)
Definition only_active (k : Z) (n : nat) : list bool :=
  map (fun g => g =? k) (zrange n).

(** The value of the first tag named [name], the empty string when there
    is none. *)
Definition first_tag_value (names values : list string) (name : string) : string :=
  match find (fun p => String.eqb name (fst p)) (combine names values) with
  | Some p => snd p
  | None => EmptyString
  end.

(** The streams of the media objects and the active indices are the
    same. *)
Record streams_kept (m m' : media_input) : Prop := mk_streams_kept {
  kept_video : map mo_video (_media_objects m') = map mo_video (_media_objects m);
  kept_audio : map mo_audio (_media_objects m') = map mo_audio (_media_objects m);
  kept_active_video : _active_video_stream m' = _active_video_stream m;
  kept_active_audio : _active_audio_stream m' = _active_audio_stream m;
  kept_audio_blob : _audio_blob m' = _audio_blob m
}.

(** The format that [set_stereo_layout] derives from the template [t]. *)
Definition layout_format (E : externals) (t : video_frame)
    (l : stereo_layout_t) (swap : bool) : video_frame :=
  set_view_dimensions E (with_stereo_layout_swap (with_stereo_layout t l) swap).

(** The frame that the single-stream case makes of the frame [f]: the
    current format of the input with the planes and line sizes of [f] in
    slot 0 and the presentation time of [f]; slot 1 is that of the format. *)
Definition single_frame (format f : video_frame) : video_frame :=
  {| raw_width := raw_width format; raw_height := raw_height format;
     raw_aspect_ratio := raw_aspect_ratio format;
     width := width format; height := height format;
     aspect_ratio := aspect_ratio format;
     layout := layout format; color_space := color_space format;
     value_range := value_range format;
     chroma_location := chroma_location format;
     stereo_layout := stereo_layout format;
     stereo_layout_swap := stereo_layout_swap format;
     data := (fst (data f), snd (data format));
     line_size := (fst (line_size f), snd (line_size format));
     presentation_time := presentation_time f;
     frame_valid := frame_valid format |}.

(** The media object with [f] applied to its video stream [s]. *)
Definition update_video_stream (f : video_stream -> video_stream) (s : Z)
    (mo : media_object) : media_object :=
  MediaObject.set_mo_video mo (MediaObject.update_nth (Z.to_nat s) f (mo_video mo)).

Definition all_audio_templates (objs : list media_object) : list audio_blob :=
  map as_template (flattened mo_audio objs).


(** The video side of the input is the same. *)
Record video_kept (m m' : media_input) : Prop := mk_video_kept {
  video_kept_streams :
    map mo_video (_media_objects m') = map mo_video (_media_objects m);
  video_kept_frame : _video_frame m' = _video_frame m;
  video_kept_active : _active_video_stream m' = _active_video_stream m
}.

(** Only [_supports_stereo_layout_separate] differs. *)
Definition only_flag_differs (m m' : media_input) : Prop :=
  m' = MediaInput.set_supports_stereo_layout_separate m
         (_supports_stereo_layout_separate m').

(** What [open] has gathered and the numbers of streams of every media
    object are the same. *)
Record shape_kept (m m' : media_input) : Prop := mk_shape_kept {
  shape_id : _id m' = _id m;
  shape_tag_names : _tag_names m' = _tag_names m;
  shape_tag_values : _tag_values m' = _tag_values m;
  shape_video_stream_names : _video_stream_names m' = _video_stream_names m;
  shape_audio_stream_names : _audio_stream_names m' = _audio_stream_names m;
  shape_supports :
    _supports_stereo_layout_separate m' = _supports_stereo_layout_separate m;
  shape_initial_skip : _initial_skip m' = _initial_skip m;
  shape_duration : _duration m' = _duration m;
  shape_video_counts :
    map MediaObject.video_streams (_media_objects m')
    = map MediaObject.video_streams (_media_objects m);
  shape_audio_counts :
    map MediaObject.audio_streams (_media_objects m')
    = map MediaObject.audio_streams (_media_objects m)
}.

(** The member functions that a player calls between [open] and [close]. *)
Inductive operation : Type :=
| op_seek (pos : Z)
| op_set_stereo_layout (layout : stereo_layout_t) (swap : bool)
| op_select_video_stream (video_stream : Z)
| op_select_audio_stream (audio_stream : Z)
| op_finish_video_frame_read.

Definition run_operation (E : externals) (op : operation) (m : media_input)
  : media_input :=
  match op with
  | op_seek pos => snd (MediaInput.seek pos m)
  | op_set_stereo_layout l swap => snd (MediaInput.set_stereo_layout E l swap m)
  | op_select_video_stream k => snd (MediaInput.select_video_stream E k m)
  | op_select_audio_stream k => snd (MediaInput.select_audio_stream k m)
  | op_finish_video_frame_read => snd (MediaInput.finish_video_frame_read m)
  end.

(** The active indices are the same. *)
Definition actives_kept (m m' : media_input) : Prop :=
  _active_video_stream m' = _active_video_stream m
  /\ _active_audio_stream m' = _active_audio_stream m.

(** The active indices name streams of the input; the active audio index
    may also be -1, for an input without audio streams. *)
Definition valid_selection (m : media_input) : Prop :=
  0 <= _active_video_stream m < MediaInput.video_streams m
  /\ -1 <= _active_audio_stream m < MediaInput.audio_streams m.

(** The tag tables and the tables of stream names are the same. *)
Definition tables_kept (m m' : media_input) : Prop :=
  _tag_names m' = _tag_names m
  /\ _tag_values m' = _tag_values m
  /\ _video_stream_names m' = _video_stream_names m
  /\ _audio_stream_names m' = _audio_stream_names m.

(** [open] accepts the layout it starts with: there is a video stream, and
    the video streams are a stereo pair, or the layout that the template of
    the first one names is not a split layout over an odd raw width or
    height. *)
Definition first_layout_accepted (objs : list media_object) : bool :=
  match all_video_templates objs with
  | [] => false
  | [t0; t1] =>
      MediaInput.templates_match t0 t1
      || negb (layout_ruled_out (stereo_layout t0) t0 true)
  | t0 :: _ => negb (layout_ruled_out (stereo_layout t0) t0 true)
  end.

(** One file with two video streams and one with a video and an audio
    stream. *)
Definition example_double_left_urls : list string :=
  ["double.mkv"%string; "/movies/left.mkv"%string].

Definition example_double_left : media_input :=
  snd (MediaInput.open example_externals example_double_left_urls
         (MediaInput.new false)).

(** * Properties *)

(** ** The flattened stream tables *)

Section Flattening.

Context {stream : Type}.
Variable streams : media_object -> list stream.

Variable count : media_object -> Z.
Hypothesis count_streams : forall mo, count mo = Z.of_nat (List.length (streams mo)).

Lemma length_zrange (n : nat) : List.length (zrange n) = n.
Proof. unfold zrange. now rewrite length_map, length_seq. Qed.

Lemma nth_error_zrange (n k : nat) :
  (k < n)%nat -> nth_error (zrange n) k = Some (Z.of_nat k).
Proof.
  intros Hk. unfold zrange.
  rewrite nth_error_map, nth_error_seq.
  apply Nat.ltb_lt in Hk. now rewrite Hk.
Qed.

Lemma In_zrange (n : nat) (z : Z) :
  In z (zrange n) <-> 0 <= z < Z.of_nat n.
Proof.
  unfold zrange. rewrite in_map_iff. split.
  - intros (k & <- & Hk). apply in_seq in Hk. lia.
  - intros Hz. exists (Z.to_nat z). split; [lia|]. apply in_seq. lia.
Qed.

Lemma NoDup_zrange (n : nat) : NoDup (zrange n).
Proof.
  unfold zrange. apply Finite.Injective_map_NoDup.
  - intros a b H. lia.
  - apply seq_NoDup.
Qed.

Lemma length_stream_pairs_from (objs : list media_object) (i : Z) :
  Z.of_nat (List.length (stream_pairs_from streams i objs)) = stream_total streams objs.
Proof.
  revert i. induction objs as [|mo objs IH]; intros i; [reflexivity|].
  unfold stream_pairs_from, stream_total in *. cbn.
  rewrite length_app, length_map, length_zrange, Nat2Z.inj_add, IH.
  reflexivity.
Qed.

Lemma length_flattened (objs : list media_object) :
  Z.of_nat (List.length (flattened streams objs)) = stream_total streams objs.
Proof.
  induction objs as [|mo objs IH]; [reflexivity|].
  unfold flattened, stream_total in *. cbn.
  now rewrite length_app, Nat2Z.inj_add, IH.
Qed.

Lemma stream_total_nonneg (objs : list media_object) : 0 <= stream_total streams objs.
Proof. rewrite <- length_flattened. lia. Qed.

(** The walk of [get_video_stream] and [get_audio_stream] reads the table
    of index pairs at the global index. *)
Lemma get_stream_loop_nth (objs : list media_object) (i g : Z) :
  0 <= g ->
  MediaInput.get_stream_loop count objs i g
  = nth_error (stream_pairs_from streams i objs) (Z.to_nat g).
Proof.
  revert i g. induction objs as [|mo objs IH]; intros i g Hg.
  - cbn. now destruct (Z.to_nat g).
  - cbn [MediaInput.get_stream_loop]. unfold stream_pairs_from. cbn.
    fold (stream_pairs_from streams (i + 1) objs).
    rewrite count_streams.
    destruct (Z.ltb_spec (Z.of_nat (List.length (streams mo))) (g + 1)) as [Hlt|Hge].
    + rewrite nth_error_app2 by (rewrite length_map, length_zrange; lia).
      rewrite length_map, length_zrange, IH by lia.
      f_equal. lia.
    + rewrite nth_error_app1 by (rewrite length_map, length_zrange; lia).
      rewrite nth_error_map, nth_error_zrange by lia.
      cbn. do 2 f_equal. lia.
Qed.

(** An entry of the table of index pairs names a stream of a media
    object, and that stream is the entry of the flattened table at the
    same place. *)
Lemma stream_pairs_from_flattened (objs : list media_object) (i : Z) (n : nat) (o s : Z) :
  nth_error (stream_pairs_from streams i objs) n = Some (o, s) ->
  i <= o /\ 0 <= s /\
  exists mo x,
    nth_error objs (Z.to_nat (o - i)) = Some mo
    /\ nth_error (streams mo) (Z.to_nat s) = Some x
    /\ nth_error (flattened streams objs) n = Some x.
Proof.
  revert i n. induction objs as [|mo objs IH]; intros i n H.
  - now destruct n.
  - unfold stream_pairs_from in H. cbn in H.
    fold (stream_pairs_from streams (i + 1) objs) in H.
    unfold flattened. cbn [flat_map]. fold (flattened streams objs).
    destruct (Nat.lt_ge_cases n (List.length (streams mo))) as [Hlt|Hge].
    + rewrite nth_error_app1 in H by (rewrite length_map, length_zrange; lia).
      rewrite nth_error_map, nth_error_zrange in H by lia.
      cbn in H. injection H as <- <-.
      split; [lia|]. split; [lia|].
      destruct (nth_error (streams mo) n) as [x|] eqn:Hx.
      * exists mo, x. rewrite Z.sub_diag, Nat2Z.id.
        rewrite nth_error_app1 by lia. auto.
      * apply nth_error_None in Hx. lia.
    + rewrite nth_error_app2 in H by (rewrite length_map, length_zrange; lia).
      rewrite length_map, length_zrange in H.
      apply IH in H. destruct H as (Hi & Hs & mo' & x & Hmo & Hx & Hflat).
      split; [lia|]. split; [lia|].
      exists mo', x. split; [|split]; auto.
      * replace (Z.to_nat (o - i)) with (S (Z.to_nat (o - (i + 1)))) by lia.
        exact Hmo.
      * rewrite nth_error_app2 by lia. exact Hflat.
Qed.

Lemma In_stream_pairs_from (objs : list media_object) (i o s : Z) :
  In (o, s) (stream_pairs_from streams i objs) <->
  i <= o /\
  exists mo, nth_error objs (Z.to_nat (o - i)) = Some mo
             /\ 0 <= s < Z.of_nat (List.length (streams mo)).
Proof.
  revert i. induction objs as [|mo objs IH]; intros i.
  - cbn. split; [tauto|]. intros (_ & mo & H & _). now destruct (Z.to_nat (o - i)).
  - unfold stream_pairs_from. cbn. fold (stream_pairs_from streams (i + 1) objs).
    rewrite in_app_iff, in_map_iff, IH. split.
    + intros [(z & Hz & Hin)|(Hi & mo' & Hmo & Hs)].
      * injection Hz as <- <-. apply In_zrange in Hin.
        split; [lia|]. exists mo. rewrite Z.sub_diag. auto.
      * split; [lia|]. exists mo'.
        replace (Z.to_nat (o - i)) with (S (Z.to_nat (o - (i + 1)))) by lia.
        auto.
    + intros (Hi & mo' & Hmo & Hs).
      destruct (Z.eq_dec o i) as [->|Hne].
      * left. rewrite Z.sub_diag in Hmo. injection Hmo as <-.
        exists s. split; [reflexivity|]. now apply In_zrange.
      * right. split; [lia|]. exists mo'.
        replace (Z.to_nat (o - i)) with (S (Z.to_nat (o - (i + 1)))) in Hmo by lia.
        auto.
Qed.

Lemma NoDup_stream_pairs_from (objs : list media_object) (i : Z) :
  NoDup (stream_pairs_from streams i objs).
Proof.
  revert i. induction objs as [|mo objs IH]; intros i; [constructor|].
  unfold stream_pairs_from. cbn. fold (stream_pairs_from streams (i + 1) objs).
  apply NoDup_app.
  - apply Finite.Injective_map_NoDup; [|apply NoDup_zrange].
    intros a b H. now injection H.
  - apply IH.
  - intros [o s] Hin1 Hin2.
    apply in_map_iff in Hin1. destruct Hin1 as (z & Hz & _). injection Hz as <- <-.
    apply In_stream_pairs_from in Hin2. lia.
Qed.

End Flattening.

Lemma at_index_Ok (A : Type) (l : list A) (i : Z) (x : A) :
  at_index l i = Ok x <-> 0 <= i /\ nth_error l (Z.to_nat i) = Some x.
Proof.
  unfold at_index. destruct (Z.ltb_spec i 0) as [Hneg|Hpos].
  - split; [discriminate|lia].
  - destruct (nth_error l (Z.to_nat i)) as [y|]; split.
    + intros H. injection H as ->. auto.
    + intros [_ H]. now injection H as ->.
    + discriminate.
    + intros [_ H]. discriminate.
Qed.

(** ** Resolving a global stream index *)

(** A global index below the flattened count resolves to the media object
    and local stream that the flattened table holds at that index. *)
Lemma get_video_stream_flattened (m : media_input) (g : Z) :
  MediaInput.video_streams m = stream_total mo_video (_media_objects m) ->
  0 <= g < MediaInput.video_streams m ->
  exists o s mo vs,
    MediaInput.get_video_stream m g = Ok (o, s)
    /\ nth_error (stream_pairs mo_video (_media_objects m)) (Z.to_nat g) = Some (o, s)
    /\ at_index (_media_objects m) o = Ok mo
    /\ at_index (mo_video mo) s = Ok vs
    /\ nth_error (flattened mo_video (_media_objects m)) (Z.to_nat g) = Some vs.
Proof.
  intros Htotal Hg.
  unfold MediaInput.get_video_stream.
  destruct (Z.ltb_spec g (MediaInput.video_streams m)) as [_|]; [|lia].
  cbn.
  rewrite (get_stream_loop_nth mo_video MediaObject.video_streams) by (reflexivity || lia).
  destruct (nth_error (stream_pairs_from mo_video 0 (_media_objects m)) (Z.to_nat g))
    as [[o s]|] eqn:Hnth.
  - destruct (stream_pairs_from_flattened _ _ _ _ _ _ Hnth) as (Ho & Hs & mo & vs & Hmo & Hvs & Hflat).
    rewrite Z.sub_0_r in Hmo.
    exists o, s, mo, vs. repeat split; auto; apply at_index_Ok; auto.
  - apply nth_error_None in Hnth.
    pose proof (length_stream_pairs_from mo_video (_media_objects m) 0). lia.
Qed.

Lemma get_audio_stream_flattened (m : media_input) (g : Z) :
  MediaInput.audio_streams m = stream_total mo_audio (_media_objects m) ->
  0 <= g < MediaInput.audio_streams m ->
  exists o s mo a,
    MediaInput.get_audio_stream m g = Ok (o, s)
    /\ nth_error (stream_pairs mo_audio (_media_objects m)) (Z.to_nat g) = Some (o, s)
    /\ at_index (_media_objects m) o = Ok mo
    /\ at_index (mo_audio mo) s = Ok a
    /\ nth_error (flattened mo_audio (_media_objects m)) (Z.to_nat g) = Some a.
Proof.
  intros Htotal Hg.
  unfold MediaInput.get_audio_stream.
  destruct (Z.ltb_spec g (MediaInput.audio_streams m)) as [_|]; [|lia].
  cbn.
  rewrite (get_stream_loop_nth mo_audio MediaObject.audio_streams) by (reflexivity || lia).
  destruct (nth_error (stream_pairs_from mo_audio 0 (_media_objects m)) (Z.to_nat g))
    as [[o s]|] eqn:Hnth.
  - destruct (stream_pairs_from_flattened _ _ _ _ _ _ Hnth) as (Ho & Hs & mo & a & Hmo & Ha & Hflat).
    rewrite Z.sub_0_r in Hmo.
    exists o, s, mo, a. repeat split; auto; apply at_index_Ok; auto.
  - apply nth_error_None in Hnth.
    pose proof (length_stream_pairs_from mo_audio (_media_objects m) 0). lia.
Qed.

(** ** What the member functions leave alone *)

Lemma map_indexed_from (A B : Type) (f : Z -> A -> B) (g : A -> B) (l : list A) (i : Z) :
  (forall k x, f k x = g x) ->
  map (fun '(k, x) => f k x) (indexed_from i l) = map g l.
Proof.
  intros Hfg. revert i. induction l as [|x l IH]; intros i; [reflexivity|].
  cbn. now rewrite Hfg, IH.
Qed.

Lemma length_indexed_map (A B : Type) (f : Z -> A -> B) (l : list A) (i : Z) :
  List.length (map (fun '(k, x) => f k x) (indexed_from i l)) = List.length l.
Proof.
  revert i. induction l as [|x l IH]; intros i; [reflexivity|].
  cbn. now rewrite IH.
Qed.

Lemma statics_video_streams_set_active (f : Z -> Z -> bool) (objs : list media_object) :
  statics (MediaInput.video_streams_set_active f objs) = statics objs.
Proof.
  unfold statics, MediaInput.video_streams_set_active.
  generalize 0 at 2. induction objs as [|mo objs IH]; intros i; [reflexivity|].
  cbn. rewrite IH. f_equal. unfold static. cbn. f_equal.
  generalize 0. induction (mo_video mo) as [|vs l IHl]; intros j; [reflexivity|].
  cbn. now rewrite IHl.
Qed.

Lemma statics_audio_streams_set_active (f : Z -> Z -> bool) (objs : list media_object) :
  statics (MediaInput.audio_streams_set_active f objs) = statics objs.
Proof.
  unfold statics, MediaInput.audio_streams_set_active.
  generalize 0 at 2. induction objs as [|mo objs IH]; intros i; [reflexivity|].
  cbn. rewrite IH. f_equal. unfold static. cbn. f_equal.
  generalize 0. induction (mo_audio mo) as [|s l IHl]; intros j; [reflexivity|].
  cbn. now rewrite IHl.
Qed.

(** The seek loop changes positions only, however far it gets. *)
Lemma map_seek_media_objects (B : Type) (p : media_object -> B) (pos : Z)
    (objs : list media_object) :
  (forall mo, p (MediaObject.set_mo_pos mo pos) = p mo) ->
  map p (snd (MediaInput.seek_media_objects pos objs)) = map p objs.
Proof.
  intros Hp. induction objs as [|mo objs IH]; [reflexivity|].
  cbn [MediaInput.seek_media_objects]. unfold MediaObject.seek.
  destruct (mo_seekable mo pos); [|reflexivity].
  destruct (MediaInput.seek_media_objects pos objs) as [r rest].
  cbn in *. now rewrite Hp, IH.
Qed.

Lemma statics_seek (pos : Z) (objs : list media_object) :
  statics (snd (MediaInput.seek_media_objects pos objs)) = statics objs.
Proof. apply map_seek_media_objects. reflexivity. Qed.

Lemma statics_cons_inv (x y : media_object) (a b : list media_object) :
  statics (x :: a) = statics (y :: b) ->
  map (MediaObject.set_vs_active false) (mo_video x)
  = map (MediaObject.set_vs_active false) (mo_video y)
  /\ map (MediaObject.set_as_active false) (mo_audio x)
     = map (MediaObject.set_as_active false) (mo_audio y)
  /\ statics a = statics b.
Proof. intros H. cbn in H. unfold static in H. injection H as Hv Ha Hab. auto. Qed.

(** What is read off the static part. *)
Lemma stream_total_video_statics (a b : list media_object) :
  statics a = statics b -> stream_total mo_video a = stream_total mo_video b.
Proof.
  revert b. induction a as [|x a IH]; intros [|y b] H; try discriminate; [reflexivity|].
  apply statics_cons_inv in H. destruct H as (Hv & _ & Hab).
  unfold stream_total in *. cbn. rewrite (IH b Hab).
  apply (f_equal (@List.length _)) in Hv. rewrite !length_map in Hv. now rewrite Hv.
Qed.

Lemma stream_total_audio_statics (a b : list media_object) :
  statics a = statics b -> stream_total mo_audio a = stream_total mo_audio b.
Proof.
  revert b. induction a as [|x a IH]; intros [|y b] H; try discriminate; [reflexivity|].
  apply statics_cons_inv in H. destruct H as (_ & Ha & Hab).
  unfold stream_total in *. cbn. rewrite (IH b Hab).
  apply (f_equal (@List.length _)) in Ha. rewrite !length_map in Ha. now rewrite Ha.
Qed.

Lemma all_video_templates_statics (a b : list media_object) :
  statics a = statics b -> all_video_templates a = all_video_templates b.
Proof.
  revert b. induction a as [|x a IH]; intros [|y b] H; try discriminate; [reflexivity|].
  apply statics_cons_inv in H. destruct H as (Hv & _ & Hab).
  unfold all_video_templates, flattened in *. cbn. rewrite !map_app, (IH b Hab).
  f_equal.
  apply (f_equal (map vs_template)) in Hv. rewrite !map_map in Hv. exact Hv.
Qed.

Lemma all_durations_statics (a b : list media_object) :
  statics a = statics b -> all_durations a = all_durations b.
Proof.
  revert b. induction a as [|x a IH]; intros [|y b] H; try discriminate; [reflexivity|].
  apply statics_cons_inv in H. destruct H as (Hv & Ha & Hab).
  unfold all_durations in *. cbn. rewrite (IH b Hab).
  apply (f_equal (map vs_duration)) in Hv. rewrite !map_map in Hv.
  apply (f_equal (map as_duration)) in Ha. rewrite !map_map in Ha.
  f_equal. f_equal; [exact Hv|exact Ha].
Qed.

Section Preservation.

Variable R : media_input -> media_input -> Prop.
Hypothesis R_refl : forall m, R m m.
Hypothesis R_trans : forall a b c, R a b -> R b c -> R a c.

Lemma preserves_ret (A : Type) (a : A) : preserves R (MediaInput.ret a).
Proof. intros m r m' H. injection H as _ <-. apply R_refl. Qed.

Lemma preserves_read (A : Type) (f : media_input -> res A) :
  preserves R (MediaInput.read f).
Proof. intros m r m' H. injection H as _ <-. apply R_refl. Qed.

Lemma preserves_assert (b : media_input -> bool) : preserves R (MediaInput.assert b).
Proof. apply preserves_read. Qed.

Lemma preserves_modify (f : media_input -> media_input) :
  (forall m, R m (f m)) -> preserves R (MediaInput.modify f).
Proof. intros Hf m r m' H. injection H as _ <-. apply Hf. Qed.

Lemma preserves_bind (A B : Type) (c : MediaInput.M A) (k : A -> MediaInput.M B) :
  preserves R c -> (forall a, preserves R (k a)) -> preserves R (MediaInput.bind c k).
Proof.
  intros Hc Hk m r m' H. unfold MediaInput.bind in H.
  destruct (c m) as [[a|e] m1] eqn:Hcm.
  - apply R_trans with m1; [eapply Hc; eauto|eapply Hk; eauto].
  - injection H as _ <-. eapply Hc; eauto.
Qed.

End Preservation.

Ltac preserve_step refl trans :=
  match goal with
  | |- preserves _ (MediaInput.bind _ _) =>
      apply preserves_bind; [exact trans| |intros ?]
  | |- preserves _ (MediaInput.ret _) => apply preserves_ret; exact refl
  | |- preserves _ (MediaInput.read _) => apply preserves_read; exact refl
  | |- preserves _ (MediaInput.assert _) => apply preserves_assert; exact refl
  | |- preserves _ (match ?x with (_, _) => _ end) => destruct x
  | |- preserves _ (if ?b then _ else _) => destruct b
  end.

Lemma tables_stable_refl (m : media_input) : tables_stable m m.
Proof. now constructor. Qed.

Lemma tables_stable_trans (a b c : media_input) :
  tables_stable a b -> tables_stable b c -> tables_stable a c.
Proof. intros [] []. constructor; congruence. Qed.

Ltac stable_modify :=
  apply preserves_modify; intros ?; constructor; cbn;
  auto using statics_video_streams_set_active, statics_audio_streams_set_active,
    statics_seek.

Ltac stable :=
  repeat (preserve_step tables_stable_refl tables_stable_trans || stable_modify).

Lemma preserves_seek (R : media_input -> media_input -> Prop) (pos : Z) :
  (forall m,
     R m (MediaInput.set_media_objects m
            (snd (MediaInput.seek_media_objects pos (_media_objects m))))) ->
  preserves R (MediaInput.seek pos).
Proof.
  intros HR m r m' H. unfold MediaInput.seek in H. specialize (HR m).
  destruct (MediaInput.seek_media_objects pos (_media_objects m)) as [r0 objs].
  injection H as _ <-. exact HR.
Qed.

Lemma seek_stable (pos : Z) : preserves tables_stable (MediaInput.seek pos).
Proof.
  apply preserves_seek. intros m. constructor; cbn; auto using statics_seek.
Qed.

Lemma set_stereo_layout_stable (E : externals) (l : stereo_layout_t) (swap : bool) :
  preserves tables_stable (MediaInput.set_stereo_layout E l swap).
Proof. unfold MediaInput.set_stereo_layout. stable; apply seek_stable. Qed.

Lemma select_video_stream_stable (E : externals) (k : Z) :
  preserves tables_stable (MediaInput.select_video_stream E k).
Proof.
  unfold MediaInput.select_video_stream. stable. apply set_stereo_layout_stable.
Qed.

Lemma select_audio_stream_stable (k : Z) :
  preserves tables_stable (MediaInput.select_audio_stream k).
Proof. unfold MediaInput.select_audio_stream. stable. Qed.

Lemma set_active_video_stable (E : externals) :
  preserves tables_stable (MediaInput.set_active_video E).
Proof.
  unfold MediaInput.set_active_video. stable; apply select_video_stream_stable.
Qed.

Lemma set_active_audio_stable : preserves tables_stable MediaInput.set_active_audio.
Proof.
  unfold MediaInput.set_active_audio. stable. apply select_audio_stream_stable.
Qed.

(** ** Runs of member functions *)

Lemma bind_Ok (A B : Type) (c : MediaInput.M A) (k : A -> MediaInput.M B)
    (m m' : media_input) (b : B) :
  MediaInput.bind c k m = (Ok b, m') ->
  exists a m1, c m = (Ok a, m1) /\ k a m1 = (Ok b, m').
Proof.
  unfold MediaInput.bind. destruct (c m) as [[a|e] m1]; [eauto|discriminate].
Qed.

Lemma modify_Ok (f : media_input -> media_input) (m m' : media_input) (u : unit) :
  MediaInput.modify f m = (Ok u, m') -> m' = f m.
Proof. intros H. now injection H. Qed.

Lemma read_Ok (A : Type) (f : media_input -> res A) (m m' : media_input) (a : A) :
  MediaInput.read f m = (Ok a, m') -> f m = Ok a /\ m' = m.
Proof. intros H. injection H as H <-. auto. Qed.

Ltac bind_inv H :=
  let a := fresh "a" in
  let m := fresh "m" in
  let Hc := fresh "Hc" in
  apply bind_Ok in H; destruct H as (a & m & Hc & H);
  first [ apply modify_Ok in Hc; subst m
        | apply read_Ok in Hc; destruct Hc as [Hc ->]
        | idtac ].

(** ** What [open] establishes *)

Lemma open_media_objects_Ok (E : externals) (urls : list string)
    (objs objs' : list media_object) :
  List.length objs = List.length urls ->
  MediaInput.open_media_objects E urls objs = (Ok tt, objs') ->
  Forall2 (fun u mo => media_object_open E u = Some mo) urls objs'.
Proof.
  revert objs objs'. induction urls as [|u urls IH]; intros [|mo objs] objs' Hlen H;
    try discriminate Hlen.
  - cbn in H. injection H as <-. constructor.
  - cbn in H. destruct (media_object_open E u) as [mo'|] eqn:Hu; [|discriminate].
    destruct (MediaInput.open_media_objects E urls objs) as [r rest] eqn:Hrest.
    injection H as -> <-. constructor; [exact Hu|].
    apply (IH objs); [cbn in Hlen; lia|exact Hrest].
Qed.

Lemma length_resize (n : nat) (objs : list media_object) :
  List.length (MediaInput.resize n objs) = n.
Proof.
  unfold MediaInput.resize. rewrite length_app, length_firstn, repeat_length. lia.
Qed.

Lemma length_gathered (A B : Type) (streams : media_object -> list A)
    (label : Z -> media_object -> Z -> A -> B) (objs : list media_object) (i : Z) :
  Z.of_nat
    (List.length
       (flat_map (fun '(k, mo) =>
                    map (fun '(j, s) => label k mo j s) (indexed_from 0 (streams mo)))
                 (indexed_from i objs)))
  = stream_total streams objs.
Proof.
  revert i. induction objs as [|mo objs IH]; intros i; [reflexivity|].
  unfold stream_total in *. cbn.
  rewrite length_app, Nat2Z.inj_add, IH.
  now rewrite (length_indexed_map _ _ (label i mo)).
Qed.

Lemma length_gathered_video_stream_names (E : externals) (objs : list media_object) :
  Z.of_nat (List.length (MediaInput.gathered_video_stream_names E objs))
  = stream_total mo_video objs.
Proof.
  unfold MediaInput.gathered_video_stream_names.
  apply (length_gathered _ _ mo_video
           (fun i mo j vs =>
              (MediaInput.pfx (List.length objs) i
               ++ MediaInput.pfx (List.length (mo_video mo)) j
               ++ video_format_info E (vs_template vs))%string)).
Qed.

Lemma length_gathered_audio_stream_names (E : externals) (objs : list media_object) :
  Z.of_nat (List.length (MediaInput.gathered_audio_stream_names E objs))
  = stream_total mo_audio objs.
Proof.
  unfold MediaInput.gathered_audio_stream_names.
  apply (length_gathered _ _ mo_audio
           (fun i mo j s =>
              (MediaInput.pfx (List.length objs) i
               ++ MediaInput.pfx (List.length (mo_audio mo)) j
               ++ audio_format_info E (as_template s))%string)).
Qed.

(** The state in which [open] reaches the detection of the stereo pair, the
    detection itself, and the rest of [open], which leaves the tables
    alone. *)
Lemma open_inv (E : externals) (urls : list string) (b : bool) (st : media_input) :
  MediaInput.open E urls (MediaInput.new b) = (Ok tt, st) ->
  exists objs m1 m2,
    Forall2 (fun u mo => media_object_open E u = Some mo) urls objs
    /\ _media_objects m1 = objs
    /\ _video_stream_names m1 = MediaInput.gathered_video_stream_names E objs
    /\ _audio_stream_names m1 = MediaInput.gathered_audio_stream_names E objs
    /\ _duration m1 = MediaInput.duration_information objs
    /\ MediaInput.detect_stereo_layout_separate m1 = (Ok tt, m2)
    /\ tables_stable m2 st.
Proof.
  intros H. unfold MediaInput.open in H.
  do 3 bind_inv H.
  destruct (MediaInput.open_media_objects E urls _) as [r objs] eqn:Hopen in Hc0.
  injection Hc0 as -> <-.
  do 7 bind_inv H.
  apply bind_Ok in H. destruct H as (u & m3 & Hfind & H).
  apply bind_Ok in H. destruct H as (u' & m4 & Haudio & H).
  apply read_Ok in H. destruct H as [_ ->].
  unfold MediaInput.find_stereo_layout in Hfind.
  apply bind_Ok in Hfind. destruct Hfind as (u2 & m2 & Hdetect & Hvideo).
  apply set_active_video_stable in Hvideo.
  apply set_active_audio_stable in Haudio.
  destruct a1, u2.
  apply open_media_objects_Ok in Hopen; [|apply length_resize].
  eexists objs, _, m2. split; [exact Hopen|].
  split; [|split; [|split; [|split; [|split; [exact Hdetect|]]]]].
  5: { eapply tables_stable_trans; eauto. }
  all: destruct (str_to_int64 E a7); reflexivity.
Qed.

Lemma detected_refl (m : media_input) : detected m m.
Proof. now constructor. Qed.

Lemma detected_trans (a b c : media_input) :
  detected a b -> detected b c -> detected a c.
Proof. intros [] []. constructor; congruence. Qed.

Lemma detect_stereo_layout_separate_detected :
  preserves detected MediaInput.detect_stereo_layout_separate.
Proof.
  unfold MediaInput.detect_stereo_layout_separate.
  repeat (preserve_step detected_refl detected_trans
          || (apply preserves_modify; intros ?; now constructor)).
Qed.

(** An opened input has one stream name per stream of its media objects. *)
Lemma open_tables (E : externals) (urls : list string) (b : bool) (st : media_input) :
  MediaInput.open E urls (MediaInput.new b) = (Ok tt, st) ->
  MediaInput.video_streams st = stream_total mo_video (_media_objects st)
  /\ MediaInput.audio_streams st = stream_total mo_audio (_media_objects st).
Proof.
  intros H. apply open_inv in H.
  destruct H as (objs & m1 & m2 & _ & Hobjs & Hv & Ha & _ & Hdetect & Hstable).
  apply detect_stereo_layout_separate_detected in Hdetect.
  destruct Hdetect as [Ho2 Hv2 Ha2 _].
  destruct Hstable as [_ _ _ Hv3 Ha3 _ _ _ Hstatics].
  unfold MediaInput.video_streams, MediaInput.audio_streams.
  rewrite Hv3, Ha3, Hv2, Ha2, Hv, Ha.
  rewrite length_gathered_video_stream_names, length_gathered_audio_stream_names.
  rewrite (stream_total_video_statics _ _ Hstatics).
  rewrite (stream_total_audio_statics _ _ Hstatics).
  now rewrite Ho2, Hobjs.
Qed.

(** ** Flattened stream indices (C1) *)

Section Resolution.

Context {stream : Type}.
Variable streams : media_object -> list stream.
Variable count : media_object -> Z.
Hypothesis count_streams : forall mo, count mo = Z.of_nat (List.length (streams mo)).

Lemma stream_pairs_from_sorted (objs : list media_object) (i : Z) (a b : nat) (p q : Z * Z) :
  (a < b)%nat ->
  nth_error (stream_pairs_from streams i objs) a = Some p ->
  nth_error (stream_pairs_from streams i objs) b = Some q ->
  lex_lt p q.
Proof.
  revert i a b. induction objs as [|mo objs IH]; intros i a b Hab Ha Hb.
  - now destruct a.
  - unfold stream_pairs_from in Ha, Hb. cbn in Ha, Hb.
    fold (stream_pairs_from streams (i + 1) objs) in Ha, Hb.
    destruct (Nat.lt_ge_cases a (List.length (streams mo))) as [Ha'|Ha'].
    + rewrite nth_error_app1 in Ha by (rewrite length_map, length_zrange; lia).
      rewrite nth_error_map, nth_error_zrange in Ha by lia.
      injection Ha as <-.
      destruct (Nat.lt_ge_cases b (List.length (streams mo))) as [Hb'|Hb'].
      * rewrite nth_error_app1 in Hb by (rewrite length_map, length_zrange; lia).
        rewrite nth_error_map, nth_error_zrange in Hb by lia.
        injection Hb as <-. right. cbn. lia.
      * rewrite nth_error_app2 in Hb by (rewrite length_map, length_zrange; lia).
        destruct q as [o s].
        apply stream_pairs_from_flattened in Hb. destruct Hb as (Hb & _).
        left. cbn. lia.
    + rewrite nth_error_app2 in Ha by (rewrite length_map, length_zrange; lia).
      rewrite nth_error_app2 in Hb by (rewrite length_map, length_zrange; lia).
      rewrite length_map, length_zrange in Ha, Hb.
      eapply IH; [|exact Ha|exact Hb]. lia.
Qed.

Lemma stream_total_counts (objs : list media_object) :
  stream_total streams objs = fold_right Z.add 0 (map count objs).
Proof.
  unfold stream_total. f_equal. apply map_ext. intros mo. now rewrite count_streams.
Qed.

Lemma resolves_in_order_pairs (objs : list media_object) (f : Z -> res (Z * Z)) (n : Z) :
  n = stream_total streams objs ->
  (forall g, 0 <= g < n ->
     exists p, nth_error (stream_pairs streams objs) (Z.to_nat g) = Some p
               /\ f g = Ok p) ->
  resolves_in_order objs count f n.
Proof.
  intros Hn Hf. constructor.
  - rewrite Hn. apply stream_total_counts.
  - intros g Hg. destruct (Hf g Hg) as ([o s] & Hnth & Hfg).
    assert (Hin : In (o, s) (stream_pairs streams objs))
      by (eapply nth_error_In; eauto).
    apply In_stream_pairs_from in Hin. destruct Hin as (Ho & mo & Hmo & Hs).
    rewrite Z.sub_0_r in Hmo.
    exists o, s, mo. rewrite count_streams. repeat split; try lia; auto.
    apply at_index_Ok; auto.
  - intros g g' Hg Hg' Heq.
    destruct (Hf g Hg) as (p & Hnth & Hfg).
    destruct (Hf g' Hg') as (p' & Hnth' & Hfg').
    rewrite Hfg, Hfg' in Heq. injection Heq as <-.
    assert (Z.to_nat g = Z.to_nat g'); [|lia].
    apply (proj1 (NoDup_nth_error (stream_pairs streams objs))).
    + apply NoDup_stream_pairs_from.
    + apply nth_error_Some. congruence.
    + congruence.
  - intros o s mo Hmo Hs. apply at_index_Ok in Hmo. destruct Hmo as [Ho Hmo].
    assert (Hin : In (o, s) (stream_pairs streams objs)).
    { apply In_stream_pairs_from. split; [lia|]. exists mo.
      rewrite Z.sub_0_r, <- count_streams. auto. }
    apply In_nth_error in Hin. destruct Hin as (k & Hk).
    assert (Hlt : (k < List.length (stream_pairs streams objs))%nat)
      by (apply nth_error_Some; congruence).
    pose proof (length_stream_pairs_from streams objs 0) as Hlen.
    fold (stream_pairs streams objs) in Hlen.
    exists (Z.of_nat k). split; [lia|].
    destruct (Hf (Z.of_nat k) ltac:(lia)) as (p & Hnth & Hfg).
    rewrite Nat2Z.id in Hnth. congruence.
  - intros g g' p p' H0 Hlt Hn' Hfg Hfg'.
    destruct (Hf g ltac:(lia)) as (q & Hnth & Hq).
    destruct (Hf g' ltac:(lia)) as (q' & Hnth' & Hq').
    assert (q = p) by congruence. assert (q' = p') by congruence. subst q q'.
    apply (stream_pairs_from_sorted objs 0 (Z.to_nat g) (Z.to_nat g')); auto. lia.
Qed.

End Resolution.

(** ** Duration (C2) *)

Lemma fold_shorter_app (l1 l2 : list Z) (init : Z) :
  fold_left MediaInput.shorter (l1 ++ l2) init
  = fold_left MediaInput.shorter l2 (fold_left MediaInput.shorter l1 init).
Proof. apply fold_left_app. Qed.

(** The loops of [open] over the streams of every media object take the
    durations in the order of [all_durations]. *)
Lemma duration_information_fold (objs : list media_object) (init : Z) :
  fold_left
    (fun duration mo =>
       fold_left MediaInput.shorter (map as_duration (mo_audio mo))
         (fold_left MediaInput.shorter (map vs_duration (mo_video mo)) duration))
    objs init
  = fold_left MediaInput.shorter (all_durations objs) init.
Proof.
  revert init. induction objs as [|mo objs IH]; intros init; [reflexivity|].
  unfold all_durations. cbn. fold (all_durations objs).
  now rewrite IH, !fold_shorter_app.
Qed.

Lemma fold_shorter_bounds (l : list Z) (init : Z) :
  let r := fold_left MediaInput.shorter l init in
  (r = init \/ In r l) /\ r <= init /\ forall x, In x l -> r <= x.
Proof.
  revert init. induction l as [|d l IH]; intros init; cbn.
  - split; [left; reflexivity|]. split; [lia|]. intros x [].
  - specialize (IH (MediaInput.shorter init d)).
    cbn in IH. destruct IH as (Hin & Hle & Hall).
    unfold MediaInput.shorter in *.
    destruct (Z.ltb_spec d init) as [Hlt|Hge].
    + repeat split.
      * destruct Hin as [->|Hin]; auto.
      * lia.
      * intros x [<-|Hx]; auto.
    + repeat split.
      * destruct Hin as [->|Hin]; auto.
      * lia.
      * intros x [<-|Hx]; [lia|auto].
Qed.

Lemma fold_shorter_minimum (l : list Z) :
  l <> [] ->
  Forall (fun d => INT64_MIN <= d <= INT64_MAX) l ->
  is_minimum (fold_left MediaInput.shorter l INT64_MAX) l.
Proof.
  intros Hne Hrange.
  destruct (fold_shorter_bounds l INT64_MAX) as (Hin & Hle & Hall).
  split; [|exact Hall].
  destruct Hin as [Heq|Hin]; [|exact Hin].
  destruct l as [|d l]; [contradiction|].
  assert (Hd : In d (d :: l)) by (left; reflexivity).
  pose proof (Hall d Hd) as Hlow.
  rewrite Forall_forall in Hrange. pose proof (Hrange d Hd) as Hhigh.
  assert (d = fold_left MediaInput.shorter (d :: l) INT64_MAX) by lia.
  rewrite <- H. exact Hd.
Qed.

(** C2.  After a successful [open], [duration()] is the minimum of the
    durations of all video and audio streams of all media objects, whichever
    of them are active.  The streams' durations are [int64_t] values, and
    there is at least one stream. *)
Theorem open_duration_is_minimum
    (E : externals) (urls : list string) (b : bool) (st : media_input) :
  MediaInput.open E urls (MediaInput.new b) = (Ok tt, st) ->
  all_durations (_media_objects st) <> [] ->
  Forall (fun d => INT64_MIN <= d <= INT64_MAX) (all_durations (_media_objects st)) ->
  is_minimum (MediaInput.duration st) (all_durations (_media_objects st)).
Proof.
  intros H Hne Hrange. apply open_inv in H.
  destruct H as (objs & m1 & m2 & _ & Hobjs & _ & _ & Hdur & Hdetect & Hstable).
  apply detect_stereo_layout_separate_detected in Hdetect.
  destruct Hdetect as [Ho2 _ _ Hd2].
  destruct Hstable as [_ _ _ _ _ _ _ Hd3 Hstatics].
  unfold MediaInput.duration. rewrite Hd3, Hd2, Hdur.
  unfold MediaInput.duration_information. rewrite duration_information_fold.
  rewrite (all_durations_statics _ _ Hstatics), Ho2, Hobjs in Hne, Hrange |- *.
  now apply fold_shorter_minimum.
Qed.

(** ** Stereo pair detection (C3) *)



Lemma template_at_flattened (m : media_input) (g : Z) :
  MediaInput.video_streams m = stream_total mo_video (_media_objects m) ->
  0 <= g < MediaInput.video_streams m ->
  exists t,
    nth_error (all_video_templates (_media_objects m)) (Z.to_nat g) = Some t
    /\ MediaInput.template_at m g = Ok t.
Proof.
  intros Htotal Hg.
  destruct (get_video_stream_flattened m g Htotal Hg)
    as (o & s & mo & vs & Hget & _ & Hmo & Hvs & Hflat).
  exists (vs_template vs). split.
  - unfold all_video_templates. now rewrite nth_error_map, Hflat.
  - unfold MediaInput.template_at, MediaObject.video_frame_template.
    rewrite Hget. cbn. rewrite Hmo. cbn. now rewrite Hvs.
Qed.



(** ** Supported stereo layouts (C5, C10) *)

(** C5.  [stereo_layout_is_supported] is false without a video stream;
    with one, it is false exactly when the layout is left_right or
    left_right_half and the raw width of the active stream is odd, or the
    layout is top_bottom, top_bottom_half or even_odd_rows and its raw
    height is odd, or the layout is separate and
    [_supports_stereo_layout_separate] is false. *)
Theorem stereo_layout_is_supported_cases
    (m : media_input) (l : stereo_layout_t) (swap : bool) :
  (MediaInput.video_streams m < 1 ->
   MediaInput.stereo_layout_is_supported m l swap = Ok false)
  /\ (MediaInput.video_streams m = stream_total mo_video (_media_objects m) ->
      0 <= _active_video_stream m < MediaInput.video_streams m ->
      exists t,
        active_video_template m = Some t
        /\ MediaInput.stereo_layout_is_supported m l swap
           = Ok (negb (layout_ruled_out l t (_supports_stereo_layout_separate m)))).
Proof.
  split.
  - intros Hnone. unfold MediaInput.stereo_layout_is_supported.
    destruct (Z.ltb_spec (MediaInput.video_streams m) 1); [reflexivity|lia].
  - intros Htotal Hactive.
    destruct (get_video_stream_flattened m _ Htotal Hactive)
      as (o & s & mo & vs & Hget & _ & Hmo & Hvs & Hflat).
    exists (vs_template vs). split.
    + unfold active_video_template, all_video_templates.
      now rewrite nth_error_map, Hflat.
    + unfold MediaInput.stereo_layout_is_supported.
      destruct (Z.ltb_spec (MediaInput.video_streams m) 1); [lia|].
      destruct (Z.leb_spec 0 (_active_video_stream m)); [|lia].
      destruct (Z.ltb_spec (_active_video_stream m) (MediaInput.video_streams m)); [|lia].
      cbn. rewrite Hget. cbn. rewrite Hmo. cbn.
      unfold MediaObject.video_frame_template. rewrite Hvs. cbn.
      rewrite <- !Zquot.Zodd_rem.
      destruct l; cbn; rewrite ?orb_false_r; reflexivity.
Qed.

(** C10.  The result of [stereo_layout_is_supported] does not depend on
    its swap argument. *)
Theorem stereo_layout_is_supported_swap_independent
    (m : media_input) (l : stereo_layout_t) (swap1 swap2 : bool) :
  MediaInput.stereo_layout_is_supported m l swap1
  = MediaInput.stereo_layout_is_supported m l swap2.
Proof. reflexivity. Qed.

(** ** Closing (C7) *)

(** C7.  [close] puts every member that the constructor initialises back
    to its initial value: the result is a newly constructed object (the one
    member that the constructor leaves uninitialised,
    [_supports_stereo_layout_separate], keeps its value).  Closing a closed
    or new object changes nothing, and after [close] the duration is -1
    and there are no tags and no streams. *)
Theorem close_resets (m : media_input) :
  let closed := snd (MediaInput.close m) in
  fst (MediaInput.close m) = Ok tt
  /\ closed = MediaInput.new (_supports_stereo_layout_separate m)
  /\ MediaInput.duration closed = -1
  /\ _active_video_stream closed = -1
  /\ _active_audio_stream closed = -1
  /\ MediaInput.initial_skip closed = 0
  /\ MediaInput.id closed = EmptyString
  /\ _media_objects closed = []
  /\ _tag_names closed = [] /\ _tag_values closed = []
  /\ _video_stream_names closed = [] /\ _audio_stream_names closed = []
  /\ MediaInput.tags closed = 0
  /\ MediaInput.video_streams closed = 0
  /\ MediaInput.audio_streams closed = 0
  /\ MediaInput.close closed = (Ok tt, closed)
  /\ (forall b, MediaInput.close (MediaInput.new b) = (Ok tt, MediaInput.new b)).
Proof. cbn. repeat split. Qed.

(** ** A failing [open] (C8) *)

(** What the loop over the locators leaves when one of them cannot be
    opened: the objects opened before it, then the objects as [resize] left
    them. *)
Lemma open_media_objects_fails (E : externals) (urls : list string)
    (objs : list media_object) :
  List.length objs = List.length urls ->
  (exists u, In u urls /\ media_object_open E u = None) ->
  exists opened,
    MediaInput.open_media_objects E urls objs
    = (Fail open_failed, opened ++ skipn (List.length opened) objs)
    /\ (List.length opened < List.length urls)%nat
    /\ Forall2 (fun u mo => media_object_open E u = Some mo)
         (firstn (List.length opened) urls) opened
    /\ (exists u, nth_error urls (List.length opened) = Some u
                  /\ media_object_open E u = None).
Proof.
  revert objs. induction urls as [|u urls IH]; intros [|mo objs] Hlen Hfail;
    try discriminate Hlen.
  - destruct Hfail as (u & [] & _).
  - cbn [MediaInput.open_media_objects].
    destruct (media_object_open E u) as [mo'|] eqn:Hu.
    + destruct (IH objs) as (opened & Hrun & Hlt & Hopened & Hnext).
      * cbn in Hlen. lia.
      * destruct Hfail as (u' & [<-|Hin] & Hnone); [congruence|eauto].
      * exists (mo' :: opened). rewrite Hrun. cbn.
        repeat split; auto; lia.
    + exists []. cbn. repeat split; auto; try lia. eauto.
Qed.

(** C8, as the code has it.  When one of the locators cannot be opened,
    [open] fails with the exception of that media object, and every member
    but [_media_objects] is as it was before the call: no id, tag, stream
    name, duration or selection of the failed call is kept.  The vector of
    media objects is not put back: it has one entry for every locator, the
    objects opened before the failing one first. *)
Theorem open_failure_state (E : externals) (urls : list string) (m : media_input) :
  (exists u, In u urls /\ media_object_open E u = None) ->
  exists opened,
    MediaInput.open E urls m
    = (Fail open_failed,
       MediaInput.set_media_objects m
         (opened
          ++ skipn (List.length opened)
               (MediaInput.resize (List.length urls) (_media_objects m))))
    /\ (List.length opened < List.length urls)%nat
    /\ Forall2 (fun u mo => media_object_open E u = Some mo)
         (firstn (List.length opened) urls) opened
    /\ (exists u, nth_error urls (List.length opened) = Some u
                  /\ media_object_open E u = None).
Proof.
  intros Hfail.
  destruct (open_media_objects_fails E urls
              (MediaInput.resize (List.length urls) (_media_objects m))
              (length_resize _ _) Hfail)
    as (opened & Hrun & Hlt & Hopened & Hnext).
  exists opened. repeat split; auto.
  unfold MediaInput.open, MediaInput.bind at 1, MediaInput.assert, MediaInput.read.
  assert (Hne : (0 <? List.length urls)%nat = true) by (apply Nat.ltb_lt; lia).
  rewrite Hne. cbn [guard].
  unfold MediaInput.bind at 1, MediaInput.modify at 1.
  unfold MediaInput.bind at 1.
  cbn [_media_objects MediaInput.set_media_objects].
  rewrite Hrun. reflexivity.
Qed.

(** ** The paired frame read (C4) *)

Lemma nth_error_update_nth_eq (A : Type) (f : A -> A) (l : list A) (n : nat) (x : A) :
  nth_error l n = Some x ->
  nth_error (MediaObject.update_nth n f l) n = Some (f x).
Proof.
  revert n. induction l as [|y l IH]; intros [|n] H; try discriminate.
  - cbn in *. now injection H as ->.
  - cbn in *. auto.
Qed.

Lemma nth_error_update_nth_ne (A : Type) (f : A -> A) (l : list A) (n k : nat) :
  n <> k ->
  nth_error (MediaObject.update_nth n f l) k = nth_error l k.
Proof.
  revert n k. induction l as [|y l IH]; intros [|n] [|k] H; cbn; auto.
  congruence.
Qed.

(** Finishing the read of stream [s0] of media object [o0]: the frame is
    the next frame of that stream, and every other stream is as before. *)
Lemma finish_object_read_Ok (m : media_input) (o0 s0 : Z)
    (mo0 : media_object) (vs0 : video_stream) :
  at_index (_media_objects m) o0 = Ok mo0 ->
  at_index (mo_video mo0) s0 = Ok vs0 ->
  exists m',
    MediaInput.finish_object_read o0 s0 m = (Ok (MediaObject.next_frame vs0), m')
    /\ _video_frame m' = _video_frame m
    /\ forall o1 s1 mo1 vs1,
         (o1, s1) <> (o0, s0) ->
         at_index (_media_objects m) o1 = Ok mo1 ->
         at_index (mo_video mo1) s1 = Ok vs1 ->
         exists mo1',
           at_index (_media_objects m') o1 = Ok mo1'
           /\ at_index (mo_video mo1') s1 = Ok vs1.
Proof.
  intros Hmo0 Hvs0.
  unfold MediaInput.finish_object_read, MediaObject.finish_video_frame_read.
  rewrite Hmo0. cbn. rewrite Hvs0. cbn.
  eexists. split; [reflexivity|]. split; [reflexivity|].
  intros o1 s1 mo1 vs1 Hne Hmo1 Hvs1. cbn.
  apply at_index_Ok in Hmo0, Hvs0, Hmo1, Hvs1.
  destruct Hmo0 as [Ho0 Hmo0], Hvs0 as [Hs0 Hvs0].
  destruct Hmo1 as [Ho1 Hmo1], Hvs1 as [Hs1 Hvs1].
  destruct (Z.eq_dec o1 o0) as [->|Hno].
  - assert (mo1 = mo0) by congruence. subst mo1.
    eexists. split.
    + apply at_index_Ok. split; [exact Ho0|].
      apply nth_error_update_nth_eq. exact Hmo0.
    + cbn. apply at_index_Ok. split; [exact Hs1|].
      rewrite nth_error_update_nth_ne; [exact Hvs1|].
      intros Heq. apply Hne. f_equal. lia.
  - exists mo1. split.
    + apply at_index_Ok. split; [exact Ho1|].
      rewrite nth_error_update_nth_ne; [exact Hmo1|]. lia.
    + apply at_index_Ok. auto.
Qed.

Lemma copy_planes_separate_combined (format f0 f1 : video_frame) :
  with_presentation_time
    (fold_left (MediaInput.copy_planes_separate f0 f1) (seq 0 3) format)
    (presentation_time f0)
  = combined_frame format f0 f1.
Proof.
  destruct format as [rw rh rar w h ar l cs vr cl sl sw [[[a0 a1] a2] [[a3 a4] a5]]
                        [[[b0 b1] b2] [[b3 b4] b5]] pt v].
  destruct f0 as [? ? ? ? ? ? ? ? ? ? ? ? [[[c0 c1] c2] [[c3 c4] c5]]
                    [[[d0 d1] d2] [[d3 d4] d5]] ? ?].
  destruct f1 as [? ? ? ? ? ? ? ? ? ? ? ? [[[e0 e1] e2] [[e3 e4] e5]]
                    [[[g0 g1] g2] [[g3 g4] g5]] ? ?].
  reflexivity.
Qed.

(** C4.  With the separate layout, [finish_video_frame_read] returns the
    invalid default frame when the frame of either of the two streams is
    invalid; when both are valid it returns the current format of the input
    with the planes and line sizes of the first stream's frame in slot 0,
    those of the second stream's frame in slot 1, and the presentation time
    of the first stream's frame. *)
Theorem finish_video_frame_read_separate (m : media_input) :
  stereo_layout (_video_frame m) = separate ->
  0 <= _active_video_stream m ->
  MediaInput.video_streams m = stream_total mo_video (_media_objects m) ->
  2 <= MediaInput.video_streams m ->
  exists f0 f1 m',
    next_frame_at m 0 = Some f0
    /\ next_frame_at m 1 = Some f1
    /\ MediaInput.finish_video_frame_read m
       = (Ok (if is_valid f0 && is_valid f1
              then combined_frame (_video_frame m) f0 f1
              else video_frame_default), m')
    /\ is_valid video_frame_default = false.
Proof.
  intros Hsep Hactive Htotal Htwo.
  destruct (get_video_stream_flattened m 0 Htotal ltac:(lia))
    as (o0 & s0 & mo0 & vs0 & Hget0 & Hp0 & Hmo0 & Hvs0 & Hflat0).
  destruct (get_video_stream_flattened m 1 Htotal ltac:(lia))
    as (o1 & s1 & mo1 & vs1 & Hget1 & Hp1 & Hmo1 & Hvs1 & Hflat1).
  assert (Hne : (o1, s1) <> (o0, s0)).
  { intros Heq. rewrite Heq in Hp1.
    pose proof (NoDup_stream_pairs_from mo_video (_media_objects m) 0) as Hnd.
    assert (Z.to_nat 1 = Z.to_nat 0); [|discriminate].
    apply (proj1 (NoDup_nth_error _) Hnd).
    - apply nth_error_Some. unfold stream_pairs in Hp1. congruence.
    - unfold stream_pairs in Hp0, Hp1. congruence. }
  destruct (finish_object_read_Ok m o0 s0 mo0 vs0 Hmo0 Hvs0)
    as (ma & Hread0 & Hframe_a & Hother).
  destruct (Hother o1 s1 mo1 vs1 Hne Hmo1 Hvs1) as (mo1' & Hmo1' & Hvs1').
  destruct (finish_object_read_Ok ma o1 s1 mo1' vs1 Hmo1' Hvs1')
    as (mb & Hread1 & Hframe_b & _).
  exists (MediaObject.next_frame vs0), (MediaObject.next_frame vs1), mb.
  unfold next_frame_at. change (Z.to_nat 0) with 0%nat in Hflat0.
  change (Z.to_nat 1) with 1%nat in Hflat1. rewrite Hflat0, Hflat1.
  repeat split.
  unfold MediaInput.finish_video_frame_read.
  unfold MediaInput.bind at 1, MediaInput.assert, MediaInput.read at 1.
  destruct (Z.leb_spec 0 (_active_video_stream m)); [|lia]. cbn [guard].
  unfold MediaInput.bind at 1, MediaInput.read at 1.
  rewrite Hsep. cbn [stereo_layout_eqb].
  unfold MediaInput.bind at 1, MediaInput.read at 1. rewrite Hget0.
  unfold MediaInput.bind at 1, MediaInput.read at 1. rewrite Hget1.
  unfold MediaInput.bind at 1. rewrite Hread0.
  unfold MediaInput.bind at 1. rewrite Hread1.
  destruct (is_valid (MediaObject.next_frame vs0));
    destruct (is_valid (MediaObject.next_frame vs1)); cbn [negb orb andb];
    try reflexivity.
  unfold MediaInput.bind, MediaInput.read, MediaInput.ret.
  rewrite copy_planes_separate_combined, Hframe_b, Hframe_a. reflexivity.
Qed.

(** ** Selecting a video stream in the separate layout (C6) *)

Lemma video_streams_set_active_all (objs : list media_object) :
  MediaInput.video_streams_set_active (fun _ _ => true) objs = map activate_all objs.
Proof.
  unfold MediaInput.video_streams_set_active.
  apply (map_indexed_from _ _
           (fun (i : Z) mo =>
              MediaObject.set_mo_video mo
                (map (fun '(j, vs) => MediaObject.set_vs_active true vs)
                     (indexed_from 0 (mo_video mo))))).
  intros i mo. unfold activate_all. f_equal.
  apply (map_indexed_from _ _ (fun (j : Z) vs => MediaObject.set_vs_active true vs)).
  reflexivity.
Qed.

Lemma active_video_flags_activate_all (objs : list media_object) :
  Forall (fun b => b = true) (active_video_flags (map activate_all objs)).
Proof.
  unfold active_video_flags, flattened.
  induction objs as [|mo objs IH]; [constructor|].
  cbn. rewrite map_app. apply Forall_app. split; [|exact IH].
  rewrite map_map. cbn. apply Forall_forall. intros b Hb.
  apply in_map_iff in Hb. now destruct Hb as (_ & <- & _).
Qed.

Lemma set_vs_active_active (v : list video_stream) :
  Forall (fun b => b = true) (map vs_active v) ->
  map (MediaObject.set_vs_active true) v = v.
Proof.
  induction v as [|vs v IH]; intros Hall; [reflexivity|].
  inversion Hall as [|? ? Hvs Hv]; subst.
  cbn. rewrite (IH Hv). f_equal.
  destruct vs as [t d n dn a fr]. cbn in Hvs. now subst a.
Qed.

Lemma activate_all_active (objs : list media_object) :
  Forall (fun b => b = true) (active_video_flags objs) ->
  map activate_all objs = objs.
Proof.
  unfold active_video_flags, flattened.
  induction objs as [|mo objs IH]; intros Hall; [reflexivity|].
  cbn in Hall. rewrite map_app in Hall. apply Forall_app in Hall.
  destruct Hall as [Hmo Hrest]. cbn. rewrite (IH Hrest). f_equal.
  unfold activate_all. rewrite (set_vs_active_active _ Hmo).
  now destruct mo.
Qed.

(** C6, as the code has it.  While the layout of the current video format
    is separate, [select_video_stream] with a valid index marks all video
    streams of all media objects active and changes nothing else; the
    result is the same for every valid index.  When the streams are all
    active before the call, the call changes nothing at all. *)
Theorem select_video_stream_separate
    (E : externals) (m : media_input) (video_stream : Z) :
  stereo_layout (_video_frame m) = separate ->
  0 <= video_stream < MediaInput.video_streams m ->
  let m' :=
    MediaInput.set_media_objects m (map activate_all (_media_objects m)) in
  MediaInput.select_video_stream E video_stream m = (Ok tt, m')
  /\ Forall (fun b => b = true) (active_video_flags (_media_objects m'))
  /\ (forall k, 0 <= k < MediaInput.video_streams m ->
        MediaInput.select_video_stream E k m
        = MediaInput.select_video_stream E video_stream m)
  /\ (Forall (fun b => b = true) (active_video_flags (_media_objects m)) ->
      m' = m).
Proof.
  intros Hsep Hvalid m'.
  assert (Hrun : forall k, 0 <= k < MediaInput.video_streams m ->
                   MediaInput.select_video_stream E k m = (Ok tt, m')).
  { intros k Hk. unfold MediaInput.select_video_stream.
    unfold MediaInput.bind at 1, MediaInput.assert, MediaInput.read at 1.
    destruct (Z.leb_spec 0 k); [|lia]. cbn [guard].
    unfold MediaInput.bind at 1, MediaInput.read at 1.
    destruct (Z.ltb_spec k (MediaInput.video_streams m)); [|lia]. cbn [guard].
    unfold MediaInput.bind at 1, MediaInput.read at 1.
    rewrite Hsep. cbn [stereo_layout_eqb].
    unfold MediaInput.modify. now rewrite video_streams_set_active_all. }
  split; [auto|]. split; [apply active_video_flags_activate_all|].
  split.
  - intros k Hk. now rewrite !Hrun.
  - intros Hall. unfold m'. rewrite (activate_all_active _ Hall).
    now destruct m.
Qed.

(** ** The worked input *)

Example example_pair_opens :
  MediaInput.open example_externals example_pair_urls (MediaInput.new false)
  = (Ok tt, example_pair)
  /\ MediaInput.id example_pair = "left.mkv/right.mkv"%string
  /\ _tag_names example_pair = ["1 - title"%string]
  /\ _video_stream_names example_pair = ["1 - video"%string; "2 - video"%string]
  /\ stereo_layout (_video_frame example_pair) = separate
  /\ active_video_flags (_media_objects example_pair) = [true; true].
Proof. vm_compute. repeat split. Qed.

Example example_mixed_opens :
  fst (MediaInput.open example_externals
         ["/movies/left.mkv"%string; "small.mkv"%string] (MediaInput.new false))
  = Ok tt
  /\ _supports_stereo_layout_separate example_mixed = false
  /\ fst (MediaInput.select_video_stream example_externals 1 example_mixed) = Ok tt
  /\ _active_video_stream example_mixed_second = 1
  /\ active_video_flags (_media_objects example_mixed_second) = [false; true].
Proof. vm_compute. repeat split. Qed.

(** Every step that leads to [example_pair_again] succeeds. *)
Example example_pair_again_reached :
  fst (MediaInput.set_stereo_layout example_externals mono false example_pair) = Ok tt
  /\ fst (MediaInput.select_video_stream example_externals 1 example_pair_mono) = Ok tt
  /\ fst (MediaInput.set_stereo_layout example_externals separate false example_pair_second)
     = Ok tt.
Proof. vm_compute. repeat split. Qed.

(** ** The claims on the worked input

    C9 is read off the code at the end. *)

(** Sources of 10 and of 7 seconds give a duration of 7000000
    microseconds. *)
Lemma open_duration_is_minimum_witness :
  is_minimum (MediaInput.duration example_pair)
    (all_durations (_media_objects example_pair))
  /\ MediaInput.duration example_pair = 7000000
  /\ all_durations (_media_objects example_pair) = [10000000; 10000000; 7000000].
Proof.
  split; [|split; reflexivity].
  apply (open_duration_is_minimum example_externals example_pair_urls false).
  - vm_compute. reflexivity.
  - vm_compute. discriminate.
  - apply Forall_forall. intros d Hd. vm_compute in Hd.
    unfold INT64_MIN, INT64_MAX. lia.
Defined.


(** Both streams of the pair deliver a frame. *)
Lemma finish_video_frame_read_separate_witness :
  exists f0 f1 m',
    next_frame_at example_pair 0 = Some f0
    /\ next_frame_at example_pair 1 = Some f1
    /\ MediaInput.finish_video_frame_read example_pair
       = (Ok (if is_valid f0 && is_valid f1
              then combined_frame (_video_frame example_pair) f0 f1
              else video_frame_default), m')
    /\ is_valid video_frame_default = false.
Proof.
  apply (finish_video_frame_read_separate example_pair).
  - reflexivity.
  - vm_compute. discriminate.
  - reflexivity.
  - vm_compute. discriminate.
Defined.

(** The second read finds the second stream exhausted: the frame is the
    invalid one. *)
Example example_pair_second_read :
  let after_first := snd (MediaInput.finish_video_frame_read example_pair) in
  option_map is_valid (next_frame_at after_first 0) = Some true
  /\ option_map is_valid (next_frame_at after_first 1) = Some false
  /\ fst (MediaInput.finish_video_frame_read after_first) = Ok video_frame_default.
Proof. vm_compute. repeat split. Qed.

Lemma stereo_layout_is_supported_cases_witness :
  exists t,
    active_video_template example_pair = Some t
    /\ MediaInput.stereo_layout_is_supported example_pair left_right false
       = Ok (negb (layout_ruled_out left_right t
                     (_supports_stereo_layout_separate example_pair))).
Proof.
  apply (proj2 (stereo_layout_is_supported_cases example_pair left_right false)).
  - reflexivity.
  - vm_compute. split; [discriminate|reflexivity].
Defined.

Lemma select_video_stream_separate_witness :
  let m' :=
    MediaInput.set_media_objects example_pair
      (map activate_all (_media_objects example_pair)) in
  MediaInput.select_video_stream example_externals 1 example_pair = (Ok tt, m')
  /\ Forall (fun b => b = true) (active_video_flags (_media_objects m'))
  /\ (forall k, 0 <= k < MediaInput.video_streams example_pair ->
        MediaInput.select_video_stream example_externals k example_pair
        = MediaInput.select_video_stream example_externals 1 example_pair)
  /\ (Forall (fun b => b = true) (active_video_flags (_media_objects example_pair)) ->
      m' = example_pair).
Proof.
  apply (select_video_stream_separate example_externals example_pair 1).
  - reflexivity.
  - vm_compute. split; [discriminate|reflexivity].
Defined.

(** C6 as stated fails: in [example_pair_again] the layout is separate and
    only the second stream is active; [select_video_stream] then changes
    which streams are active. *)
Lemma select_video_stream_separate_changes_active :
  stereo_layout (_video_frame example_pair_again) = separate
  /\ 0 <= 0 < MediaInput.video_streams example_pair_again
  /\ active_video_flags (_media_objects example_pair_again) = [false; true]
  /\ fst (MediaInput.select_video_stream example_externals 0 example_pair_again) = Ok tt
  /\ active_video_flags
       (_media_objects
          (snd (MediaInput.select_video_stream example_externals 0 example_pair_again)))
     = [true; true]
  /\ active_video_flags
       (_media_objects
          (snd (MediaInput.select_video_stream example_externals 0 example_pair_again)))
     <> active_video_flags (_media_objects example_pair_again).
Proof. vm_compute. repeat split; discriminate. Qed.

Lemma open_failure_state_witness :
  exists opened,
    MediaInput.open example_externals
      ["/movies/left.mkv"%string; "missing.mkv"%string] (MediaInput.new false)
    = (Fail open_failed,
       MediaInput.set_media_objects (MediaInput.new false)
         (opened
          ++ skipn (List.length opened)
               (MediaInput.resize 2 (_media_objects (MediaInput.new false)))))
    /\ (List.length opened < 2)%nat
    /\ Forall2 (fun u mo => media_object_open example_externals u = Some mo)
         (firstn (List.length opened)
            ["/movies/left.mkv"%string; "missing.mkv"%string]) opened
    /\ (exists u,
          nth_error ["/movies/left.mkv"%string; "missing.mkv"%string]
            (List.length opened) = Some u
          /\ media_object_open example_externals u = None).
Proof.
  apply (open_failure_state example_externals
           ["/movies/left.mkv"%string; "missing.mkv"%string] (MediaInput.new false)).
  exists "missing.mkv"%string. split; [right; left; reflexivity|reflexivity].
Defined.

(** C8 as stated fails: after the failed [open] the object is not what it
    was before; it holds the media object that was opened and one that was
    not. *)
Lemma open_failure_keeps_media_objects :
  let r := MediaInput.open example_externals
             ["/movies/left.mkv"%string; "missing.mkv"%string] (MediaInput.new false) in
  media_object_open example_externals "missing.mkv" = None
  /\ fst r = Fail open_failed
  /\ _media_objects (snd r) = [example_left; MediaObject.new]
  /\ snd r <> MediaInput.new false.
Proof.
  cbv zeta. split; [reflexivity|]. split; [reflexivity|]. split; [reflexivity|].
  intros H. apply (f_equal _media_objects) in H. discriminate H.
Qed.

(** C9 on the code.  In [example_mixed_second] the active video stream is
    the stream of the second media object, of 30 frames per second;
    [video_frame_rate_numerator] reads [_media_objects[s]] with the local
    stream index [s = 0] and returns the 25 of the first media object.  In
    [example_double_second] the active video stream is the second stream of
    the only media object, and the read [_media_objects[1]] is past the end
    of the vector. *)
Theorem video_frame_rate_reads_wrong_media_object :
  (_active_video_stream example_mixed_second = 1
   /\ MediaInput.get_video_stream example_mixed_second 1 = Ok (1, 0)
   /\ active_video_frame_rate example_mixed_second = Some (30, 1)
   /\ MediaInput.video_frame_rate_numerator example_mixed_second = Ok 25
   /\ MediaInput.video_frame_rate_denominator example_mixed_second = Ok 1
   /\ MediaInput.video_frame_duration example_mixed_second = Ok 40000)
  /\ (_active_video_stream example_double_second = 1
      /\ MediaInput.get_video_stream example_double_second 1 = Ok (0, 1)
      /\ active_video_frame_rate example_double_second = Some (30, 1)
      /\ MediaInput.video_frame_rate_numerator example_double_second
         = Fail undefined_behaviour
      /\ MediaInput.video_frame_rate_denominator example_double_second
         = Fail undefined_behaviour).
Proof. vm_compute. repeat split. Qed.

(** * Further properties of the code *)

(** ** Base names *)

Lemma find_last_of_from_last_of (s : string) (c : ascii) (i found : N) :
  MediaInput.find_last_of_from s c i found
  = match last_of c s with
    | Some k => (i + N.of_nat k)%N
    | None => found
    end.
Proof.
  revert i found. induction s as [|a s IH]; intros i found; [reflexivity|].
  cbn [MediaInput.find_last_of_from last_of]. rewrite IH.
  destruct (last_of c s) as [k|].
  - lia.
  - destruct (Ascii.eqb a c); [lia|reflexivity].
Qed.

Lemma last_of_lt (c : ascii) (s : string) (k : nat) :
  last_of c s = Some k -> (k < String.length s)%nat.
Proof.
  revert k. induction s as [|a s IH]; intros k H; [discriminate|].
  cbn in H. destruct (last_of c s) as [j|].
  - injection H as <-. specialize (IH j eq_refl). cbn. lia.
  - destruct (Ascii.eqb a c); [|discriminate]. injection H as <-. cbn. lia.
Qed.

Lemma last_separator_last_of (s : string) :
  last_separator s
  = match last_of "/" s, last_of "\" s with
    | Some a, Some b => Some (Nat.max a b)
    | Some a, None => Some a
    | None, Some b => Some b
    | None, None => None
    end.
Proof.
  induction s as [|a s IH]; [reflexivity|].
  cbn [last_separator last_of]. rewrite IH. unfold is_separator.
  destruct (last_of "/" s), (last_of "\" s),
    (Ascii.eqb a "/"), (Ascii.eqb a "\"); reflexivity.
Qed.

Lemma last_separator_None (s : string) :
  last_separator s = None -> no_separator s.
Proof.
  unfold no_separator. induction s as [|a s IH]; intros H; [constructor|].
  cbn in H. destruct (last_separator s); [discriminate|].
  destruct (is_separator a) eqn:Ha; [discriminate|].
  cbn. constructor; auto.
Qed.

Lemma last_separator_Some (s : string) (k : nat) :
  last_separator s = Some k ->
  exists p c r,
    s = (p ++ String c r)%string
    /\ String.length p = k
    /\ is_separator c = true
    /\ no_separator r.
Proof.
  revert k. induction s as [|a s IH]; intros k H; [discriminate|].
  cbn in H. destruct (last_separator s) as [j|] eqn:Hs.
  - injection H as <-. destruct (IH j eq_refl) as (p & c & r & -> & Hp & Hc & Hr).
    exists (String a p), c, r. cbn. auto.
  - destruct (is_separator a) eqn:Ha; [|discriminate]. injection H as <-.
    exists EmptyString, a, s. repeat split; auto.
    now apply last_separator_None.
Qed.

Lemma substring_all (s : string) : String.substring 0 (String.length s) s = s.
Proof. induction s as [|a s IH]; [reflexivity|]. cbn. now rewrite IH. Qed.

Lemma substr_from_app (p : string) (c : ascii) (r : string) :
  MediaInput.substr_from (p ++ String c r) (N.of_nat (String.length p) + 1) = r.
Proof.
  unfold MediaInput.substr_from.
  replace (N.to_nat (N.of_nat (String.length p) + 1)) with (S (String.length p)) by lia.
  induction p as [|a p IH].
  - cbn. rewrite Nat.sub_0_r. apply substring_all.
  - cbn [String.append String.length String.substring].
    destruct (String.length (p ++ String c r)) eqn:Hlen; exact IH.
Qed.

Lemma append_no_separator (p r : string) :
  no_separator (p ++ r) -> no_separator r.
Proof.
  unfold no_separator. induction p as [|a p IH]; intros H; [exact H|].
  cbn in H. inversion H; subst. auto.
Qed.

(** The index that [basename] cuts at. *)
Lemma basename_cut (url : string) :
  (N.of_nat (String.length url) <= MediaInput.npos)%N ->
  MediaInput.basename url
  = match last_separator url with
    | Some k => MediaInput.substr_from url (N.of_nat k + 1)
    | None => url
    end.
Proof.
  intros Hlen. unfold MediaInput.basename, MediaInput.find_last_of.
  rewrite !find_last_of_from_last_of, last_separator_last_of.
  destruct (last_of "/" url) as [a|] eqn:Ha; destruct (last_of "\" url) as [b|] eqn:Hb;
    try apply last_of_lt in Ha; try apply last_of_lt in Hb; cbv zeta.
  - destruct (N.eqb_spec (0 + N.of_nat a) MediaInput.npos); [lia|].
    destruct (N.eqb_spec (0 + N.of_nat b) MediaInput.npos); [lia|].
    cbn [negb andb].
    destruct (N.eqb_spec (N.max (0 + N.of_nat a) (0 + N.of_nat b)) MediaInput.npos); [lia|].
    do 2 f_equal. lia.
  - destruct (N.eqb_spec (0 + N.of_nat a) MediaInput.npos); [lia|].
    rewrite N.eqb_refl. cbn [negb andb].
    destruct (N.eqb_spec (N.min (0 + N.of_nat a) MediaInput.npos) MediaInput.npos); [lia|].
    do 2 f_equal. lia.
  - rewrite N.eqb_refl. cbn [negb andb].
    destruct (N.eqb_spec (N.min MediaInput.npos (0 + N.of_nat b)) MediaInput.npos); [lia|].
    do 2 f_equal. lia.
  - rewrite N.eqb_refl. reflexivity.
Qed.

(** X1.  [basename] returns what follows the last slash or backslash of
    the URL: the result has neither, and the URL is the result behind a
    prefix that is empty or ends in a slash or backslash.  (A URL is shorter
    than [npos].) *)
Theorem basename_after_last_separator (url : string) :
  (N.of_nat (String.length url) <= MediaInput.npos)%N ->
  no_separator (MediaInput.basename url)
  /\ exists prefix,
       url = (prefix ++ MediaInput.basename url)%string
       /\ (prefix = EmptyString
           \/ exists p c, prefix = (p ++ String c EmptyString)%string
                          /\ is_separator c = true).
Proof.
  intros Hlen. rewrite (basename_cut url Hlen).
  destruct (last_separator url) as [k|] eqn:Hk.
  - destruct (last_separator_Some url k Hk) as (p & c & r & -> & <- & Hc & Hr).
    rewrite substr_from_app. split; [exact Hr|].
    exists (p ++ String c EmptyString)%string. split.
    + clear. induction p as [|a p IH]; [reflexivity|]. cbn. now rewrite <- IH.
    + right. eauto.
  - split; [now apply last_separator_None|].
    exists EmptyString. auto.
Qed.

Lemma basename_after_last_separator_witness :
  no_separator (MediaInput.basename "c:\movies/left.mkv")
  /\ exists prefix,
       "c:\movies/left.mkv"%string
       = (prefix ++ MediaInput.basename "c:\movies/left.mkv")%string
       /\ (prefix = EmptyString
           \/ exists p c, prefix = (p ++ String c EmptyString)%string
                          /\ is_separator c = true).
Proof.
  apply (basename_after_last_separator "c:\movies/left.mkv").
  vm_compute. discriminate.
Defined.

Lemma no_separator_last_separator (s : string) :
  no_separator s -> last_separator s = None.
Proof.
  unfold no_separator. induction s as [|a s IH]; intros H; [reflexivity|].
  cbn in H. inversion H as [|? ? Ha Hs]; subst.
  cbn. now rewrite (IH Hs), Ha.
Qed.

(** X2.  [basename] is idempotent: the base name of a base name is that
    base name. *)
Theorem basename_idempotent (url : string) :
  (N.of_nat (String.length url) <= MediaInput.npos)%N ->
  MediaInput.basename (MediaInput.basename url) = MediaInput.basename url.
Proof.
  intros Hlen.
  destruct (basename_after_last_separator url Hlen) as (Hno & prefix & Hurl & _).
  assert (Hlen' : (N.of_nat (String.length (MediaInput.basename url))
                   <= MediaInput.npos)%N).
  { rewrite Hurl in Hlen at 1. revert Hlen. clear.
    generalize (MediaInput.basename url) as b. intros b.
    induction prefix as [|a p IH]; cbn [String.append String.length]; intros H; [exact H|].
    apply IH. lia. }
  rewrite (basename_cut _ Hlen').
  now rewrite (no_separator_last_separator _ Hno).
Qed.

Lemma basename_idempotent_witness :
  MediaInput.basename (MediaInput.basename "/movies/left.mkv")
  = MediaInput.basename "/movies/left.mkv".
Proof.
  apply (basename_idempotent "/movies/left.mkv"). vm_compute. discriminate.
Defined.

(** ** The phases of [open] *)

Lemma open_phases (E : externals) (urls : list string) (m st : media_input) :
  MediaInput.open E urls m = (Ok tt, st) ->
  exists objs id skip m2 m3,
    Forall2 (fun u mo => media_object_open E u = Some mo) urls objs
    /\ urls <> []
    /\ MediaInput.construct_id objs = Ok id
    /\ MediaInput.tag_value_loop
         (_tag_names m ++ MediaInput.gathered_tag_names objs)
         (_tag_values m ++ MediaInput.gathered_tag_values objs)
         "StereoscopicSkip" = Ok skip
    /\ MediaInput.detect_stereo_layout_separate (gathered_input E m objs id skip)
       = (Ok tt, m2)
    /\ MediaInput.set_active_video E m2 = (Ok tt, m3)
    /\ MediaInput.set_active_audio m3 = (Ok tt, st)
    /\ MediaInput.print_summary st = Ok tt.
Proof.
  intros H. unfold MediaInput.open in H.
  bind_inv H.
  assert (Hne : urls <> []).
  { intros ->. discriminate Hc. }
  do 2 bind_inv H.
  destruct (MediaInput.open_media_objects E urls _) as [r objs] eqn:Hopen in Hc0.
  injection Hc0 as -> <-.
  do 7 bind_inv H.
  apply bind_Ok in H. destruct H as (u & m3 & Hfind & H).
  apply bind_Ok in H. destruct H as (u' & m4 & Haudio & H).
  apply read_Ok in H. destruct H as [Hsummary ->].
  unfold MediaInput.find_stereo_layout in Hfind.
  apply bind_Ok in Hfind. destruct Hfind as (u2 & m2 & Hdetect & Hvideo).
  destruct a1, u, u', u2.
  apply open_media_objects_Ok in Hopen; [|apply length_resize].
  exists objs, a2, a7, m2, m3.
  repeat (split; [assumption|]). split; [|auto].
  rewrite <- Hdetect. f_equal. unfold gathered_input.
  destruct (str_to_int64 E a7); reflexivity.
Qed.

(** ** Activation flags *)

Lemma map_indexed_from_pairs (A B : Type) (f : Z -> A -> B) (l : list A) (j : Z) :
  map (fun '(k, x) => f k x) (indexed_from j l)
  = map (fun p => f (fst p) (snd p)) (indexed_from j l).
Proof. apply map_ext. now intros [k x]. Qed.

Lemma indexed_from_zrange (A B : Type) (f : Z -> A -> B) (g : Z -> B) (l : list A) :
  (forall k x, f k x = g k) ->
  map (fun '(k, x) => f k x) (indexed_from 0 l) = map g (zrange (List.length l)).
Proof.
  intros Hfg. unfold zrange.
  assert (H : forall (j : nat),
             map (fun '(k, x) => f k x) (indexed_from (Z.of_nat j) l)
             = map g (map Z.of_nat (seq j (List.length l)))).
  { induction l as [|x l IH]; intros j; [reflexivity|].
    cbn. rewrite Hfg. f_equal.
    replace (Z.of_nat j + 1) with (Z.of_nat (S j)) by lia. apply IH. }
  apply (H 0%nat).
Qed.

(** After the double loop of a selection function the flag of a stream is
    what the loop computes for its index pair. *)
Lemma active_video_flags_set_active (f : Z -> Z -> bool) (objs : list media_object) :
  active_video_flags (MediaInput.video_streams_set_active f objs)
  = map (fun p => f (fst p) (snd p)) (stream_pairs mo_video objs).
Proof.
  unfold active_video_flags, flattened, stream_pairs, stream_pairs_from,
    MediaInput.video_streams_set_active.
  generalize 0 at 2 3. induction objs as [|mo objs IH]; intros i; [reflexivity|].
  cbn. rewrite !map_app, IH. f_equal.
  rewrite !map_map.
  rewrite (map_ext _ (fun '(j, _) => f i j)) by (now intros [j vs]).
  apply (indexed_from_zrange _ _ (fun j _ => f i j) (fun j => f i j)).
  reflexivity.
Qed.

Lemma active_audio_flags_set_active (f : Z -> Z -> bool) (objs : list media_object) :
  active_audio_flags (MediaInput.audio_streams_set_active f objs)
  = map (fun p => f (fst p) (snd p)) (stream_pairs mo_audio objs).
Proof.
  unfold active_audio_flags, flattened, stream_pairs, stream_pairs_from,
    MediaInput.audio_streams_set_active.
  generalize 0 at 2 3. induction objs as [|mo objs IH]; intros i; [reflexivity|].
  cbn. rewrite !map_app, IH. f_equal.
  rewrite !map_map.
  rewrite (map_ext _ (fun '(j, _) => f i j)) by (now intros [j vs]).
  apply (indexed_from_zrange _ _ (fun j _ => f i j) (fun j => f i j)).
  reflexivity.
Qed.

(** Selecting the index pair at the global index [k] of a table without
    duplicates selects exactly the place [k]. *)
Lemma only_active_pairs (pairs : list (Z * Z)) (k o s : Z) :
  NoDup pairs ->
  0 <= k ->
  nth_error pairs (Z.to_nat k) = Some (o, s) ->
  map (fun p => (fst p =? o) && (snd p =? s)) pairs
  = only_active k (List.length pairs).
Proof.
  intros Hnd Hk Hnth. apply nth_error_ext. intros n.
  unfold only_active. rewrite !nth_error_map.
  destruct (nth_error pairs n) as [[o' s']|] eqn:Hn.
  - assert (Hlt : (n < List.length pairs)%nat) by (apply nth_error_Some; congruence).
    rewrite nth_error_zrange by exact Hlt. cbn. f_equal.
    destruct (Z.eqb_spec (Z.of_nat n) k) as [Heq|Hne].
    + subst k. rewrite Nat2Z.id in Hnth.
      assert (o' = o /\ s' = s) as [-> ->] by (split; congruence).
      now rewrite !Z.eqb_refl.
    + destruct (Z.eqb_spec o' o) as [->|]; [|reflexivity].
      destruct (Z.eqb_spec s' s) as [->|]; [|reflexivity].
      exfalso. apply Hne.
      assert (n = Z.to_nat k); [|lia].
      apply (proj1 (NoDup_nth_error pairs) Hnd); [exact Hlt|congruence].
  - apply nth_error_None in Hn.
    destruct (nth_error (zrange (List.length pairs)) n) eqn:Hz; [|reflexivity].
    assert (n < List.length (zrange (List.length pairs)))%nat
      by (apply nth_error_Some; congruence).
    rewrite length_zrange in H. lia.
Qed.

Lemma length_stream_pairs_flattened (A : Type) (streams : media_object -> list A)
    (objs : list media_object) :
  List.length (stream_pairs streams objs) = List.length (flattened streams objs).
Proof.
  pose proof (length_stream_pairs_from streams objs 0) as H1.
  pose proof (length_flattened streams objs) as H2.
  unfold stream_pairs. lia.
Qed.

(** ** Selecting an audio stream *)

Lemma mo_video_audio_streams_set_active (f : Z -> Z -> bool) (objs : list media_object) :
  map mo_video (MediaInput.audio_streams_set_active f objs) = map mo_video objs.
Proof.
  unfold MediaInput.audio_streams_set_active.
  generalize 0 at 2. induction objs as [|mo objs IH]; intros i; [reflexivity|].
  cbn. now rewrite IH.
Qed.

(** X3.  [select_audio_stream] with an index below the number of audio
    streams makes that index the active one and marks exactly the audio
    stream at that flattened index active, in whichever media object it is.
    It changes no video stream and no other member; in particular
    [_audio_blob], which [audio_blob_template] returns, stays the template it
    was. *)
Theorem select_audio_stream_selects (m : media_input) (audio_stream : Z) :
  MediaInput.audio_streams m = stream_total mo_audio (_media_objects m) ->
  0 <= audio_stream < MediaInput.audio_streams m ->
  exists m',
    MediaInput.select_audio_stream audio_stream m = (Ok tt, m')
    /\ _active_audio_stream m' = audio_stream
    /\ active_audio_flags (_media_objects m')
       = only_active audio_stream (Z.to_nat (MediaInput.audio_streams m))
    /\ map mo_video (_media_objects m') = map mo_video (_media_objects m)
    /\ MediaInput.audio_blob_template m' = Ok (_audio_blob m)
    /\ m' = MediaInput.set_media_objects
              (MediaInput.set_active_audio_stream m audio_stream)
              (_media_objects m').
Proof.
  intros Htotal Hk.
  set (m1 := MediaInput.set_active_audio_stream m audio_stream).
  destruct (get_audio_stream_flattened m1 audio_stream Htotal Hk)
    as (o & s & mo & a & Hget & Hnth & _).
  eexists. split.
  - unfold MediaInput.select_audio_stream.
    unfold MediaInput.bind at 1, MediaInput.assert, MediaInput.read at 1.
    destruct (Z.leb_spec 0 audio_stream); [|lia]. cbn [guard].
    unfold MediaInput.bind at 1, MediaInput.read at 1.
    destruct (Z.ltb_spec audio_stream (MediaInput.audio_streams m)); [|lia]. cbn [guard].
    unfold MediaInput.bind at 1, MediaInput.modify at 1. fold m1.
    unfold MediaInput.bind at 1, MediaInput.read at 1.
    change (_active_audio_stream m1) with audio_stream. rewrite Hget.
    unfold MediaInput.modify. reflexivity.
  - cbn [_active_audio_stream _media_objects _audio_blob
         MediaInput.set_media_objects MediaInput.set_active_audio_stream m1].
    split; [reflexivity|]. split; [|split; [|split]].
    + rewrite active_audio_flags_set_active.
      rewrite (only_active_pairs _ audio_stream o s); [| |lia|exact Hnth].
      * f_equal. rewrite length_stream_pairs_flattened.
        pose proof (length_flattened mo_audio (_media_objects m)). lia.
      * apply NoDup_stream_pairs_from.
    + apply mo_video_audio_streams_set_active.
    + unfold MediaInput.audio_blob_template. cbn.
      destruct (Z.leb_spec 0 audio_stream); [reflexivity|lia].
    + reflexivity.
Qed.

Lemma select_audio_stream_selects_witness :
  exists m',
    MediaInput.select_audio_stream 0 example_pair = (Ok tt, m')
    /\ _active_audio_stream m' = 0
    /\ active_audio_flags (_media_objects m')
       = only_active 0 (Z.to_nat (MediaInput.audio_streams example_pair))
    /\ map mo_video (_media_objects m') = map mo_video (_media_objects example_pair)
    /\ MediaInput.audio_blob_template m' = Ok (_audio_blob example_pair)
    /\ m' = MediaInput.set_media_objects
              (MediaInput.set_active_audio_stream example_pair 0)
              (_media_objects m').
Proof.
  apply (select_audio_stream_selects example_pair 0).
  - vm_compute. reflexivity.
  - vm_compute. split; [discriminate|reflexivity].
Defined.

(** ** Setting the stereo layout *)

Lemma streams_kept_refl (m : media_input) : streams_kept m m.
Proof. now constructor. Qed.

Lemma streams_kept_trans (a b c : media_input) :
  streams_kept a b -> streams_kept b c -> streams_kept a c.
Proof. intros [] []. constructor; congruence. Qed.

Lemma flattened_map (A : Type) (streams : media_object -> list A)
    (a b : list media_object) :
  map streams a = map streams b -> flattened streams a = flattened streams b.
Proof.
  unfold flattened. rewrite !flat_map_concat_map. now intros ->.
Qed.

Lemma seek_streams_kept (pos : Z) : preserves streams_kept (MediaInput.seek pos).
Proof.
  apply preserves_seek. intros m.
  constructor; cbn; try reflexivity; now apply map_seek_media_objects.
Qed.

Lemma set_stereo_layout_streams_kept (E : externals) (l : stereo_layout_t) (swap : bool) :
  preserves streams_kept (MediaInput.set_stereo_layout E l swap).
Proof.
  unfold MediaInput.set_stereo_layout.
  repeat (preserve_step streams_kept_refl streams_kept_trans
          || apply seek_streams_kept
          || (apply preserves_modify; intros ?; constructor; cbn;
              rewrite ?map_map; reflexivity)).
Qed.

(** X4.  [set_stereo_layout] never touches a stream or a selection,
    whatever its outcome: the activation flags of all video and audio
    streams and the active indices are what they were, also when the layout
    becomes separate. *)
Theorem set_stereo_layout_keeps_selection
    (E : externals) (l : stereo_layout_t) (swap : bool)
    (m m' : media_input) (r : res unit) :
  MediaInput.set_stereo_layout E l swap m = (r, m') ->
  active_video_flags (_media_objects m') = active_video_flags (_media_objects m)
  /\ active_audio_flags (_media_objects m') = active_audio_flags (_media_objects m)
  /\ _active_video_stream m' = _active_video_stream m
  /\ _active_audio_stream m' = _active_audio_stream m.
Proof.
  intros H. apply set_stereo_layout_streams_kept in H.
  destruct H as [Hv Ha Hav Haa _].
  unfold active_video_flags, active_audio_flags.
  rewrite (flattened_map _ mo_video _ _ Hv), (flattened_map _ mo_audio _ _ Ha).
  auto.
Qed.

Lemma set_stereo_layout_keeps_selection_witness :
  active_video_flags (_media_objects example_pair_again) = [false; true]
  /\ active_audio_flags (_media_objects example_pair_again)
     = active_audio_flags (_media_objects example_pair_second)
  /\ _active_video_stream example_pair_again = 1
  /\ _active_audio_stream example_pair_again = 0.
Proof.
  apply (set_stereo_layout_keeps_selection example_externals separate false
           example_pair_second example_pair_again (Ok tt)).
  vm_compute. reflexivity.
Defined.

(** What a supported layout tells about the active video stream. *)
Lemma stereo_layout_is_supported_true (m : media_input) (l : stereo_layout_t)
    (swap : bool) :
  MediaInput.stereo_layout_is_supported m l swap = Ok true ->
  exists o s mo t,
    MediaInput.get_video_stream m (_active_video_stream m) = Ok (o, s)
    /\ at_index (_media_objects m) o = Ok mo
    /\ MediaObject.video_frame_template mo s = Ok t.
Proof.
  unfold MediaInput.stereo_layout_is_supported. intros H.
  destruct (MediaInput.video_streams m <? 1); [discriminate|].
  destruct (guard (0 <=? _active_video_stream m)); [|discriminate].
  destruct (guard (_active_video_stream m <? MediaInput.video_streams m));
    [|discriminate].
  cbn [res_bind] in H.
  destruct (MediaInput.get_video_stream m (_active_video_stream m)) as [[o s]|]
    eqn:Hget; [|discriminate].
  cbn [res_bind] in H.
  destruct (at_index (_media_objects m) o) as [mo|] eqn:Hmo; [|discriminate].
  cbn [res_bind] in H.
  destruct (MediaObject.video_frame_template mo s) as [t|] eqn:Ht; [|discriminate].
  exists o, s, mo, t. auto.
Qed.

(** The two ways a run of the seek loop ends. *)
Lemma seek_media_objects_all (pos : Z) (objs : list media_object) :
  forallb (fun mo => mo_seekable mo pos) objs = true ->
  MediaInput.seek_media_objects pos objs
  = (Ok tt, map (fun mo => MediaObject.set_mo_pos mo pos) objs).
Proof.
  induction objs as [|mo objs IH]; intros H; [reflexivity|].
  cbn in H. apply andb_true_iff in H. destruct H as [Hmo Hobjs].
  cbn [MediaInput.seek_media_objects map]. unfold MediaObject.seek.
  now rewrite Hmo, (IH Hobjs).
Qed.

Lemma seek_media_objects_first_failure (pos : Z)
    (before : list media_object) (mo : media_object) (after : list media_object) :
  forallb (fun mo => mo_seekable mo pos) before = true ->
  mo_seekable mo pos = false ->
  MediaInput.seek_media_objects pos (before ++ mo :: after)
  = (Fail seek_failed,
     map (fun mo => MediaObject.set_mo_pos mo pos) before ++ mo :: after).
Proof.
  intros Hbefore Hmo. induction before as [|x before IH].
  - cbn. unfold MediaObject.seek. now rewrite Hmo.
  - cbn in Hbefore. apply andb_true_iff in Hbefore. destruct Hbefore as [Hx Hbefore].
    cbn [app MediaInput.seek_media_objects map]. unfold MediaObject.seek at 1.
    now rewrite Hx, (IH Hbefore).
Qed.

(** A run of [set_stereo_layout] on a supported layout. *)
Lemma set_stereo_layout_run (E : externals) (m : media_input)
    (l : stereo_layout_t) (swap : bool) (o s : Z) (mo : media_object)
    (t : video_frame) :
  MediaInput.stereo_layout_is_supported m l swap = Ok true ->
  MediaInput.get_video_stream m (_active_video_stream m) = Ok (o, s) ->
  at_index (_media_objects m) o = Ok mo ->
  MediaObject.video_frame_template mo s = Ok t ->
  MediaInput.set_stereo_layout E l swap m
  = (if stereo_layout_eqb l separate && (INT64_MIN <? MediaObject.tell mo)
     then MediaInput.seek (MediaObject.tell mo)
            (MediaInput.set_video_frame m (layout_format E t l swap))
     else (Ok tt, MediaInput.set_video_frame m (layout_format E t l swap))).
Proof.
  intros Hsup Hget Hmo Ht.
  unfold MediaInput.set_stereo_layout.
  unfold MediaInput.bind at 1, MediaInput.read at 1. rewrite Hsup.
  unfold MediaInput.bind at 1, MediaInput.assert, MediaInput.read at 1. cbn [guard].
  unfold MediaInput.bind at 1, MediaInput.read at 1. rewrite Hget.
  unfold MediaInput.bind at 1, MediaInput.read at 1. rewrite Hmo.
  unfold MediaInput.bind at 1, MediaInput.read at 1. rewrite Ht.
  unfold MediaInput.bind at 1, MediaInput.modify at 1.
  fold (layout_format E t l swap).
  destruct (stereo_layout_eqb l separate); cbn [andb]; [|reflexivity].
  destruct (INT64_MIN <? MediaObject.tell mo); reflexivity.
Qed.

(** X5.  [set_stereo_layout] on a supported layout replaces the current
    video format by the template of the active video stream with the given
    layout and swap flag, after [set_view_dimensions].  When the layout is
    separate and the media object of the active stream knows its position,
    the media objects are then sought to that position, in their order: when
    every one of them can seek there, all of them have moved; when one of
    them cannot, the call fails with the format replaced all the same, the
    media objects before that one moved and that one and the ones behind it
    where they were.  Otherwise no media object changes.  On an unsupported
    layout the assertion fails and the input is untouched. *)
Theorem set_stereo_layout_sets_format
    (E : externals) (m : media_input) (l : stereo_layout_t) (swap : bool) :
  (MediaInput.stereo_layout_is_supported m l swap = Ok true ->
   exists o s mo t,
     MediaInput.get_video_stream m (_active_video_stream m) = Ok (o, s)
     /\ at_index (_media_objects m) o = Ok mo
     /\ MediaObject.video_frame_template mo s = Ok t
     /\ let m1 := MediaInput.set_video_frame m (layout_format E t l swap) in
        let pos := MediaObject.tell mo in
        if stereo_layout_eqb l separate && (INT64_MIN <? pos)
        then
          (forallb (fun x => mo_seekable x pos) (_media_objects m) = true ->
           MediaInput.set_stereo_layout E l swap m
           = (Ok tt,
              MediaInput.set_media_objects m1
                (map (fun x => MediaObject.set_mo_pos x pos) (_media_objects m))))
          /\ (forall before x after,
                _media_objects m = before ++ x :: after ->
                forallb (fun x => mo_seekable x pos) before = true ->
                mo_seekable x pos = false ->
                MediaInput.set_stereo_layout E l swap m
                = (Fail seek_failed,
                   MediaInput.set_media_objects m1
                     (map (fun x => MediaObject.set_mo_pos x pos) before
                      ++ x :: after)))
        else MediaInput.set_stereo_layout E l swap m = (Ok tt, m1))
  /\ (MediaInput.stereo_layout_is_supported m l swap = Ok false ->
      MediaInput.set_stereo_layout E l swap m = (Fail assertion_failed, m)).
Proof.
  split.
  - intros Hsup.
    destruct (stereo_layout_is_supported_true m l swap Hsup)
      as (o & s & mo & t & Hget & Hmo & Ht).
    exists o, s, mo, t. repeat (split; [assumption|]).
    cbv zeta. rewrite (set_stereo_layout_run E m l swap o s mo t Hsup Hget Hmo Ht).
    destruct (stereo_layout_eqb l separate && (INT64_MIN <? MediaObject.tell mo));
      [|reflexivity].
    unfold MediaInput.seek.
    cbn [_media_objects MediaInput.set_video_frame]. split.
    + intros Hall. now rewrite (seek_media_objects_all _ _ Hall).
    + intros before x after Hobjs Hbefore Hx.
      now rewrite Hobjs, (seek_media_objects_first_failure _ _ _ _ Hbefore Hx).
  - intros Hsup. unfold MediaInput.set_stereo_layout.
    unfold MediaInput.bind at 1, MediaInput.read at 1. rewrite Hsup.
    reflexivity.
Qed.

Lemma set_stereo_layout_sets_format_witness :
  exists o s mo t,
    MediaInput.get_video_stream example_pair_moved
      (_active_video_stream example_pair_moved) = Ok (o, s)
    /\ at_index (_media_objects example_pair_moved) o = Ok mo
    /\ MediaObject.video_frame_template mo s = Ok t
    /\ let m1 := MediaInput.set_video_frame example_pair_moved
                   (layout_format example_externals t separate false) in
       let pos := MediaObject.tell mo in
       if stereo_layout_eqb separate separate && (INT64_MIN <? pos)
       then
         (forallb (fun x => mo_seekable x pos) (_media_objects example_pair_moved)
          = true ->
          MediaInput.set_stereo_layout example_externals separate false
            example_pair_moved
          = (Ok tt,
             MediaInput.set_media_objects m1
               (map (fun x => MediaObject.set_mo_pos x pos)
                  (_media_objects example_pair_moved))))
         /\ (forall before x after,
               _media_objects example_pair_moved = before ++ x :: after ->
               forallb (fun x => mo_seekable x pos) before = true ->
               mo_seekable x pos = false ->
               MediaInput.set_stereo_layout example_externals separate false
                 example_pair_moved
               = (Fail seek_failed,
                  MediaInput.set_media_objects m1
                    (map (fun x => MediaObject.set_mo_pos x pos) before
                     ++ x :: after)))
       else MediaInput.set_stereo_layout example_externals separate false
              example_pair_moved = (Ok tt, m1).
Proof.
  apply (proj1 (set_stereo_layout_sets_format example_externals example_pair_moved
                  separate false)).
  vm_compute. reflexivity.
Defined.

(** On [example_pair_moved] the first media object is at 40000, where the
    second one cannot seek: the switch to the separate layout fails with
    the layout already separate and the second media object where it was. *)
Example example_pair_moved_switch_fails :
  fst (MediaInput.set_stereo_layout example_externals separate false
         example_pair_moved) = Fail seek_failed
  /\ stereo_layout
       (_video_frame
          (snd (MediaInput.set_stereo_layout example_externals separate false
                  example_pair_moved))) = separate
  /\ map mo_pos
       (_media_objects
          (snd (MediaInput.set_stereo_layout example_externals separate false
                  example_pair_moved))) = [40000; 0].
Proof. vm_compute. repeat split. Qed.

(** ** Selecting a video stream outside the separate layout *)

Lemma mo_audio_video_streams_set_active (f : Z -> Z -> bool) (objs : list media_object) :
  map mo_audio (MediaInput.video_streams_set_active f objs) = map mo_audio objs.
Proof.
  unfold MediaInput.video_streams_set_active.
  generalize 0 at 2. induction objs as [|mo objs IH]; intros i; [reflexivity|].
  cbn. now rewrite IH.
Qed.

Lemma mo_pos_video_streams_set_active (f : Z -> Z -> bool) (objs : list media_object) :
  map mo_pos (MediaInput.video_streams_set_active f objs) = map mo_pos objs.
Proof.
  unfold MediaInput.video_streams_set_active.
  generalize 0 at 2. induction objs as [|mo objs IH]; intros i; [reflexivity|].
  cbn. now rewrite IH.
Qed.

(** A run of [select_video_stream] while the layout is not separate. *)
Lemma select_video_stream_run (E : externals) (m : media_input) (k : Z) :
  stereo_layout_eqb (stereo_layout (_video_frame m)) separate = false ->
  MediaInput.video_streams m = stream_total mo_video (_media_objects m) ->
  0 <= k < MediaInput.video_streams m ->
  MediaInput.stereo_layout_is_supported (MediaInput.set_active_video_stream m k)
    (stereo_layout (_video_frame m)) (stereo_layout_swap (_video_frame m)) = Ok true ->
  exists o s vs,
    nth_error (stream_pairs mo_video (_media_objects m)) (Z.to_nat k) = Some (o, s)
    /\ nth_error (flattened mo_video (_media_objects m)) (Z.to_nat k) = Some vs
    /\ MediaInput.select_video_stream E k m
       = (Ok tt,
          MediaInput.set_media_objects
            (MediaInput.set_video_frame (MediaInput.set_active_video_stream m k)
               (layout_format E (vs_template vs)
                  (stereo_layout (_video_frame m))
                  (stereo_layout_swap (_video_frame m))))
            (MediaInput.video_streams_set_active
               (fun i j => (i =? o) && (j =? s)) (_media_objects m))).
Proof.
  intros Hsep Htotal Hk Hsup.
  set (m1 := MediaInput.set_active_video_stream m k) in *.
  destruct (get_video_stream_flattened m1 k Htotal Hk)
    as (o & s & mo & vs & Hget & Hnth & Hmo & Hvs & Hflat).
  exists o, s, vs. split; [exact Hnth|]. split; [exact Hflat|].
  assert (Ht : MediaObject.video_frame_template mo s = Ok (vs_template vs)).
  { unfold MediaObject.video_frame_template. now rewrite Hvs. }
  unfold MediaInput.select_video_stream.
  unfold MediaInput.bind at 1, MediaInput.assert, MediaInput.read at 1.
  destruct (Z.leb_spec 0 k); [|lia]. cbn [guard].
  unfold MediaInput.bind at 1, MediaInput.read at 1.
  destruct (Z.ltb_spec k (MediaInput.video_streams m)); [|lia]. cbn [guard].
  unfold MediaInput.bind at 1, MediaInput.read at 1. rewrite Hsep.
  unfold MediaInput.bind at 1, MediaInput.read at 1.
  unfold MediaInput.bind at 1, MediaInput.read at 1.
  unfold MediaInput.bind at 1, MediaInput.modify at 1. fold m1.
  unfold MediaInput.bind at 1.
  rewrite (set_stereo_layout_run E m1 _ _ o s mo (vs_template vs) Hsup Hget Hmo Ht).
  rewrite Hsep. cbn [andb].
  unfold MediaInput.bind at 1, MediaInput.read at 1.
  change (MediaInput.get_video_stream
            (MediaInput.set_video_frame m1
               (layout_format E (vs_template vs) (stereo_layout (_video_frame m))
                  (stereo_layout_swap (_video_frame m))))
            (_active_video_stream
               (MediaInput.set_video_frame m1
                  (layout_format E (vs_template vs) (stereo_layout (_video_frame m))
                     (stereo_layout_swap (_video_frame m))))))
    with (MediaInput.get_video_stream m1 k).
  rewrite Hget. reflexivity.
Qed.

(** X6.  While the layout is not separate, [select_video_stream] with an
    index below the number of video streams, for whose stream the current
    layout is supported, makes that index the active one, marks exactly the
    video stream at that flattened index active, and derives the current
    format from that stream's template with the layout and swap flag kept.
    No audio stream changes and no media object is sought. *)
Theorem select_video_stream_selects (E : externals) (m : media_input) (k : Z) :
  stereo_layout_eqb (stereo_layout (_video_frame m)) separate = false ->
  MediaInput.video_streams m = stream_total mo_video (_media_objects m) ->
  0 <= k < MediaInput.video_streams m ->
  MediaInput.stereo_layout_is_supported (MediaInput.set_active_video_stream m k)
    (stereo_layout (_video_frame m)) (stereo_layout_swap (_video_frame m)) = Ok true ->
  exists m' t,
    MediaInput.select_video_stream E k m = (Ok tt, m')
    /\ _active_video_stream m' = k
    /\ nth_error (all_video_templates (_media_objects m)) (Z.to_nat k) = Some t
    /\ _video_frame m'
       = layout_format E t (stereo_layout (_video_frame m))
           (stereo_layout_swap (_video_frame m))
    /\ active_video_flags (_media_objects m')
       = only_active k (Z.to_nat (MediaInput.video_streams m))
    /\ map mo_audio (_media_objects m') = map mo_audio (_media_objects m)
    /\ map mo_pos (_media_objects m') = map mo_pos (_media_objects m)
    /\ tables_stable m m'.
Proof.
  intros Hsep Htotal Hk Hsup.
  destruct (select_video_stream_run E m k Hsep Htotal Hk Hsup)
    as (o & s & vs & Hnth & Hflat & Hrun).
  eexists. exists (vs_template vs). split; [exact Hrun|].
  cbn [_active_video_stream _media_objects _video_frame
       MediaInput.set_media_objects MediaInput.set_video_frame
       MediaInput.set_active_video_stream].
  split; [reflexivity|]. split.
  { unfold all_video_templates. now rewrite nth_error_map, Hflat. }
  split; [reflexivity|]. split.
  { rewrite active_video_flags_set_active.
    rewrite (only_active_pairs _ k o s); [| |lia|exact Hnth].
    - f_equal. rewrite length_stream_pairs_flattened.
      pose proof (length_flattened mo_video (_media_objects m)). lia.
    - apply NoDup_stream_pairs_from. }
  split; [apply mo_audio_video_streams_set_active|].
  split; [apply mo_pos_video_streams_set_active|].
  constructor; cbn; auto using statics_video_streams_set_active.
Qed.

Lemma select_video_stream_selects_witness :
  exists m' t,
    MediaInput.select_video_stream example_externals 1 example_mixed = (Ok tt, m')
    /\ _active_video_stream m' = 1
    /\ nth_error (all_video_templates (_media_objects example_mixed)) (Z.to_nat 1)
       = Some t
    /\ _video_frame m'
       = layout_format example_externals t
           (stereo_layout (_video_frame example_mixed))
           (stereo_layout_swap (_video_frame example_mixed))
    /\ active_video_flags (_media_objects m')
       = only_active 1 (Z.to_nat (MediaInput.video_streams example_mixed))
    /\ map mo_audio (_media_objects m') = map mo_audio (_media_objects example_mixed)
    /\ map mo_pos (_media_objects m') = map mo_pos (_media_objects example_mixed)
    /\ tables_stable example_mixed m'.
Proof.
  apply (select_video_stream_selects example_externals example_mixed 1).
  - reflexivity.
  - reflexivity.
  - vm_compute. split; [discriminate|reflexivity].
  - reflexivity.
Defined.

(** ** Reading frames *)

Lemma update_nth_app1 (A : Type) (f : A -> A) (l1 l2 : list A) (n : nat) :
  (n < List.length l1)%nat ->
  MediaObject.update_nth n f (l1 ++ l2) = MediaObject.update_nth n f l1 ++ l2.
Proof.
  revert n. induction l1 as [|x l1 IH]; intros [|n] H; cbn in *; try lia;
    [reflexivity|]. rewrite IH by lia. reflexivity.
Qed.

Lemma update_nth_app2 (A : Type) (f : A -> A) (l1 l2 : list A) (n : nat) :
  (List.length l1 <= n)%nat ->
  MediaObject.update_nth n f (l1 ++ l2)
  = l1 ++ MediaObject.update_nth (n - List.length l1) f l2.
Proof.
  revert n. induction l1 as [|x l1 IH]; intros n H.
  - cbn. now rewrite Nat.sub_0_r.
  - destruct n as [|n]; cbn in *; [lia|]. rewrite IH by lia. reflexivity.
Qed.

Lemma length_update_nth (A : Type) (f : A -> A) (l : list A) (n : nat) :
  List.length (MediaObject.update_nth n f l) = List.length l.
Proof.
  revert n. induction l as [|x l IH]; intros [|n]; cbn; auto.
Qed.

Lemma update_nth_const (A : Type) (g : A -> A) (l : list A) (n : nat) (x : A) :
  nth_error l n = Some x ->
  MediaObject.update_nth n (fun _ => g x) l = MediaObject.update_nth n g l.
Proof.
  revert n. induction l as [|y l IH]; intros [|n] H; try discriminate.
  - cbn in *. now injection H as ->.
  - cbn in *. now rewrite (IH n H).
Qed.

Lemma flattened_update_video_stream (f : video_stream -> video_stream)
    (objs : list media_object) (i : Z) (g : nat) (o s : Z) :
  nth_error (stream_pairs_from mo_video i objs) g = Some (o, s) ->
  flattened mo_video
    (MediaObject.update_nth (Z.to_nat (o - i)) (update_video_stream f s) objs)
  = MediaObject.update_nth g f (flattened mo_video objs).
Proof.
  revert i g. induction objs as [|mo objs IH]; intros i g H.
  - now destruct g.
  - unfold stream_pairs_from in H. cbn in H.
    fold (stream_pairs_from mo_video (i + 1) objs) in H.
    unfold flattened. cbn [flat_map]. fold (flattened mo_video objs).
    destruct (Nat.lt_ge_cases g (List.length (mo_video mo))) as [Hlt|Hge].
    + rewrite nth_error_app1 in H by (rewrite length_map, length_zrange; lia).
      rewrite nth_error_map, nth_error_zrange in H by lia.
      cbn in H. injection H as <- <-.
      rewrite Z.sub_diag. cbn. rewrite Nat2Z.id.
      fold (flattened mo_video objs). now rewrite update_nth_app1.
    + rewrite nth_error_app2 in H by (rewrite length_map, length_zrange; lia).
      rewrite length_map, length_zrange in H.
      pose proof (stream_pairs_from_flattened _ _ _ _ _ _ H) as (Ho & _).
      replace (Z.to_nat (o - i)) with (S (Z.to_nat (o - (i + 1)))) by lia.
      cbn. fold (flattened mo_video (MediaObject.update_nth (Z.to_nat (o - (i + 1)))
                                       (update_video_stream f s) objs)).
      rewrite (IH _ _ H), update_nth_app2 by lia. reflexivity.
Qed.

Lemma stream_pairs_update_video_stream (f : video_stream -> video_stream)
    (objs : list media_object) (i : Z) (n : nat) (s : Z) :
  stream_pairs_from mo_video i
    (MediaObject.update_nth n (update_video_stream f s) objs)
  = stream_pairs_from mo_video i objs.
Proof.
  revert i n. induction objs as [|mo objs IH]; intros i [|n]; try reflexivity.
  - unfold stream_pairs_from. cbn. now rewrite length_update_nth.
  - unfold stream_pairs_from in *. cbn. now rewrite IH.
Qed.

Lemma stream_total_update_video_stream (f : video_stream -> video_stream)
    (objs : list media_object) (n : nat) (s : Z) :
  stream_total mo_video (MediaObject.update_nth n (update_video_stream f s) objs)
  = stream_total mo_video objs.
Proof.
  rewrite <- !(length_stream_pairs_from mo_video _ 0).
  now rewrite stream_pairs_update_video_stream.
Qed.

(** Finishing the read of the stream at the place [g] of the table of index
    pairs: the frame is the next frame of the stream at the place [g] of the
    flattened table, and that stream is the only thing that moves. *)
Lemma finish_object_read_flattened (m : media_input) (g : nat) (o s : Z) :
  nth_error (stream_pairs mo_video (_media_objects m)) g = Some (o, s) ->
  exists vs,
    nth_error (flattened mo_video (_media_objects m)) g = Some vs
    /\ MediaInput.finish_object_read o s m
       = (Ok (MediaObject.next_frame vs),
          MediaInput.set_media_objects m
            (MediaObject.update_nth (Z.to_nat o)
               (update_video_stream MediaObject.advance s) (_media_objects m))).
Proof.
  intros Hnth.
  destruct (stream_pairs_from_flattened _ _ _ _ _ _ Hnth)
    as (Ho & Hs & mo & vs & Hmo & Hvs & Hflat).
  rewrite Z.sub_0_r in Hmo.
  exists vs. split; [exact Hflat|].
  unfold MediaInput.finish_object_read, MediaObject.finish_video_frame_read.
  rewrite (proj2 (at_index_Ok _ _ _ _) (conj Ho Hmo)). cbn [res_bind].
  rewrite (proj2 (at_index_Ok _ _ _ _) (conj Hs Hvs)). cbn [res_bind].
  do 2 f_equal.
  apply (update_nth_const _ (update_video_stream MediaObject.advance s) _ _ mo Hmo).
Qed.

Lemma copy_planes_single_frame (format f : video_frame) :
  with_presentation_time
    (fold_left (MediaInput.copy_planes_single f) (seq 0 3) format)
    (presentation_time f)
  = single_frame format f.
Proof.
  destruct format as [rw rh rar w h ar l cs vr cl sl sw [[[a0 a1] a2] [[a3 a4] a5]]
                        [[[b0 b1] b2] [[b3 b4] b5]] pt v].
  destruct f as [? ? ? ? ? ? ? ? ? ? ? ? [[[c0 c1] c2] [[c3 c4] c5]]
                   [[[d0 d1] d2] [[d3 d4] d5]] ? ?].
  reflexivity.
Qed.

(** X7.  Outside the separate layout [finish_video_frame_read] reads the
    next frame of the active video stream.  It returns the invalid default
    frame when that frame is invalid, and otherwise the current format with
    the planes and line sizes of the frame in slot 0 and its presentation
    time.  Either way the active stream, and no other, has moved on by one
    frame. *)
Theorem finish_video_frame_read_single (m : media_input) :
  stereo_layout_eqb (stereo_layout (_video_frame m)) separate = false ->
  MediaInput.video_streams m = stream_total mo_video (_media_objects m) ->
  0 <= _active_video_stream m < MediaInput.video_streams m ->
  exists f m',
    next_frame_at m (Z.to_nat (_active_video_stream m)) = Some f
    /\ MediaInput.finish_video_frame_read m
       = (Ok (if is_valid f then single_frame (_video_frame m) f
              else video_frame_default), m')
    /\ flattened mo_video (_media_objects m')
       = MediaObject.update_nth (Z.to_nat (_active_video_stream m))
           MediaObject.advance (flattened mo_video (_media_objects m))
    /\ m' = MediaInput.set_media_objects m (_media_objects m').
Proof.
  intros Hsep Htotal Hactive.
  destruct (get_video_stream_flattened m _ Htotal Hactive)
    as (o & s & _ & _ & Hget & Hnth & _).
  destruct (finish_object_read_flattened m _ o s Hnth) as (vs & Hflat & Hread).
  exists (MediaObject.next_frame vs). eexists. split; [|split; [|split]].
  - unfold next_frame_at. now rewrite Hflat.
  - unfold MediaInput.finish_video_frame_read.
    unfold MediaInput.bind at 1, MediaInput.assert, MediaInput.read at 1.
    destruct (Z.leb_spec 0 (_active_video_stream m)); [|lia]. cbn [guard].
    unfold MediaInput.bind at 1, MediaInput.read at 1. rewrite Hsep.
    unfold MediaInput.bind at 1, MediaInput.read at 1. rewrite Hget.
    unfold MediaInput.bind at 1. rewrite Hread.
    destruct (is_valid (MediaObject.next_frame vs)); cbn [negb].
    + unfold MediaInput.bind, MediaInput.read, MediaInput.ret.
      cbn [_video_frame MediaInput.set_media_objects].
      rewrite copy_planes_single_frame. reflexivity.
    + reflexivity.
  - cbn [_media_objects MediaInput.set_media_objects].
    unfold stream_pairs in Hnth.
    pose proof (flattened_update_video_stream MediaObject.advance _ 0 _ o s Hnth) as H.
    rewrite Z.sub_0_r in H. exact H.
  - reflexivity.
Qed.

Lemma finish_video_frame_read_single_witness :
  exists f m',
    next_frame_at example_pair_mono (Z.to_nat (_active_video_stream example_pair_mono))
    = Some f
    /\ MediaInput.finish_video_frame_read example_pair_mono
       = (Ok (if is_valid f then single_frame (_video_frame example_pair_mono) f
              else video_frame_default), m')
    /\ flattened mo_video (_media_objects m')
       = MediaObject.update_nth (Z.to_nat (_active_video_stream example_pair_mono))
           MediaObject.advance (flattened mo_video (_media_objects example_pair_mono))
    /\ m' = MediaInput.set_media_objects example_pair_mono (_media_objects m').
Proof.
  apply (finish_video_frame_read_single example_pair_mono).
  - reflexivity.
  - reflexivity.
  - vm_compute. split; [discriminate|reflexivity].
Defined.





(** ** The default selection of [open] *)

Lemma only_flag_differs_refl (m : media_input) : only_flag_differs m m.
Proof. unfold only_flag_differs. now destruct m. Qed.

Lemma only_flag_differs_trans (a b c : media_input) :
  only_flag_differs a b -> only_flag_differs b c -> only_flag_differs a c.
Proof. unfold only_flag_differs. intros -> ->. reflexivity. Qed.

Lemma detect_stereo_layout_separate_only_flag :
  preserves only_flag_differs MediaInput.detect_stereo_layout_separate.
Proof.
  unfold MediaInput.detect_stereo_layout_separate.
  repeat (preserve_step only_flag_differs_refl only_flag_differs_trans
          || (apply preserves_modify; intros ?; reflexivity)).
Qed.

Lemma video_kept_refl (m : media_input) : video_kept m m.
Proof. now constructor. Qed.

Lemma video_kept_trans (a b c : media_input) :
  video_kept a b -> video_kept b c -> video_kept a c.
Proof. intros [] []. constructor; congruence. Qed.

Lemma select_audio_stream_video_kept (k : Z) :
  preserves video_kept (MediaInput.select_audio_stream k).
Proof.
  unfold MediaInput.select_audio_stream.
  repeat (preserve_step video_kept_refl video_kept_trans
          || (apply preserves_modify; intros ?; constructor; cbn;
              auto using mo_video_audio_streams_set_active)).
Qed.

Lemma set_active_audio_video_kept : preserves video_kept MediaInput.set_active_audio.
Proof.
  unfold MediaInput.set_active_audio.
  repeat (preserve_step video_kept_refl video_kept_trans
          || apply select_audio_stream_video_kept
          || (apply preserves_modify; intros ?; constructor; cbn; reflexivity)).
Qed.

Lemma all_audio_templates_statics (a b : list media_object) :
  statics a = statics b -> all_audio_templates a = all_audio_templates b.
Proof.
  revert b. induction a as [|x a IH]; intros [|y b] H; try discriminate; [reflexivity|].
  apply statics_cons_inv in H. destruct H as (_ & Ha & Hab).
  unfold all_audio_templates, flattened in *. cbn. rewrite !map_app, (IH b Hab).
  f_equal.
  apply (f_equal (map as_template)) in Ha. rewrite !map_map in Ha. exact Ha.
Qed.

Lemma blob_template_at_flattened (m : media_input) (g : Z) :
  MediaInput.audio_streams m = stream_total mo_audio (_media_objects m) ->
  0 <= g < MediaInput.audio_streams m ->
  exists t,
    nth_error (all_audio_templates (_media_objects m)) (Z.to_nat g) = Some t
    /\ MediaInput.blob_template_at m g = Ok t.
Proof.
  intros Htotal Hg.
  destruct (get_audio_stream_flattened m g Htotal Hg)
    as (o & s & mo & a & Hget & _ & Hmo & Ha & Hflat).
  exists (as_template a). split.
  - unfold all_audio_templates. now rewrite nth_error_map, Hflat.
  - unfold MediaInput.blob_template_at, MediaObject.audio_blob_template.
    rewrite Hget. cbn. rewrite Hmo. cbn. now rewrite Ha.
Qed.

(** A run of [select_audio_stream]. *)
Lemma select_audio_stream_run (m : media_input) (k : Z) :
  MediaInput.audio_streams m = stream_total mo_audio (_media_objects m) ->
  0 <= k < MediaInput.audio_streams m ->
  exists o s,
    nth_error (stream_pairs mo_audio (_media_objects m)) (Z.to_nat k) = Some (o, s)
    /\ MediaInput.select_audio_stream k m
       = (Ok tt,
          MediaInput.set_media_objects (MediaInput.set_active_audio_stream m k)
            (MediaInput.audio_streams_set_active
               (fun i j => (i =? o) && (j =? s)) (_media_objects m))).
Proof.
  intros Htotal Hk.
  set (m1 := MediaInput.set_active_audio_stream m k).
  destruct (get_audio_stream_flattened m1 k Htotal Hk)
    as (o & s & mo & a & Hget & Hnth & _).
  exists o, s. split; [exact Hnth|].
  unfold MediaInput.select_audio_stream.
  unfold MediaInput.bind at 1, MediaInput.assert, MediaInput.read at 1.
  destruct (Z.leb_spec 0 k); [|lia]. cbn [guard].
  unfold MediaInput.bind at 1, MediaInput.read at 1.
  destruct (Z.ltb_spec k (MediaInput.audio_streams m)); [|lia]. cbn [guard].
  unfold MediaInput.bind at 1, MediaInput.modify at 1. fold m1.
  unfold MediaInput.bind at 1, MediaInput.read at 1.
  change (_active_audio_stream m1) with k. rewrite Hget.
  reflexivity.
Qed.

(** What [set_active_audio] leaves. *)
Lemma set_active_audio_run (m : media_input) (r : res unit) (m' : media_input) :
  MediaInput.audio_streams m = stream_total mo_audio (_media_objects m) ->
  MediaInput.set_active_audio m = (r, m') ->
  r = Ok tt
  /\ _active_audio_stream m' = (if 0 <? MediaInput.audio_streams m then 0 else -1)
  /\ _audio_blob m'
     = match all_audio_templates (_media_objects m) with
       | t :: _ => t
       | [] => _audio_blob m
       end
  /\ active_audio_flags (_media_objects m')
     = only_active 0 (Z.to_nat (MediaInput.audio_streams m)).
Proof.
  intros Htotal H.
  pose proof (length_flattened mo_audio (_media_objects m)) as Hlen.
  rewrite <- Htotal in Hlen.
  unfold MediaInput.set_active_audio in H.
  unfold MediaInput.bind at 1, MediaInput.read at 1 in H.
  unfold MediaInput.bind at 1, MediaInput.modify at 1 in H.
  unfold MediaInput.bind at 1, MediaInput.read at 1 in H.
  cbn [_active_audio_stream MediaInput.set_active_audio_stream] in H.
  destruct (Z.ltb_spec 0 (MediaInput.audio_streams m)) as [Hsome|Hnone].
  - cbn [Z.leb Z.compare] in H.
    set (m1 := MediaInput.set_active_audio_stream m 0) in *.
    destruct (blob_template_at_flattened m1 0 Htotal (conj (Z.le_refl 0) Hsome))
      as (t & Hnth & Ht).
    unfold MediaInput.bind at 1, MediaInput.read at 1 in H. rewrite Ht in H.
    unfold MediaInput.bind at 1, MediaInput.modify at 1 in H.
    set (m2 := MediaInput.set_audio_blob m1 t) in *.
    destruct (select_audio_stream_run m2 0 Htotal (conj (Z.le_refl 0) Hsome))
      as (o & s & Hp & Hrun).
    rewrite Hrun in H. injection H as <- <-.
    cbn [_active_audio_stream _audio_blob _media_objects
         MediaInput.set_media_objects MediaInput.set_active_audio_stream
         MediaInput.set_audio_blob m1 m2].
    split; [reflexivity|]. split; [reflexivity|]. split.
    + change (Z.to_nat 0) with 0%nat in Hnth.
      cbn [_media_objects MediaInput.set_active_audio_stream m1] in Hnth.
      destruct (all_audio_templates (_media_objects m)); [discriminate|].
      cbn in Hnth. now injection Hnth.
    + rewrite active_audio_flags_set_active.
      rewrite (only_active_pairs _ 0 o s); [| |lia|exact Hp].
      * f_equal. rewrite length_stream_pairs_flattened.
        cbn [_media_objects MediaInput.set_active_audio_stream
             MediaInput.set_audio_blob m1 m2]. lia.
      * apply NoDup_stream_pairs_from.
  - cbn [Z.leb Z.compare] in H. injection H as <- <-.
    cbn [_active_audio_stream _audio_blob _media_objects
         MediaInput.set_active_audio_stream].
    assert (Hempty : flattened mo_audio (_media_objects m) = []).
    { destruct (flattened mo_audio (_media_objects m)); [reflexivity|].
      cbn in Hlen. lia. }
    split; [reflexivity|]. split; [reflexivity|]. split.
    + unfold all_audio_templates. now rewrite Hempty.
    + unfold active_audio_flags. rewrite Hempty.
      replace (Z.to_nat (MediaInput.audio_streams m)) with 0%nat by lia.
      reflexivity.
Qed.

Lemma template_at_Ok_below (m : media_input) (g : Z) (t : video_frame) :
  MediaInput.template_at m g = Ok t -> g < MediaInput.video_streams m.
Proof.
  unfold MediaInput.template_at, MediaInput.get_video_stream. intros H.
  destruct (Z.ltb_spec g (MediaInput.video_streams m)); [assumption|discriminate].
Qed.

(** A run of [select_video_stream] in the separate layout. *)
Lemma select_video_stream_separate_run (E : externals) (m : media_input) (k : Z) :
  stereo_layout_eqb (stereo_layout (_video_frame m)) separate = true ->
  0 <= k < MediaInput.video_streams m ->
  MediaInput.select_video_stream E k m
  = (Ok tt, MediaInput.set_media_objects m (map activate_all (_media_objects m))).
Proof.
  intros Hsep Hk. unfold MediaInput.select_video_stream.
  unfold MediaInput.bind at 1, MediaInput.assert, MediaInput.read at 1.
  destruct (Z.leb_spec 0 k); [|lia]. cbn [guard].
  unfold MediaInput.bind at 1, MediaInput.read at 1.
  destruct (Z.ltb_spec k (MediaInput.video_streams m)); [|lia]. cbn [guard].
  unfold MediaInput.bind at 1, MediaInput.read at 1. rewrite Hsep.
  unfold MediaInput.modify. now rewrite video_streams_set_active_all.
Qed.

(** A successful [select_video_stream] outside the separate layout has
    passed the assertion of [set_stereo_layout]. *)
Lemma select_video_stream_Ok_supported (E : externals) (m m' : media_input) (k : Z) :
  stereo_layout_eqb (stereo_layout (_video_frame m)) separate = false ->
  MediaInput.select_video_stream E k m = (Ok tt, m') ->
  0 <= k < MediaInput.video_streams m
  /\ MediaInput.stereo_layout_is_supported (MediaInput.set_active_video_stream m k)
       (stereo_layout (_video_frame m)) (stereo_layout_swap (_video_frame m)) = Ok true.
Proof.
  intros Hsep H. unfold MediaInput.select_video_stream in H.
  do 3 bind_inv H.
  injection Hc1 as <-. rewrite Hsep in H.
  do 3 bind_inv H. injection Hc1 as <-. injection Hc2 as <-.
  apply bind_Ok in H. destruct H as (u & m1 & Hset & _).
  split.
  - destruct (Z.leb_spec 0 k); [|discriminate].
    destruct (Z.ltb_spec k (MediaInput.video_streams m)); [lia|discriminate].
  - unfold MediaInput.set_stereo_layout in Hset.
    do 2 bind_inv Hset.
    destruct a1; [exact Hc1|discriminate].
Qed.

(** What [set_active_video] leaves when it succeeds. *)
Lemma set_active_video_run (E : externals) (m m' : media_input) :
  MediaInput.video_streams m = stream_total mo_video (_media_objects m) ->
  MediaInput.set_active_video E m = (Ok tt, m') ->
  (MediaInput.video_streams m = 0 /\ _active_video_stream m' = -1)
  \/ (1 <= MediaInput.video_streams m
      /\ _active_video_stream m' = 0
      /\ exists t0,
           nth_error (all_video_templates (_media_objects m)) 0 = Some t0
           /\ let f := if _supports_stereo_layout_separate m
                       then with_stereo_layout t0 separate else t0 in
              if stereo_layout_eqb (stereo_layout f) separate
              then _video_frame m' = f
                   /\ Forall (fun b => b = true)
                        (active_video_flags (_media_objects m'))
              else _video_frame m'
                   = layout_format E t0 (stereo_layout t0) (stereo_layout_swap t0)
                   /\ active_video_flags (_media_objects m')
                      = only_active 0 (Z.to_nat (MediaInput.video_streams m))).
Proof.
  intros Htotal H.
  pose proof (length_flattened mo_video (_media_objects m)) as Hlen.
  rewrite <- Htotal in Hlen.
  unfold MediaInput.set_active_video in H.
  do 2 bind_inv H. injection Hc as <-. injection Hc0 as <-.
  apply bind_Ok in H. destruct H as (u & mx & Hframe & H).
  bind_inv H. injection Hc as <-.
  assert (Hcases :
    (MediaInput.video_streams m <= 0 /\ mx = MediaInput.set_active_video_stream m (-1))
    \/ (1 <= MediaInput.video_streams m
        /\ exists t0,
             nth_error (all_video_templates (_media_objects m)) 0 = Some t0
             /\ mx = MediaInput.set_video_frame
                       (MediaInput.set_active_video_stream m 0)
                       (if _supports_stereo_layout_separate m
                        then with_stereo_layout t0 separate else t0))).
  { destruct (_supports_stereo_layout_separate m).
    - right. do 2 bind_inv Hframe. apply modify_Ok in Hframe.
      pose proof (template_at_Ok_below _ _ _ Hc) as Hbelow.
      change (0 < MediaInput.video_streams m) in Hbelow.
      destruct (template_at_flattened (MediaInput.set_active_video_stream m 0) 0
                  Htotal (conj (Z.le_refl 0) Hbelow)) as (t0 & Hnth & Ht0).
      change (Z.to_nat 0) with 0%nat in Hnth.
      split; [lia|]. exists t0. split; [exact Hnth|].
      change (MediaInput.template_at (MediaInput.set_active_video_stream m 0) 0 = Ok a0)
        in Hc.
      congruence.
    - destruct (Z.ltb_spec 0 (MediaInput.video_streams m)) as [Hsome|Hnone].
      + right. do 2 bind_inv Hframe. apply modify_Ok in Hframe.
        destruct (template_at_flattened (MediaInput.set_active_video_stream m 0) 0
                    Htotal (conj (Z.le_refl 0) Hsome)) as (t0 & Hnth & Ht0).
        change (Z.to_nat 0) with 0%nat in Hnth.
        split; [lia|]. exists t0. split; [exact Hnth|].
        change (MediaInput.template_at (MediaInput.set_active_video_stream m 0) 0 = Ok a0)
          in Hc.
        congruence.
      + left. apply modify_Ok in Hframe. auto. }
  destruct Hcases as [[Hnone ->]|(Hsome & t0 & Hnth & ->)].
  - left. cbn in H. injection H as <-. split; [lia|reflexivity].
  - right. split; [exact Hsome|].
    cbn [_active_video_stream MediaInput.set_video_frame
         MediaInput.set_active_video_stream Z.leb Z.compare] in H.
    set (f := if _supports_stereo_layout_separate m
              then with_stereo_layout t0 separate else t0) in *.
    set (mx := MediaInput.set_video_frame (MediaInput.set_active_video_stream m 0) f) in *.
    assert (Hrange : 0 <= 0 < MediaInput.video_streams mx)
      by (change (MediaInput.video_streams mx) with (MediaInput.video_streams m); lia).
    destruct (stereo_layout_eqb (stereo_layout f) separate) eqn:Hsep.
    + rewrite (select_video_stream_separate_run E mx 0 Hsep Hrange) in H.
      injection H as <-. split; [reflexivity|].
      exists t0. split; [exact Hnth|]. cbv zeta. fold f. rewrite Hsep.
      split; [reflexivity|]. apply active_video_flags_activate_all.
    + destruct (select_video_stream_Ok_supported E mx m' 0 Hsep H) as [_ Hsup].
      destruct (select_video_stream_run E mx 0 Hsep Htotal Hrange Hsup)
        as (o & s & vs & Hp & Hflat & Hrun).
      rewrite Hrun in H. injection H as <-.
      assert (Hf : f = t0).
      { unfold f in *. destruct (_supports_stereo_layout_separate m); [discriminate|].
        reflexivity. }
      assert (Hvs : vs_template vs = t0).
      { unfold all_video_templates in Hnth. rewrite nth_error_map in Hnth.
        change (Z.to_nat 0) with 0%nat in Hflat.
        cbn [_media_objects MediaInput.set_video_frame
             MediaInput.set_active_video_stream mx] in Hflat.
        rewrite Hflat in Hnth. cbn in Hnth. now injection Hnth. }
      split; [reflexivity|]. exists t0. split; [exact Hnth|].
      cbv zeta. fold f. rewrite Hsep.
      cbn [_video_frame _media_objects MediaInput.set_media_objects
           MediaInput.set_video_frame MediaInput.set_active_video_stream mx].
      split.
      * now rewrite Hvs, Hf.
      * rewrite active_video_flags_set_active.
        rewrite (only_active_pairs _ 0 o s); [| |lia|exact Hp].
        -- f_equal. rewrite length_stream_pairs_flattened. lia.
        -- apply NoDup_stream_pairs_from.
Qed.

Lemma set_active_video_audio_blob (E : externals) :
  preserves (fun m m' => _audio_blob m' = _audio_blob m) (MediaInput.set_active_video E).
Proof.
  unfold MediaInput.set_active_video, MediaInput.select_video_stream,
    MediaInput.set_stereo_layout.
  repeat (preserve_step (fun m : media_input => eq_refl (_audio_blob m))
            (fun (a b c : media_input) (H1 : _audio_blob b = _audio_blob a)
                 (H2 : _audio_blob c = _audio_blob b) => eq_trans H2 H1)
          || (apply preserves_seek; intros ?; reflexivity)
          || (apply preserves_modify; intros ?; reflexivity)).
Qed.

(** The phases of an [open] of a new input. *)
Lemma open_new_phases (E : externals) (urls : list string) (b : bool) (st : media_input) :
  MediaInput.open E urls (MediaInput.new b) = (Ok tt, st) ->
  exists objs id skip flag m3,
    Forall2 (fun u mo => media_object_open E u = Some mo) urls objs
    /\ MediaInput.construct_id objs = Ok id
    /\ MediaInput.tag_value_loop (MediaInput.gathered_tag_names objs)
         (MediaInput.gathered_tag_values objs) "StereoscopicSkip" = Ok skip
    /\ MediaInput.set_active_video E
         (MediaInput.set_supports_stereo_layout_separate
            (gathered_input E (MediaInput.new b) objs id skip) flag)
       = (Ok tt, m3)
    /\ MediaInput.set_active_audio m3 = (Ok tt, st)
    /\ MediaInput.print_summary st = Ok tt.
Proof.
  intros H. apply open_phases in H.
  destruct H as (objs & id & skip & m2 & m3 & Hopen & _ & Hid & Hskip & Hdetect
                 & Hvideo & Haudio & Hsummary).
  apply detect_stereo_layout_separate_only_flag in Hdetect.
  unfold only_flag_differs in Hdetect.
  exists objs, id, skip, (_supports_stereo_layout_separate m2), m3.
  rewrite <- Hdetect. repeat (split; [assumption|]). assumption.
Qed.

Lemma gathered_input_video_total (E : externals) (b flag : bool)
    (objs : list media_object) (id skip : string) :
  let m2 := MediaInput.set_supports_stereo_layout_separate
              (gathered_input E (MediaInput.new b) objs id skip) flag in
  MediaInput.video_streams m2 = stream_total mo_video (_media_objects m2)
  /\ MediaInput.audio_streams m2 = stream_total mo_audio (_media_objects m2).
Proof.
  unfold MediaInput.video_streams, MediaInput.audio_streams. cbn.
  now rewrite length_gathered_video_stream_names, length_gathered_audio_stream_names.
Qed.

Lemma print_summary_active_video (m : media_input) :
  MediaInput.print_summary m = Ok tt -> 0 <= _active_video_stream m.
Proof.
  unfold MediaInput.print_summary, MediaInput.video_frame_template. intros H.
  destruct (Z.leb_spec 0 (_active_video_stream m)); [assumption|discriminate].
Qed.

(** X9.  After a successful [open] there is a video stream and the active
    video stream is the first one.  When the pair is supported, or when the
    template of the first stream itself says separate, the current format is
    that template with the separate layout and every video stream is active;
    otherwise the current format is that template after
    [set_view_dimensions] and the first video stream is the only active
    one. *)
Theorem open_default_video
    (E : externals) (urls : list string) (b : bool) (st : media_input) :
  MediaInput.open E urls (MediaInput.new b) = (Ok tt, st) ->
  1 <= MediaInput.video_streams st
  /\ _active_video_stream st = 0
  /\ exists t0,
       nth_error (all_video_templates (_media_objects st)) 0 = Some t0
       /\ let f := if _supports_stereo_layout_separate st
                   then with_stereo_layout t0 separate else t0 in
          if stereo_layout_eqb (stereo_layout f) separate
          then _video_frame st = f
               /\ Forall (fun b => b = true) (active_video_flags (_media_objects st))
          else _video_frame st
               = layout_format E t0 (stereo_layout t0) (stereo_layout_swap t0)
               /\ active_video_flags (_media_objects st)
                  = only_active 0 (Z.to_nat (MediaInput.video_streams st)).
Proof.
  intros H. apply open_new_phases in H.
  destruct H as (objs & id & skip & flag & m3 & _ & _ & _ & Hvideo & Haudio & Hsummary).
  destruct (gathered_input_video_total E b flag objs id skip) as [Htotal _].
  set (m2 := MediaInput.set_supports_stereo_layout_separate
               (gathered_input E (MediaInput.new b) objs id skip) flag) in *.
  cbv zeta in Htotal.
  pose proof (set_active_video_stable E _ _ _ Hvideo) as Hst23.
  pose proof (set_active_audio_stable _ _ _ Haudio) as Hst3.
  pose proof (set_active_audio_video_kept _ _ _ Haudio) as [Hkv Hkf Hka].
  pose proof (tables_stable_trans _ _ _ Hst23 Hst3) as [_ _ _ Hnames _ Hflag _ _ Hstatics].
  apply print_summary_active_video in Hsummary.
  assert (Hcount : MediaInput.video_streams st = MediaInput.video_streams m2)
    by (unfold MediaInput.video_streams; now rewrite Hnames).
  assert (Hflags : active_video_flags (_media_objects st)
                   = active_video_flags (_media_objects m3))
    by (unfold active_video_flags; now rewrite (flattened_map _ mo_video _ _ Hkv)).
  rewrite Hcount, Hka, Hkf, Hflags, Hflag, (all_video_templates_statics _ _ Hstatics).
  destruct (set_active_video_run E m2 m3 Htotal Hvideo) as [[_ Hnone]|Hsome].
  - rewrite Hka, Hnone in Hsummary. lia.
  - exact Hsome.
Qed.

Lemma open_default_video_witness :
  1 <= MediaInput.video_streams example_mixed
  /\ _active_video_stream example_mixed = 0
  /\ exists t0,
       nth_error (all_video_templates (_media_objects example_mixed)) 0 = Some t0
       /\ let f := if _supports_stereo_layout_separate example_mixed
                   then with_stereo_layout t0 separate else t0 in
          if stereo_layout_eqb (stereo_layout f) separate
          then _video_frame example_mixed = f
               /\ Forall (fun b => b = true)
                    (active_video_flags (_media_objects example_mixed))
          else _video_frame example_mixed
               = layout_format example_externals t0 (stereo_layout t0)
                   (stereo_layout_swap t0)
               /\ active_video_flags (_media_objects example_mixed)
                  = only_active 0 (Z.to_nat (MediaInput.video_streams example_mixed)).
Proof.
  apply (open_default_video example_externals
           ["/movies/left.mkv"%string; "small.mkv"%string] false).
  vm_compute. reflexivity.
Defined.

(** X10.  After a successful [open] the active audio stream is the first
    one when there is an audio stream, and -1 when there is none.  With an
    audio stream, the current audio format is the template of the first
    audio stream, which is the only active one; without, the format is the
    default blob. *)
Theorem open_default_audio
    (E : externals) (urls : list string) (b : bool) (st : media_input) :
  MediaInput.open E urls (MediaInput.new b) = (Ok tt, st) ->
  _active_audio_stream st = (if 0 <? MediaInput.audio_streams st then 0 else -1)
  /\ _audio_blob st
     = match all_audio_templates (_media_objects st) with
       | t :: _ => t
       | [] => audio_blob_default
       end
  /\ active_audio_flags (_media_objects st)
     = only_active 0 (Z.to_nat (MediaInput.audio_streams st)).
Proof.
  intros H. apply open_new_phases in H.
  destruct H as (objs & id & skip & flag & m3 & _ & _ & _ & Hvideo & Haudio & _).
  destruct (gathered_input_video_total E b flag objs id skip) as [_ Htotal].
  set (m2 := MediaInput.set_supports_stereo_layout_separate
               (gathered_input E (MediaInput.new b) objs id skip) flag) in *.
  cbv zeta in Htotal.
  pose proof (set_active_video_stable E _ _ _ Hvideo)
    as [_ _ _ _ Hnames23 _ _ _ Hstatics23].
  pose proof (set_active_audio_stable _ _ _ Haudio)
    as [_ _ _ _ Hnames3 _ _ _ Hstatics3].
  pose proof (set_active_video_audio_blob E _ _ _ Hvideo) as Hblob.
  assert (Htotal3 : MediaInput.audio_streams m3
                    = stream_total mo_audio (_media_objects m3)).
  { unfold MediaInput.audio_streams. rewrite Hnames23.
    rewrite (stream_total_audio_statics _ _ Hstatics23). exact Htotal. }
  assert (Hcount : MediaInput.audio_streams st = MediaInput.audio_streams m3)
    by (unfold MediaInput.audio_streams; now rewrite Hnames3).
  destruct (set_active_audio_run m3 _ st Htotal3 Haudio) as (_ & Hactive & Hb & Hflags).
  rewrite Hcount, (all_audio_templates_statics _ _ Hstatics3).
  split; [exact Hactive|]. split; [|exact Hflags].
  rewrite Hb, Hblob. reflexivity.
Qed.

Lemma open_default_audio_witness :
  _active_audio_stream example_pair
  = (if 0 <? MediaInput.audio_streams example_pair then 0 else -1)
  /\ _audio_blob example_pair
     = match all_audio_templates (_media_objects example_pair) with
       | t :: _ => t
       | [] => audio_blob_default
       end
  /\ active_audio_flags (_media_objects example_pair)
     = only_active 0 (Z.to_nat (MediaInput.audio_streams example_pair)).
Proof.
  apply (open_default_audio example_externals example_pair_urls false).
  vm_compute. reflexivity.
Defined.

(** ** Id and tags *)

Lemma map_video_streams_set_active (B : Type) (p : media_object -> B)
    (f : Z -> Z -> bool) (objs : list media_object) :
  (forall mo v, p (MediaObject.set_mo_video mo v) = p mo) ->
  map p (MediaInput.video_streams_set_active f objs) = map p objs.
Proof.
  intros Hp. unfold MediaInput.video_streams_set_active.
  generalize 0 at 2. induction objs as [|mo objs IH]; intros i; [reflexivity|].
  cbn. now rewrite IH, Hp.
Qed.

Lemma map_audio_streams_set_active (B : Type) (p : media_object -> B)
    (f : Z -> Z -> bool) (objs : list media_object) :
  (forall mo a, p (MediaObject.set_mo_audio mo a) = p mo) ->
  map p (MediaInput.audio_streams_set_active f objs) = map p objs.
Proof.
  intros Hp. unfold MediaInput.audio_streams_set_active.
  generalize 0 at 2. induction objs as [|mo objs IH]; intros i; [reflexivity|].
  cbn. now rewrite IH, Hp.
Qed.

Lemma same_sources_refl (m : media_input) : same_sources m m.
Proof. now split. Qed.

Lemma same_sources_trans (a b c : media_input) :
  same_sources a b -> same_sources b c -> same_sources a c.
Proof. intros [] []. split; congruence. Qed.

Ltac same_sources_modify :=
  apply preserves_modify; intros ?; split; cbn;
  rewrite ?map_map;
  first [ reflexivity
        | apply map_video_streams_set_active; reflexivity
        | apply map_audio_streams_set_active; reflexivity ].

Lemma set_active_video_same_sources (E : externals) :
  preserves same_sources (MediaInput.set_active_video E).
Proof.
  unfold MediaInput.set_active_video, MediaInput.select_video_stream,
    MediaInput.set_stereo_layout.
  repeat (preserve_step same_sources_refl same_sources_trans
          || (apply preserves_seek; intros ?; split; cbn;
              now apply map_seek_media_objects)
          || same_sources_modify).
Qed.

Lemma set_active_audio_same_sources :
  preserves same_sources MediaInput.set_active_audio.
Proof.
  unfold MediaInput.set_active_audio, MediaInput.select_audio_stream.
  repeat (preserve_step same_sources_refl same_sources_trans || same_sources_modify).
Qed.

Lemma append_assoc (a b c : string) : ((a ++ b) ++ c = a ++ (b ++ c))%string.
Proof. induction a as [|x a IH]; [reflexivity|]. cbn. now rewrite IH. Qed.

Lemma concat_cons_append (sep x y : string) (l : list string) :
  String.concat sep ((x ++ sep ++ y)%string :: l)
  = (x ++ sep ++ String.concat sep (y :: l))%string.
Proof.
  destruct l as [|z l]; [reflexivity|].
  cbn [String.concat]. now rewrite !append_assoc.
Qed.

Lemma construct_id_concat (objs : list media_object) (id : string) :
  MediaInput.construct_id objs = Ok id ->
  id = String.concat "/"
         (map (fun mo => MediaInput.basename (MediaObject.url mo)) objs).
Proof.
  unfold MediaInput.construct_id. destruct objs as [|mo0 rest]; [discriminate|].
  intros H. injection H as <-. cbn [map].
  generalize (MediaInput.basename (MediaObject.url mo0)) as acc.
  induction rest as [|mo rest IH]; intros acc; [reflexivity|].
  cbn [fold_left map]. rewrite IH.
  apply (concat_cons_append "/").
Qed.

(** The members of the input that the phases after the gathering keep, in
    terms of the input that [open] returns. *)
Lemma open_gathered (E : externals) (urls : list string) (m st : media_input) :
  MediaInput.open E urls m = (Ok tt, st) ->
  exists objs id skip,
    Forall2 (fun u mo => media_object_open E u = Some mo) urls objs
    /\ MediaInput.construct_id objs = Ok id
    /\ MediaInput.tag_value_loop
         (_tag_names m ++ MediaInput.gathered_tag_names objs)
         (_tag_values m ++ MediaInput.gathered_tag_values objs)
         "StereoscopicSkip" = Ok skip
    /\ tables_stable (gathered_input E m objs id skip)
         (MediaInput.set_supports_stereo_layout_separate st
            (_supports_stereo_layout_separate m))
    /\ map mo_url (_media_objects st) = map mo_url objs
    /\ map mo_tags (_media_objects st) = map mo_tags objs.
Proof.
  intros H. apply open_phases in H.
  destruct H as (objs & id & skip & m2 & m3 & Hopen & _ & Hid & Hskip & Hdetect
                 & Hvideo & Haudio & _).
  apply detect_stereo_layout_separate_only_flag in Hdetect.
  unfold only_flag_differs in Hdetect.
  pose proof (set_active_video_stable E _ _ _ Hvideo) as Hst23.
  pose proof (set_active_audio_stable _ _ _ Haudio) as Hst3.
  pose proof (tables_stable_trans _ _ _ Hst23 Hst3) as [H1 H2 H3 H4 H5 H6 H7 H8 H9].
  pose proof (set_active_video_same_sources E _ _ _ Hvideo) as Hs23.
  pose proof (set_active_audio_same_sources _ _ _ Haudio) as Hs3.
  pose proof (same_sources_trans _ _ _ Hs23 Hs3) as [Hurl Htags].
  rewrite Hdetect in H1, H2, H3, H4, H5, H7, H8, H9, Hurl, Htags.
  exists objs, id, skip.
  repeat (split; [assumption|]). split; [|split; assumption].
  constructor; cbn; assumption || reflexivity.
Qed.

(** X11.  After a successful [open] the id of the input is the base names
    of the URLs of its media objects, in their order, joined by a slash;
    what the id was before the call plays no part. *)
Theorem open_id (E : externals) (urls : list string) (m st : media_input) :
  MediaInput.open E urls m = (Ok tt, st) ->
  MediaInput.id st
  = String.concat "/"
      (map (fun mo => MediaInput.basename (MediaObject.url mo)) (_media_objects st)).
Proof.
  intros H. apply open_gathered in H.
  destruct H as (objs & id & skip & _ & Hid & _ & [Hst _ _ _ _ _ _ _ _] & Hurl & _).
  cbn in Hst. unfold MediaInput.id. rewrite Hst.
  rewrite (construct_id_concat objs id Hid).
  f_equal. unfold MediaObject.url.
  rewrite <- !(map_map mo_url MediaInput.basename). now rewrite Hurl.
Qed.

Lemma open_id_witness :
  MediaInput.id example_pair
  = String.concat "/"
      (map (fun mo => MediaInput.basename (MediaObject.url mo))
         (_media_objects example_pair)).
Proof.
  apply (open_id example_externals example_pair_urls (MediaInput.new false)).
  vm_compute. reflexivity.
Defined.

Lemma length_gathered_tags (f : Z -> string * string -> string)
    (objs : list media_object) (j : Z) :
  List.length
    (flat_map (fun '(i, mo) => map (f i) (mo_tags mo)) (indexed_from j objs))
  = List.length (List.concat (map mo_tags objs)).
Proof.
  revert j. induction objs as [|mo objs IH]; intros j; [reflexivity|].
  cbn. now rewrite !length_app, length_map, IH.
Qed.

Lemma tag_value_loop_first (names values : list string) (name : string) :
  List.length names = List.length values ->
  MediaInput.tag_value_loop names values name
  = Ok (first_tag_value names values name).
Proof.
  unfold first_tag_value.
  revert values. induction names as [|n names IH]; intros [|v values] Hlen;
    try discriminate Hlen; [reflexivity|].
  cbn. destruct (String.eqb name n); [reflexivity|].
  apply IH. cbn in Hlen. lia.
Qed.

Lemma tag_value_loop_absent (names values : list string) (name : string) :
  Forall (fun n => String.eqb name n = false) names ->
  MediaInput.tag_value_loop names values name = Ok EmptyString.
Proof.
  revert values. induction names as [|n names IH]; intros values H; [reflexivity|].
  inversion H as [|? ? Hn Hrest]; subst. cbn. rewrite Hn. now apply IH.
Qed.

(** X12.  After a successful [open] of a new input the tables of tag names
    and of tag values have one entry for every tag of every media object, so
    that [tag_name] and [tag_value] succeed at every index below [tags()].
    With a single media object the entries are its tag names and values
    themselves, without a prefix. *)
Theorem open_tags (E : externals) (urls : list string) (b : bool) (st : media_input) :
  MediaInput.open E urls (MediaInput.new b) = (Ok tt, st) ->
  List.length (_tag_names st) = List.length (_tag_values st)
  /\ MediaInput.tags st
     = Z.of_nat (List.length (List.concat (map mo_tags (_media_objects st))))
  /\ (forall mo, _media_objects st = [mo] ->
        _tag_names st = map fst (mo_tags mo)
        /\ _tag_values st = map snd (mo_tags mo))
  /\ (forall i : N, Z.of_N i < MediaInput.tags st ->
        exists n v, MediaInput.tag_name st i = Ok n
                    /\ MediaInput.tag_value_at st i = Ok v).
Proof.
  intros H. apply open_gathered in H.
  destruct H as (objs & id & skip & _ & _ & _ & [_ Hn Hv _ _ _ _ _ _] & _ & Htags).
  cbn in Hn, Hv.
  assert (Hln : List.length (_tag_names st)
                = List.length (List.concat (map mo_tags (_media_objects st)))).
  { rewrite Hn, Htags. unfold MediaInput.gathered_tag_names.
    apply (length_gathered_tags
             (fun i t => (MediaInput.pfx (List.length objs) i ++ fst t)%string)). }
  assert (Hlv : List.length (_tag_values st)
                = List.length (List.concat (map mo_tags (_media_objects st)))).
  { rewrite Hv, Htags. unfold MediaInput.gathered_tag_values.
    apply (length_gathered_tags
             (fun i t => (MediaInput.pfx (List.length objs) i ++ snd t)%string)). }
  split; [congruence|]. split; [unfold MediaInput.tags; now rewrite Hln|].
  split.
  - intros mo Hone. rewrite Hone in Htags.
    destruct objs as [|mo' [|? ?]]; try discriminate Htags.
    cbn in Htags. injection Htags as Htags.
    rewrite Hn, Hv. unfold MediaInput.gathered_tag_names, MediaInput.gathered_tag_values.
    cbn. rewrite !app_nil_r, <- Htags. split; apply map_ext; reflexivity.
  - intros i Hi. unfold MediaInput.tags in Hi.
    unfold MediaInput.tag_name, MediaInput.tag_value_at.
    rewrite Hlv, <- Hln.
    destruct (Z.ltb_spec (Z.of_N i) (Z.of_nat (List.length (_tag_names st)))); [|lia].
    cbn [guard res_bind].
    destruct (nth_error (_tag_names st) (Z.to_nat (Z.of_N i))) as [n|] eqn:Hnth.
    + destruct (nth_error (_tag_values st) (Z.to_nat (Z.of_N i))) as [v|] eqn:Hnthv.
      * exists n, v. split; apply at_index_Ok; split; try lia; assumption.
      * apply nth_error_None in Hnthv. lia.
    + apply nth_error_None in Hnth. lia.
Qed.

Lemma open_tags_witness :
  List.length (_tag_names example_pair) = List.length (_tag_values example_pair)
  /\ MediaInput.tags example_pair
     = Z.of_nat (List.length (List.concat (map mo_tags (_media_objects example_pair))))
  /\ (forall mo, _media_objects example_pair = [mo] ->
        _tag_names example_pair = map fst (mo_tags mo)
        /\ _tag_values example_pair = map snd (mo_tags mo))
  /\ (forall i : N, Z.of_N i < MediaInput.tags example_pair ->
        exists n v, MediaInput.tag_name example_pair i = Ok n
                    /\ MediaInput.tag_value_at example_pair i = Ok v).
Proof.
  apply (open_tags example_externals example_pair_urls false).
  vm_compute. reflexivity.
Defined.

(** X13.  On an input whose tables of tag names and tag values have the
    same length, [tag_value] by name never fails: it returns the value of the
    first tag of that name, and the empty string when no tag has that
    name. *)
Theorem tag_value_first (m : media_input) (name : string) :
  List.length (_tag_names m) = List.length (_tag_values m) ->
  MediaInput.tag_value m name
  = Ok (first_tag_value (_tag_names m) (_tag_values m) name)
  /\ (~ In name (_tag_names m) -> MediaInput.tag_value m name = Ok EmptyString).
Proof.
  intros Hlen. split.
  - now apply tag_value_loop_first.
  - intros Hnot. apply tag_value_loop_absent.
    apply Forall_forall. intros n Hn.
    destruct (String.eqb_spec name n) as [->|]; [contradiction|reflexivity].
Qed.

Lemma tag_value_first_witness :
  MediaInput.tag_value example_pair "1 - title"
  = Ok (first_tag_value (_tag_names example_pair) (_tag_values example_pair)
          "1 - title")
  /\ (~ In "1 - title"%string (_tag_names example_pair) ->
      MediaInput.tag_value example_pair "1 - title" = Ok EmptyString).
Proof.
  apply (tag_value_first example_pair "1 - title"). reflexivity.
Defined.

(** ** The initial skip *)

Lemma skip_tag_not_prefixed (n : Z) (s : string) :
  String.eqb "StereoscopicSkip" ((MediaInput.str_from n ++ " - ") ++ s) = false.
Proof.
  unfold MediaInput.str_from.
  destruct (N.to_uint (Z.to_N n)); reflexivity.
Qed.

Lemma prefixed_tag_names (n : nat) (objs : list media_object) (j : Z) :
  n <> 1%nat ->
  Forall (fun name => String.eqb "StereoscopicSkip" name = false)
    (flat_map (fun '(i, mo) =>
                 map (fun t => (MediaInput.pfx n i ++ fst t)%string) (mo_tags mo))
              (indexed_from j objs)).
Proof.
  intros Hn. revert j. induction objs as [|mo objs IH]; intros j; [constructor|].
  cbn. apply Forall_app. split; [|apply IH].
  apply Forall_forall. intros name Hin. apply in_map_iff in Hin.
  destruct Hin as (t & <- & _). unfold MediaInput.pfx.
  destruct (Nat.eqb_spec n 1); [contradiction|].
  apply skip_tag_not_prefixed.
Qed.

(** X14.  When an input is opened from two or more locators, the tag
    [StereoscopicSkip] of a media object is never found, because every tag
    name carries the ordinal prefix: the initial skip is what [str::to]
    makes of the empty string, and 0 when that throws. *)
Theorem open_initial_skip_several
    (E : externals) (urls : list string) (b : bool) (st : media_input) :
  MediaInput.open E urls (MediaInput.new b) = (Ok tt, st) ->
  (2 <= List.length urls)%nat ->
  MediaInput.initial_skip st
  = match str_to_int64 E EmptyString with
    | Some v => v
    | None => 0
    end.
Proof.
  intros H Htwo. apply open_gathered in H.
  destruct H as (objs & id & skip & Hopen & _ & Hskip & [_ _ _ _ _ _ Hs _ _] & _ & _).
  cbn in Hs, Hskip. unfold MediaInput.initial_skip. rewrite Hs.
  apply Forall2_length in Hopen.
  rewrite tag_value_loop_absent in Hskip.
  - injection Hskip as <-. reflexivity.
  - unfold MediaInput.gathered_tag_names. apply prefixed_tag_names. lia.
Qed.

Lemma open_initial_skip_several_witness :
  MediaInput.initial_skip example_pair
  = match str_to_int64 example_externals EmptyString with
    | Some v => v
    | None => 0
    end.
Proof.
  apply (open_initial_skip_several example_externals example_pair_urls false).
  - vm_compute. reflexivity.
  - vm_compute. lia.
Defined.

(** X15.  When an input is opened from a single locator, the initial skip
    is what [str::to] makes of the value of the first tag named
    [StereoscopicSkip] of the media object (of the empty string when it has
    no such tag), and 0 when that throws. *)
Theorem open_initial_skip_single
    (E : externals) (url : string) (b : bool) (st : media_input) :
  MediaInput.open E [url] (MediaInput.new b) = (Ok tt, st) ->
  exists mo,
    _media_objects st = [mo]
    /\ MediaInput.initial_skip st
       = match str_to_int64 E
                 (first_tag_value (map fst (mo_tags mo)) (map snd (mo_tags mo))
                    "StereoscopicSkip") with
         | Some v => v
         | None => 0
         end.
Proof.
  intros H. apply open_gathered in H.
  destruct H as (objs & id & skip & Hopen & _ & Hskip & [_ _ _ _ _ _ Hs _ _] & Hurl & Htags).
  cbn in Hs, Hskip. unfold MediaInput.initial_skip. rewrite Hs.
  apply Forall2_length in Hopen.
  destruct objs as [|mo0 [|? ?]]; try discriminate Hopen.
  destruct (_media_objects st) as [|mo [|? ?]]; try discriminate Hurl.
  cbn in Htags. injection Htags as Htags.
  exists mo. split; [reflexivity|].
  unfold MediaInput.gathered_tag_names, MediaInput.gathered_tag_values in Hskip.
  cbn in Hskip. rewrite !app_nil_r in Hskip.
  rewrite tag_value_loop_first in Hskip by now rewrite !length_map.
  injection Hskip as <-. rewrite Htags. reflexivity.
Qed.

Lemma open_initial_skip_single_witness :
  exists mo,
    _media_objects
      (snd (MediaInput.open example_externals ["small.mkv"%string] (MediaInput.new false)))
    = [mo]
    /\ MediaInput.initial_skip
         (snd (MediaInput.open example_externals ["small.mkv"%string]
                 (MediaInput.new false)))
       = match str_to_int64 example_externals
                 (first_tag_value (map fst (mo_tags mo)) (map snd (mo_tags mo))
                    "StereoscopicSkip") with
         | Some v => v
         | None => 0
         end.
Proof.
  apply (open_initial_skip_single example_externals "small.mkv" false).
  vm_compute. reflexivity.
Defined.

(** ** Indices out of range *)

(** X16.  [get_video_stream] and [get_audio_stream] check the upper bound
    of the index only.  An index at or above the number of streams fails the
    assertion; a negative index is taken, and resolves to the first media
    object with the negative index as the local one. *)
Theorem get_stream_out_of_range (m : media_input) (stream : Z) :
  (MediaInput.video_streams m <= stream ->
   MediaInput.get_video_stream m stream = Fail assertion_failed)
  /\ (MediaInput.audio_streams m <= stream ->
      MediaInput.get_audio_stream m stream = Fail assertion_failed)
  /\ (stream < 0 -> _media_objects m <> [] ->
      MediaInput.get_video_stream m stream = Ok (0, stream)
      /\ MediaInput.get_audio_stream m stream = Ok (0, stream)).
Proof.
  unfold MediaInput.get_video_stream, MediaInput.get_audio_stream.
  split; [|split].
  - intros H. destruct (Z.ltb_spec stream (MediaInput.video_streams m)); [lia|reflexivity].
  - intros H. destruct (Z.ltb_spec stream (MediaInput.audio_streams m)); [lia|reflexivity].
  - intros Hneg Hobjs.
    unfold MediaInput.video_streams, MediaInput.audio_streams.
    destruct (Z.ltb_spec stream (Z.of_nat (List.length (_video_stream_names m)))); [|lia].
    destruct (Z.ltb_spec stream (Z.of_nat (List.length (_audio_stream_names m)))); [|lia].
    destruct (_media_objects m) as [|mo objs]; [contradiction|].
    cbn [guard res_bind MediaInput.get_stream_loop].
    unfold MediaObject.video_streams, MediaObject.audio_streams.
    destruct (Z.ltb_spec (Z.of_nat (List.length (mo_video mo))) (stream + 1)); [lia|].
    destruct (Z.ltb_spec (Z.of_nat (List.length (mo_audio mo))) (stream + 1)); [lia|].
    split; reflexivity.
Qed.

Lemma get_stream_out_of_range_witness :
  MediaInput.get_video_stream example_pair (-1) = Ok (0, -1)
  /\ MediaInput.get_audio_stream example_pair (-1) = Ok (0, -1).
Proof.
  apply (proj2 (proj2 (get_stream_out_of_range example_pair (-1)))).
  - reflexivity.
  - discriminate.
Defined.

(** ** The frame rate of the first stream *)

(** X18.  When the active video stream is the first one and the first
    media object has a video stream, the frame rate functions return the
    numerator and denominator of that stream, and [video_frame_duration] is
    the quotient of the denominator times 1000000 by the numerator, rounded
    towards zero; a numerator of 0 is a division by zero. *)
Theorem video_frame_rate_first_stream
    (m : media_input) (mo : media_object) (objs : list media_object)
    (vs : video_stream) (rest : list video_stream) :
  MediaInput.video_streams m = stream_total mo_video (_media_objects m) ->
  _active_video_stream m = 0 ->
  _media_objects m = mo :: objs ->
  mo_video mo = vs :: rest ->
  nth_error (flattened mo_video (_media_objects m)) 0 = Some vs
  /\ MediaInput.video_frame_rate_numerator m = Ok (vs_frame_rate_num vs)
  /\ MediaInput.video_frame_rate_denominator m = Ok (vs_frame_rate_den vs)
  /\ MediaInput.video_frame_duration m
     = (if vs_frame_rate_num vs =? 0 then Fail undefined_behaviour
        else Ok (Z.quot (vs_frame_rate_den vs * 1000000) (vs_frame_rate_num vs))).
Proof.
  intros Htotal Hactive Hobjs Hvideo.
  assert (Hget : MediaInput.get_video_stream m 0 = Ok (0, 0)).
  { unfold MediaInput.get_video_stream. rewrite Htotal, Hobjs.
    unfold stream_total. cbn [map fold_right]. rewrite Hvideo.
    pose proof (stream_total_nonneg mo_video objs) as Hnn. unfold stream_total in Hnn.
    destruct (Z.ltb_spec 0
                (Z.of_nat (List.length (vs :: rest))
                 + fold_right Z.add 0
                     (map (fun mo0 => Z.of_nat (List.length (mo_video mo0))) objs)));
      [|cbn [List.length] in *; lia].
    cbn [guard res_bind MediaInput.get_stream_loop].
    unfold MediaObject.video_streams. rewrite Hvideo.
    destruct (Z.ltb_spec (Z.of_nat (List.length (vs :: rest))) (0 + 1));
      [cbn [List.length] in *; lia|reflexivity]. }
  assert (Hnum : MediaInput.video_frame_rate_numerator m = Ok (vs_frame_rate_num vs)).
  { unfold MediaInput.video_frame_rate_numerator. rewrite Hactive, Hget, Hobjs.
    cbn. unfold MediaObject.video_frame_rate_numerator. now rewrite Hvideo. }
  assert (Hden : MediaInput.video_frame_rate_denominator m = Ok (vs_frame_rate_den vs)).
  { unfold MediaInput.video_frame_rate_denominator. rewrite Hactive, Hget, Hobjs.
    cbn. unfold MediaObject.video_frame_rate_denominator. now rewrite Hvideo. }
  split; [|split; [exact Hnum|split; [exact Hden|]]].
  - rewrite Hobjs. unfold flattened. cbn. now rewrite Hvideo.
  - unfold MediaInput.video_frame_duration. rewrite Hden, Hnum, Hactive. reflexivity.
Qed.

Lemma video_frame_rate_first_stream_witness :
  nth_error (flattened mo_video (_media_objects example_mixed)) 0
  = Some (MediaObject.set_vs_active true
            (example_video_stream 640 480 10000000 25
               [example_frame 640 480 0 4096; example_frame 640 480 40000 8192]))
  /\ MediaInput.video_frame_rate_numerator example_mixed = Ok 25
  /\ MediaInput.video_frame_rate_denominator example_mixed = Ok 1
  /\ MediaInput.video_frame_duration example_mixed = Ok 40000.
Proof.
  apply (video_frame_rate_first_stream example_mixed
           (MediaObject.set_mo_audio
              (MediaObject.set_mo_video example_left
                 [MediaObject.set_vs_active true
                    (example_video_stream 640 480 10000000 25
                       [example_frame 640 480 0 4096;
                        example_frame 640 480 40000 8192])])
              [MediaObject.set_as_active true (example_audio_stream 10000000)])
           [MediaObject.set_mo_video example_small
              [MediaObject.set_vs_active false
                 (example_video_stream 320 240 7000000 30 [])]]
           (MediaObject.set_vs_active true
              (example_video_stream 640 480 10000000 25
                 [example_frame 640 480 0 4096; example_frame 640 480 40000 8192]))
           []); reflexivity.
Defined.

(** ** What the operations keep *)

Lemma shape_kept_refl (m : media_input) : shape_kept m m.
Proof. now constructor. Qed.

Lemma shape_kept_trans (a b c : media_input) :
  shape_kept a b -> shape_kept b c -> shape_kept a c.
Proof. intros [] []. constructor; congruence. Qed.

Lemma stream_counts_statics (a b : list media_object) :
  statics a = statics b ->
  map MediaObject.video_streams a = map MediaObject.video_streams b
  /\ map MediaObject.audio_streams a = map MediaObject.audio_streams b.
Proof.
  revert b. induction a as [|x a IH]; intros [|y b] H; try discriminate; [now split|].
  apply statics_cons_inv in H. destruct H as (Hv & Ha & Hab).
  destruct (IH b Hab) as [IHv IHa].
  apply (f_equal (@List.length _)) in Hv, Ha. rewrite !length_map in Hv, Ha.
  unfold MediaObject.video_streams, MediaObject.audio_streams in *.
  cbn. split; congruence.
Qed.

Lemma tables_stable_shape_kept (m m' : media_input) :
  tables_stable m m' -> shape_kept m m'.
Proof.
  intros [H1 H2 H3 H4 H5 H6 H7 H8 H9].
  destruct (stream_counts_statics _ _ H9).
  constructor; assumption.
Qed.

Lemma map_update_nth_same (A B : Type) (p : A -> B) (l : list A) (n : nat) (x x' : A) :
  nth_error l n = Some x -> p x' = p x ->
  map p (MediaObject.update_nth n (fun _ => x') l) = map p l.
Proof.
  revert n. induction l as [|y l IH]; intros [|n] H Hp; try discriminate.
  - cbn in *. injection H as ->. now rewrite Hp.
  - cbn in *. now rewrite (IH n H Hp).
Qed.

Lemma finish_object_read_shape_kept (o s : Z) :
  preserves shape_kept (MediaInput.finish_object_read o s).
Proof.
  intros m r m' H. unfold MediaInput.finish_object_read in H.
  destruct (at_index (_media_objects m) o) as [mo|] eqn:Hmo; cbn [res_bind] in H;
    [|injection H as _ <-; apply shape_kept_refl].
  unfold MediaObject.finish_video_frame_read in H.
  destruct (at_index (mo_video mo) s) as [vs|] eqn:Hvs; cbn [res_bind] in H;
    [|injection H as _ <-; apply shape_kept_refl].
  injection H as _ <-. apply at_index_Ok in Hmo. destruct Hmo as [_ Hmo].
  constructor; cbn; try reflexivity.
  - apply (map_update_nth_same _ _ MediaObject.video_streams _ _ mo); [exact Hmo|].
    unfold MediaObject.video_streams. cbn. now rewrite length_update_nth.
  - apply (map_update_nth_same _ _ MediaObject.audio_streams _ _ mo); [exact Hmo|].
    reflexivity.
Qed.

Lemma finish_video_frame_read_shape_kept :
  preserves shape_kept MediaInput.finish_video_frame_read.
Proof.
  unfold MediaInput.finish_video_frame_read.
  repeat (preserve_step shape_kept_refl shape_kept_trans
          || apply finish_object_read_shape_kept).
Qed.

Lemma run_operation_shape_kept (E : externals) (op : operation) (m : media_input) :
  shape_kept m (run_operation E op m).
Proof.
  destruct op as [pos|l swap|k|k|]; cbn [run_operation].
  - apply tables_stable_shape_kept.
    apply (seek_stable pos m (fst (MediaInput.seek pos m))). apply surjective_pairing.
  - apply tables_stable_shape_kept.
    apply (set_stereo_layout_stable E l swap m
             (fst (MediaInput.set_stereo_layout E l swap m))).
    apply surjective_pairing.
  - apply tables_stable_shape_kept.
    apply (select_video_stream_stable E k m
             (fst (MediaInput.select_video_stream E k m))).
    apply surjective_pairing.
  - apply tables_stable_shape_kept.
    apply (select_audio_stream_stable k m (fst (MediaInput.select_audio_stream k m))).
    apply surjective_pairing.
  - apply (finish_video_frame_read_shape_kept m
             (fst (MediaInput.finish_video_frame_read m))).
    apply surjective_pairing.
Qed.

Lemma get_stream_loop_counts (count : media_object -> Z)
    (a b : list media_object) (i g : Z) :
  map count a = map count b ->
  MediaInput.get_stream_loop count a i g = MediaInput.get_stream_loop count b i g.
Proof.
  revert b i g. induction a as [|x a IH]; intros [|y b] i g H; try discriminate;
    [reflexivity|].
  cbn in H. injection H as Hxy Hab. cbn. rewrite Hxy. now rewrite (IH b _ _ Hab).
Qed.

(** X19.  Seeking, changing the layout, selecting streams and reading
    frames, in any number and order and whether they succeed or fail, never
    renumber the streams: the stream counts, the id, the tags, the duration
    and the initial skip stay what they are, and every global index resolves
    to the same media object and local stream as before. *)
Theorem operations_keep_stream_indices
    (E : externals) (ops : list operation) (m : media_input) :
  let m' := fold_left (fun m op => run_operation E op m) ops m in
  shape_kept m m'
  /\ MediaInput.video_streams m' = MediaInput.video_streams m
  /\ MediaInput.audio_streams m' = MediaInput.audio_streams m
  /\ MediaInput.duration m' = MediaInput.duration m
  /\ (forall g, MediaInput.get_video_stream m' g = MediaInput.get_video_stream m g)
  /\ (forall g, MediaInput.get_audio_stream m' g = MediaInput.get_audio_stream m g).
Proof.
  cbv zeta.
  assert (Hkept : shape_kept m (fold_left (fun m op => run_operation E op m) ops m)).
  { revert m. induction ops as [|op ops IH]; intros m; [apply shape_kept_refl|].
    cbn [fold_left]. eapply shape_kept_trans; [apply run_operation_shape_kept|apply IH]. }
  split; [exact Hkept|].
  destruct Hkept as [_ _ _ Hv Ha _ _ Hd Hcv Hca].
  unfold MediaInput.get_video_stream, MediaInput.get_audio_stream,
    MediaInput.video_streams, MediaInput.audio_streams, MediaInput.duration.
  rewrite Hv, Ha, Hd. repeat split.
  - intros g. now rewrite (get_stream_loop_counts _ _ _ 0 g Hcv).
  - intros g. now rewrite (get_stream_loop_counts _ _ _ 0 g Hca).
Qed.

(** ** Stream names *)

Lemma nth_error_indexed_map (A B : Type) (f : Z -> A -> B) (l : list A) (j : Z) (n : nat) :
  nth_error (map (fun '(k, x) => f k x) (indexed_from j l)) n
  = option_map (f (j + Z.of_nat n)) (nth_error l n).
Proof.
  revert j n. induction l as [|x l IH]; intros j [|n]; try reflexivity.
  - cbn. now rewrite Z.add_0_r.
  - cbn [indexed_from map nth_error]. rewrite IH. do 2 f_equal. lia.
Qed.

(** The label that the gathering loops give to the stream at the place [g]
    of the table of index pairs. *)
Lemma gathered_nth (A B : Type) (streams : media_object -> list A)
    (label : Z -> media_object -> Z -> A -> B)
    (objs : list media_object) (k : Z) (g : nat) (o s : Z) :
  nth_error (stream_pairs_from streams k objs) g = Some (o, s) ->
  exists mo x,
    nth_error objs (Z.to_nat (o - k)) = Some mo
    /\ nth_error (streams mo) (Z.to_nat s) = Some x
    /\ nth_error
         (flat_map (fun '(i, mo) =>
                      map (fun '(j, x) => label i mo j x) (indexed_from 0 (streams mo)))
                   (indexed_from k objs)) g
       = Some (label o mo s x).
Proof.
  revert k g. induction objs as [|mo objs IH]; intros k g H.
  - now destruct g.
  - unfold stream_pairs_from in H. cbn in H.
    fold (stream_pairs_from streams (k + 1) objs) in H.
    cbn [indexed_from flat_map].
    destruct (Nat.lt_ge_cases g (List.length (streams mo))) as [Hlt|Hge].
    + rewrite nth_error_app1 in H by (rewrite length_map, length_zrange; lia).
      rewrite nth_error_map, nth_error_zrange in H by lia.
      cbn in H. injection H as <- <-.
      destruct (nth_error (streams mo) g) as [x|] eqn:Hx;
        [|apply nth_error_None in Hx; lia].
      exists mo, x. rewrite Z.sub_diag, Nat2Z.id. repeat split; auto.
      rewrite nth_error_app1 by (rewrite (length_indexed_map _ _ (label k mo)); lia).
      rewrite (nth_error_indexed_map _ _ (label k mo)), Hx. reflexivity.
    + rewrite nth_error_app2 in H by (rewrite length_map, length_zrange; lia).
      rewrite length_map, length_zrange in H.
      pose proof (stream_pairs_from_flattened _ _ _ _ _ _ H) as (Ho & _).
      destruct (IH _ _ H) as (mo' & x & Hmo & Hx & Hnth).
      exists mo', x.
      replace (Z.to_nat (o - k)) with (S (Z.to_nat (o - (k + 1)))) by lia.
      repeat split; auto.
      rewrite nth_error_app2 by (rewrite (length_indexed_map _ _ (label k mo)); lia).
      rewrite (length_indexed_map _ _ (label k mo)). exact Hnth.
Qed.

Lemma video_labels_statics (F : Z -> nat -> Z -> video_frame -> string)
    (a b : list media_object) (k : Z) :
  statics a = statics b ->
  flat_map (fun '(i, mo) =>
              map (fun '(j, vs) => F i (List.length (mo_video mo)) j (vs_template vs))
                  (indexed_from 0 (mo_video mo)))
           (indexed_from k a)
  = flat_map (fun '(i, mo) =>
                map (fun '(j, vs) => F i (List.length (mo_video mo)) j (vs_template vs))
                    (indexed_from 0 (mo_video mo)))
             (indexed_from k b).
Proof.
  revert b k. induction a as [|x a IH]; intros [|y b] k H; try discriminate;
    [reflexivity|].
  apply statics_cons_inv in H. destruct H as (Hv & _ & Hab).
  cbn [indexed_from flat_map]. rewrite (IH b _ Hab). f_equal.
  assert (Hlen : List.length (mo_video x) = List.length (mo_video y)).
  { apply (f_equal (@List.length _)) in Hv. now rewrite !length_map in Hv. }
  rewrite Hlen. generalize (List.length (mo_video y)) as n. intros n.
  generalize 0. revert Hv. generalize (mo_video y) as w. generalize (mo_video x) as v.
  clear. induction v as [|vs v IHv]; intros [|ws w] Hv j; try discriminate;
    [reflexivity|].
  cbn in Hv. injection Hv as Hvs _ _ _ _ Hrest.
  cbn. rewrite (IHv w Hrest). now rewrite Hvs.
Qed.

(** X21.  After a successful [open] the table of video stream names is
    aligned with the flattened indices: the name at a global index is made
    of the ordinal prefix of the media object and the ordinal prefix of the
    local stream that [get_video_stream] resolves the index to (each prefix
    empty when there is only one), followed by the format information of that
    stream's template. *)
Theorem open_video_stream_names_aligned
    (E : externals) (urls : list string) (b : bool) (st : media_input) (g : Z) :
  MediaInput.open E urls (MediaInput.new b) = (Ok tt, st) ->
  0 <= g < MediaInput.video_streams st ->
  exists o s mo t,
    MediaInput.get_video_stream st g = Ok (o, s)
    /\ at_index (_media_objects st) o = Ok mo
    /\ MediaObject.video_frame_template mo s = Ok t
    /\ at_index (_video_stream_names st) g
       = Ok (MediaInput.pfx (List.length (_media_objects st)) o
             ++ MediaInput.pfx (List.length (mo_video mo)) s
             ++ video_format_info E t)%string.
Proof.
  intros H Hg.
  pose proof (open_tables E urls b st H) as [Htotal _].
  apply open_gathered in H.
  destruct H as (objs & id & skip & _ & _ & _ & [_ _ _ Hv _ _ _ _ Hst] & _ & _).
  cbn in Hv, Hst.
  assert (Hlen : List.length objs = List.length (_media_objects st)).
  { apply (f_equal (@List.length _)) in Hst. unfold statics in Hst.
    now rewrite !length_map in Hst. }
  assert (Hnames : _video_stream_names st
                   = MediaInput.gathered_video_stream_names E (_media_objects st)).
  { rewrite Hv. unfold MediaInput.gathered_video_stream_names. rewrite Hlen.
    symmetry.
    apply (video_labels_statics
             (fun i n j t =>
                (MediaInput.pfx (List.length (_media_objects st)) i
                 ++ MediaInput.pfx n j ++ video_format_info E t)%string)
             _ _ 0 Hst). }
  destruct (get_video_stream_flattened st g Htotal Hg)
    as (o & s & mo & vs & Hget & Hp & Hmo & Hvs & _).
  exists o, s, mo, (vs_template vs).
  split; [exact Hget|]. split; [exact Hmo|]. split.
  { unfold MediaObject.video_frame_template. now rewrite Hvs. }
  destruct (gathered_nth _ _ mo_video
              (fun i mo j vs =>
                 (MediaInput.pfx (List.length (_media_objects st)) i
                  ++ MediaInput.pfx (List.length (mo_video mo)) j
                  ++ video_format_info E (vs_template vs))%string)
              _ 0 _ o s Hp) as (mo' & vs' & Hmo' & Hvs' & Hnth).
  rewrite Z.sub_0_r in Hmo'.
  apply at_index_Ok in Hmo, Hvs. destruct Hmo as [_ Hmo], Hvs as [_ Hvs].
  assert (mo' = mo) by congruence. subst mo'.
  assert (vs' = vs) by congruence. subst vs'.
  apply at_index_Ok. split; [lia|].
  rewrite Hnames. exact Hnth.
Qed.

Lemma open_video_stream_names_aligned_witness :
  exists o s mo t,
    MediaInput.get_video_stream example_pair 1 = Ok (o, s)
    /\ at_index (_media_objects example_pair) o = Ok mo
    /\ MediaObject.video_frame_template mo s = Ok t
    /\ at_index (_video_stream_names example_pair) 1
       = Ok (MediaInput.pfx (List.length (_media_objects example_pair)) o
             ++ MediaInput.pfx (List.length (mo_video mo)) s
             ++ video_format_info example_externals t)%string.
Proof.
  apply (open_video_stream_names_aligned example_externals example_pair_urls false).
  - vm_compute. reflexivity.
  - vm_compute. split; [discriminate|reflexivity].
Defined.

(** ** Switching to the separate layout *)

(** X22.  [set_stereo_layout] to the separate layout does not by itself
    activate the second video stream; a following [select_video_stream] with
    any valid index does.  When the separate layout is supported,
    [set_view_dimensions] leaves the layout of a format alone, and every
    media object can seek to the position of the media object of the active
    stream (where that position is known), the two calls succeed one after
    the other, and after them the layout is separate, every video stream of
    every media object is active, and the active indices are the ones from
    before. *)
Theorem set_stereo_layout_separate_then_select
    (E : externals) (m : media_input) (swap : bool) (k o s : Z) (mo : media_object) :
  (forall f, stereo_layout (set_view_dimensions E f) = stereo_layout f) ->
  MediaInput.stereo_layout_is_supported m separate swap = Ok true ->
  MediaInput.get_video_stream m (_active_video_stream m) = Ok (o, s) ->
  at_index (_media_objects m) o = Ok mo ->
  (INT64_MIN < MediaObject.tell mo ->
   forallb (fun x => mo_seekable x (MediaObject.tell mo)) (_media_objects m) = true) ->
  0 <= k < MediaInput.video_streams m ->
  exists m1 m2,
    MediaInput.set_stereo_layout E separate swap m = (Ok tt, m1)
    /\ active_video_flags (_media_objects m1) = active_video_flags (_media_objects m)
    /\ MediaInput.select_video_stream E k m1 = (Ok tt, m2)
    /\ stereo_layout (_video_frame m2) = separate
    /\ Forall (fun b => b = true) (active_video_flags (_media_objects m2))
    /\ _active_video_stream m2 = _active_video_stream m
    /\ _active_audio_stream m2 = _active_audio_stream m.
Proof.
  intros Hview Hsup Hget Hmo Hseek Hk.
  destruct (stereo_layout_is_supported_true m separate swap Hsup)
    as (o' & s' & mo' & t & Hget' & Hmo' & Ht).
  assert (o' = o /\ s' = s) as [-> ->] by (split; congruence).
  assert (mo' = mo) as -> by congruence.
  assert (Hrun : exists objs,
             MediaInput.set_stereo_layout E separate swap m
             = (Ok tt,
                MediaInput.set_media_objects
                  (MediaInput.set_video_frame m (layout_format E t separate swap))
                  objs)).
  { rewrite (set_stereo_layout_run E m separate swap o s mo t Hsup Hget Hmo Ht).
    cbn [stereo_layout_eqb andb].
    destruct (Z.ltb_spec INT64_MIN (MediaObject.tell mo)) as [Hpos|_].
    - unfold MediaInput.seek. cbn [_media_objects MediaInput.set_video_frame].
      rewrite (seek_media_objects_all _ _ (Hseek Hpos)). eexists. reflexivity.
    - exists (_media_objects m). now destruct m. }
  destruct Hrun as [objs Hrun].
  pose proof (set_stereo_layout_streams_kept E separate swap m _ _ Hrun)
    as [Hv _ _ _ _].
  eexists. eexists. split; [exact Hrun|]. split.
  { unfold active_video_flags. now rewrite (flattened_map _ mo_video _ _ Hv). }
  split.
  { apply select_video_stream_separate_run; [|exact Hk].
    cbn [_video_frame MediaInput.set_media_objects MediaInput.set_video_frame].
    unfold layout_format. now rewrite Hview. }
  cbn [_video_frame _media_objects _active_video_stream _active_audio_stream
       MediaInput.set_media_objects MediaInput.set_video_frame].
  split; [unfold layout_format; now rewrite Hview|].
  split; [apply active_video_flags_activate_all|].
  split; reflexivity.
Qed.

Lemma set_stereo_layout_separate_then_select_witness :
  exists m1 m2,
    MediaInput.set_stereo_layout example_externals separate false example_pair_second
    = (Ok tt, m1)
    /\ active_video_flags (_media_objects m1)
       = active_video_flags (_media_objects example_pair_second)
    /\ MediaInput.select_video_stream example_externals 0 m1 = (Ok tt, m2)
    /\ stereo_layout (_video_frame m2) = separate
    /\ Forall (fun b => b = true) (active_video_flags (_media_objects m2))
    /\ _active_video_stream m2 = _active_video_stream example_pair_second
    /\ _active_audio_stream m2 = _active_audio_stream example_pair_second.
Proof.
  apply (set_stereo_layout_separate_then_select example_externals example_pair_second
           false 0 1 0
           (MediaObject.set_mo_video example_right
              (map (MediaObject.set_vs_active true) (mo_video example_right)))).
  - intros f. reflexivity.
  - vm_compute. reflexivity.
  - vm_compute. reflexivity.
  - vm_compute. reflexivity.
  - intros _. vm_compute. reflexivity.
  - vm_compute. split; [discriminate|reflexivity].
Defined.

(** ** Opening again *)

Lemma open_media_objects_run (E : externals) (urls : list string)
    (objs0 objs : list media_object) :
  List.length objs0 = List.length urls ->
  Forall2 (fun u mo => media_object_open E u = Some mo) urls objs ->
  MediaInput.open_media_objects E urls objs0 = (Ok tt, objs).
Proof.
  intros Hlen H. revert objs0 Hlen.
  induction H as [|u mo urls objs Hu _ IH]; intros [|mo0 objs0] Hlen;
    try discriminate Hlen.
  - reflexivity.
  - cbn. rewrite Hu. rewrite (IH objs0) by (cbn in Hlen; lia). reflexivity.
Qed.

(** [open] up to the detection of the stereo layout, run forwards. *)
Lemma open_from_gathered (E : externals) (urls : list string) (m : media_input)
    (objs : list media_object) (id skip : string) :
  urls <> [] ->
  Forall2 (fun u mo => media_object_open E u = Some mo) urls objs ->
  MediaInput.construct_id objs = Ok id ->
  MediaInput.tag_value_loop
    (_tag_names m ++ MediaInput.gathered_tag_names objs)
    (_tag_values m ++ MediaInput.gathered_tag_values objs)
    "StereoscopicSkip" = Ok skip ->
  MediaInput.open E urls m
  = MediaInput.bind (MediaInput.find_stereo_layout E)
      (fun _ => MediaInput.bind MediaInput.set_active_audio
                  (fun _ => MediaInput.read MediaInput.print_summary))
      (gathered_input E m objs id skip).
Proof.
  intros Hne Hopen Hid Hskip.
  assert (Hpos : (0 <? List.length urls)%nat = true).
  { destruct urls; [contradiction|reflexivity]. }
  unfold MediaInput.open.
  unfold MediaInput.bind at 1, MediaInput.assert, MediaInput.read at 1.
  rewrite Hpos. cbn [guard].
  unfold MediaInput.bind at 1, MediaInput.modify at 1.
  unfold MediaInput.bind at 1.
  cbn [_media_objects MediaInput.set_media_objects].
  rewrite (open_media_objects_run E urls _ objs (length_resize _ _) Hopen).
  unfold MediaInput.bind at 1, MediaInput.read at 1.
  cbn [_media_objects MediaInput.set_media_objects]. rewrite Hid.
  do 4 (unfold MediaInput.bind at 1, MediaInput.modify at 1).
  unfold MediaInput.bind at 1, MediaInput.read at 1.
  unfold MediaInput.tag_value.
  cbn [_tag_names _tag_values _media_objects
       MediaInput.set_media_objects MediaInput.set_id MediaInput.set_tags
       MediaInput.set_stream_names MediaInput.set_duration].
  rewrite Hskip.
  unfold MediaInput.bind at 1, MediaInput.modify at 1.
  f_equal. unfold gathered_input.
  destruct (str_to_int64 E skip); reflexivity.
Qed.

(** X20.  Neither the constructor nor [close] gives
    [_supports_stereo_layout_separate] a value, but [open] never reads the
    value it finds: an input that was closed opens exactly like a freshly
    constructed one, with the same resulting input, whatever it held before
    it was closed. *)
Theorem open_after_close
    (E : externals) (urls : list string) (b : bool) (m0 st : media_input) :
  MediaInput.open E urls (MediaInput.new b) = (Ok tt, st) ->
  MediaInput.open E urls (snd (MediaInput.close m0)) = (Ok tt, st).
Proof.
  intros H. apply open_phases in H.
  destruct H as (objs & id & skip & m2 & m3 & Hopen & Hne & Hid & Hskip & Hdetect
                 & Hvideo & Haudio & Hsummary).
  rewrite (open_from_gathered E urls (snd (MediaInput.close m0)) objs id skip
             Hne Hopen Hid Hskip).
  unfold MediaInput.bind at 1, MediaInput.find_stereo_layout.
  unfold MediaInput.bind at 1.
  change (MediaInput.detect_stereo_layout_separate
            (gathered_input E (snd (MediaInput.close m0)) objs id skip))
    with (MediaInput.detect_stereo_layout_separate
            (gathered_input E (MediaInput.new b) objs id skip)).
  rewrite Hdetect, Hvideo.
  unfold MediaInput.bind at 1. rewrite Haudio.
  unfold MediaInput.read. now rewrite Hsummary.
Qed.

Lemma open_after_close_witness :
  MediaInput.open example_externals example_pair_urls
    (snd (MediaInput.close example_mixed_second))
  = (Ok tt, example_pair).
Proof.
  apply (open_after_close example_externals example_pair_urls false
           example_mixed_second example_pair).
  vm_compute. reflexivity.
Defined.

(** ** Opening an input that is not closed *)

Lemma tables_kept_refl (m : media_input) : tables_kept m m.
Proof. repeat split. Qed.

Lemma tables_kept_trans (a b c : media_input) :
  tables_kept a b -> tables_kept b c -> tables_kept a c.
Proof. intros (? & ? & ? & ?) (? & ? & ? & ?). repeat split; congruence. Qed.

(** X17.  [open] appends to the tag tables and to the tables of stream
    names without clearing them: when every locator opens, the tables are
    afterwards what the input held before the call followed by the entries
    gathered from the opened media objects, whatever else the call does and
    however it ends.  On an input that was opened and not closed, the
    entries of the earlier [open] stay in front of the new ones, and
    [tags()] counts both. *)
Theorem open_appends_to_tables
    (E : externals) (urls : list string) (objs : list media_object)
    (m st : media_input) (r : res unit) :
  urls <> [] ->
  Forall2 (fun u mo => media_object_open E u = Some mo) urls objs ->
  MediaInput.open E urls m = (r, st) ->
  _tag_names st = _tag_names m ++ MediaInput.gathered_tag_names objs
  /\ _tag_values st = _tag_values m ++ MediaInput.gathered_tag_values objs
  /\ _video_stream_names st
     = _video_stream_names m ++ MediaInput.gathered_video_stream_names E objs
  /\ _audio_stream_names st
     = _audio_stream_names m ++ MediaInput.gathered_audio_stream_names E objs
  /\ MediaInput.tags st
     = MediaInput.tags m + Z.of_nat (List.length (List.concat (map mo_tags objs))).
Proof.
  intros Hne Hopen H.
  assert (Hpos : (0 <? List.length urls)%nat = true).
  { destruct urls; [contradiction|reflexivity]. }
  assert (Hid : exists id, MediaInput.construct_id objs = Ok id).
  { destruct Hopen; [contradiction|]. eexists. reflexivity. }
  destruct Hid as [id Hid].
  unfold MediaInput.open in H.
  unfold MediaInput.bind at 1, MediaInput.assert, MediaInput.read at 1 in H.
  rewrite Hpos in H. cbn [guard] in H.
  unfold MediaInput.bind at 1, MediaInput.modify at 1 in H.
  unfold MediaInput.bind at 1 in H.
  cbn [_media_objects MediaInput.set_media_objects] in H.
  rewrite (open_media_objects_run E urls _ objs (length_resize _ _) Hopen) in H.
  unfold MediaInput.bind at 1, MediaInput.read at 1 in H.
  cbn [_media_objects MediaInput.set_media_objects] in H. rewrite Hid in H.
  do 4 (unfold MediaInput.bind at 1, MediaInput.modify at 1 in H).
  cbn [_tag_names _tag_values _video_stream_names _audio_stream_names _media_objects
       MediaInput.set_media_objects MediaInput.set_id MediaInput.set_tags
       MediaInput.set_stream_names MediaInput.set_duration] in H.
  assert (Hkept : tables_kept
                    (MediaInput.set_duration
                       (MediaInput.set_stream_names
                          (MediaInput.set_tags
                             (MediaInput.set_id (MediaInput.set_media_objects m objs) id)
                             (_tag_names m ++ MediaInput.gathered_tag_names objs)
                             (_tag_values m ++ MediaInput.gathered_tag_values objs))
                          (_video_stream_names m
                           ++ MediaInput.gathered_video_stream_names E objs)
                          (_audio_stream_names m
                           ++ MediaInput.gathered_audio_stream_names E objs))
                       (MediaInput.duration_information objs))
                    st).
  { match type of H with
    | ?c _ = _ => assert (Hc : preserves tables_kept c)
    end.
    { unfold MediaInput.find_stereo_layout, MediaInput.detect_stereo_layout_separate,
        MediaInput.set_active_video, MediaInput.select_video_stream,
        MediaInput.set_stereo_layout, MediaInput.set_active_audio,
        MediaInput.select_audio_stream.
      repeat (preserve_step tables_kept_refl tables_kept_trans
              || (apply preserves_seek; intros ?; repeat split)
              || (apply preserves_modify; intros ?;
                  try match goal with
                      | |- context [str_to_int64 ?E ?x] => destruct (str_to_int64 E x)
                      end;
                  repeat split)). }
    exact (Hc _ _ _ H). }
  destruct Hkept as (Hn & Hv & Hvn & Han). cbn in Hn, Hv, Hvn, Han.
  repeat (split; [assumption|]).
  unfold MediaInput.tags. rewrite Hn, length_app, Nat2Z.inj_add.
  f_equal. f_equal. unfold MediaInput.gathered_tag_names.
  apply length_gathered_tags.
Qed.

Lemma open_appends_to_tables_witness :
  _tag_names (snd (MediaInput.open example_externals example_pair_urls example_pair))
  = _tag_names example_pair
    ++ MediaInput.gathered_tag_names [example_left; example_right]
  /\ _tag_values (snd (MediaInput.open example_externals example_pair_urls example_pair))
     = _tag_values example_pair
       ++ MediaInput.gathered_tag_values [example_left; example_right]
  /\ _video_stream_names
       (snd (MediaInput.open example_externals example_pair_urls example_pair))
     = _video_stream_names example_pair
       ++ MediaInput.gathered_video_stream_names example_externals
            [example_left; example_right]
  /\ _audio_stream_names
       (snd (MediaInput.open example_externals example_pair_urls example_pair))
     = _audio_stream_names example_pair
       ++ MediaInput.gathered_audio_stream_names example_externals
            [example_left; example_right]
  /\ MediaInput.tags
       (snd (MediaInput.open example_externals example_pair_urls example_pair))
     = MediaInput.tags example_pair
       + Z.of_nat (List.length (List.concat (map mo_tags [example_left; example_right]))).
Proof.
  apply (open_appends_to_tables example_externals example_pair_urls
           [example_left; example_right] example_pair _
           (fst (MediaInput.open example_externals example_pair_urls example_pair))).
  - discriminate.
  - repeat constructor.
  - apply surjective_pairing.
Defined.

(** ** The active indices stay valid *)

Lemma actives_kept_refl (m : media_input) : actives_kept m m.
Proof. now split. Qed.

Lemma actives_kept_trans (a b c : media_input) :
  actives_kept a b -> actives_kept b c -> actives_kept a c.
Proof. intros [] []. split; congruence. Qed.

Lemma set_stereo_layout_actives_kept (E : externals) (l : stereo_layout_t) (swap : bool) :
  preserves actives_kept (MediaInput.set_stereo_layout E l swap).
Proof.
  intros m r m' H. apply set_stereo_layout_streams_kept in H.
  destruct H as [_ _ Hv Ha _]. now split.
Qed.

Lemma finish_object_read_actives_kept (o s : Z) :
  preserves actives_kept (MediaInput.finish_object_read o s).
Proof.
  intros m r m' H. unfold MediaInput.finish_object_read in H.
  destruct (at_index (_media_objects m) o) as [mo|]; cbn [res_bind] in H;
    [|injection H as _ <-; apply actives_kept_refl].
  destruct (MediaObject.finish_video_frame_read mo s) as [[f mo']|];
    injection H as _ <-; now split.
Qed.

Ltac actives :=
  repeat (preserve_step actives_kept_refl actives_kept_trans
          || apply set_stereo_layout_actives_kept
          || apply finish_object_read_actives_kept
          || (apply preserves_modify; intros ?; split; reflexivity)).

(** [select_video_stream] leaves the active video index, or makes it the
    index it was given, which is then below the number of video streams. *)
Lemma select_video_stream_actives (E : externals) (k : Z) (m m' : media_input)
    (r : res unit) :
  MediaInput.select_video_stream E k m = (r, m') ->
  _active_audio_stream m' = _active_audio_stream m
  /\ (_active_video_stream m' = _active_video_stream m
      \/ (_active_video_stream m' = k /\ 0 <= k < MediaInput.video_streams m)).
Proof.
  intros H. unfold MediaInput.select_video_stream in H.
  unfold MediaInput.bind at 1, MediaInput.assert, MediaInput.read at 1 in H.
  destruct (Z.leb_spec 0 k); cbn [guard] in H;
    [|injection H as _ <-; auto].
  unfold MediaInput.bind at 1, MediaInput.read at 1 in H.
  destruct (Z.ltb_spec k (MediaInput.video_streams m)); cbn [guard] in H;
    [|injection H as _ <-; auto].
  unfold MediaInput.bind at 1, MediaInput.read at 1 in H.
  destruct (stereo_layout_eqb (stereo_layout (_video_frame m)) separate).
  - injection H as _ <-. auto.
  - do 2 (unfold MediaInput.bind at 1, MediaInput.read at 1 in H).
    unfold MediaInput.bind at 1, MediaInput.modify at 1 in H.
    assert (Hrest : actives_kept (MediaInput.set_active_video_stream m k) m').
    { match type of H with
      | ?c _ = _ => assert (Hc : preserves actives_kept c) by actives
      end.
      exact (Hc _ _ _ H). }
    destruct Hrest as [Hv Ha]. cbn in Hv, Ha. split; [exact Ha|]. right. lia.
Qed.

Lemma select_audio_stream_actives (k : Z) (m m' : media_input) (r : res unit) :
  MediaInput.select_audio_stream k m = (r, m') ->
  _active_video_stream m' = _active_video_stream m
  /\ (_active_audio_stream m' = _active_audio_stream m
      \/ (_active_audio_stream m' = k /\ 0 <= k < MediaInput.audio_streams m)).
Proof.
  intros H. unfold MediaInput.select_audio_stream in H.
  unfold MediaInput.bind at 1, MediaInput.assert, MediaInput.read at 1 in H.
  destruct (Z.leb_spec 0 k); cbn [guard] in H;
    [|injection H as _ <-; auto].
  unfold MediaInput.bind at 1, MediaInput.read at 1 in H.
  destruct (Z.ltb_spec k (MediaInput.audio_streams m)); cbn [guard] in H;
    [|injection H as _ <-; auto].
  unfold MediaInput.bind at 1, MediaInput.modify at 1 in H.
  assert (Hrest : actives_kept (MediaInput.set_active_audio_stream m k) m').
  { match type of H with
    | ?c _ = _ => assert (Hc : preserves actives_kept c) by actives
    end.
    exact (Hc _ _ _ H). }
  destruct Hrest as [Hv Ha]. cbn in Hv, Ha. split; [exact Hv|]. right. lia.
Qed.

Lemma run_operation_valid_selection (E : externals) (op : operation) (m : media_input) :
  valid_selection m -> valid_selection (run_operation E op m).
Proof.
  intros [Hv Ha].
  pose proof (run_operation_shape_kept E op m) as [_ _ _ Hvn Han _ _ _ _ _].
  unfold valid_selection, MediaInput.video_streams, MediaInput.audio_streams in *.
  rewrite Hvn, Han. clear Hvn Han.
  destruct op as [pos|l swap|k|k|]; cbn [run_operation].
  - destruct (seek_streams_kept pos m (fst (MediaInput.seek pos m))
                (snd (MediaInput.seek pos m)))
      as [_ _ -> -> _]; [apply surjective_pairing|auto].
  - destruct (set_stereo_layout_actives_kept E l swap m
                (fst (MediaInput.set_stereo_layout E l swap m))
                (snd (MediaInput.set_stereo_layout E l swap m)))
      as [-> ->]; [apply surjective_pairing|auto].
  - destruct (select_video_stream_actives E k m
                (snd (MediaInput.select_video_stream E k m))
                (fst (MediaInput.select_video_stream E k m)))
      as [-> [-> | [-> Hk]]]; [apply surjective_pairing| |]; auto.
  - destruct (select_audio_stream_actives k m
                (snd (MediaInput.select_audio_stream k m))
                (fst (MediaInput.select_audio_stream k m)))
      as [-> [-> | [-> Hk]]]; [apply surjective_pairing| |]; auto.
    split; [auto|]. unfold MediaInput.audio_streams in Hk. lia.
  - assert (H : preserves actives_kept MediaInput.finish_video_frame_read).
    { unfold MediaInput.finish_video_frame_read. actives. }
    destruct (H m (fst (MediaInput.finish_video_frame_read m))
                (snd (MediaInput.finish_video_frame_read m)))
      as [-> ->]; [apply surjective_pairing|auto].
Qed.

(** X23.  The active indices stay valid under every sequence of [seek],
    [set_stereo_layout], [select_video_stream], [select_audio_stream] and
    [finish_video_frame_read], with any arguments and whether the calls
    succeed or fail: the active video index stays inside the range of the
    video streams, and the active audio index stays -1 or inside the range
    of the audio streams. *)
Theorem operations_keep_selection_valid
    (E : externals) (ops : list operation) (m : media_input) :
  valid_selection m ->
  valid_selection (fold_left (fun m op => run_operation E op m) ops m).
Proof.
  revert m. induction ops as [|op ops IH]; intros m Hm; [exact Hm|].
  cbn [fold_left]. apply IH. now apply run_operation_valid_selection.
Qed.

Lemma operations_keep_selection_valid_witness :
  valid_selection
    (fold_left (fun m op => run_operation example_externals op m)
       [op_set_stereo_layout mono false; op_select_video_stream 1;
        op_select_video_stream 5; op_select_audio_stream 3;
        op_finish_video_frame_read; op_seek 40000]
       example_pair).
Proof.
  apply (operations_keep_selection_valid example_externals).
  vm_compute. repeat split; discriminate.
Defined.

(** * Flattened stream indices of an opened input (C1) *)

Lemma bind_run (A B : Type) (c : MediaInput.M A) (k : A -> MediaInput.M B)
    (m m1 : media_input) (a : A) :
  c m = (Ok a, m1) -> MediaInput.bind c k m = k a m1.
Proof. intros H. unfold MediaInput.bind. now rewrite H. Qed.

Lemma for_each_all (l : list Z) (body : Z -> res unit) :
  (forall i, In i l -> body i = Ok tt) -> MediaInput.for_each l body = Ok tt.
Proof.
  induction l as [|x l IH]; intros H; [reflexivity|].
  cbn. rewrite (H x) by (left; reflexivity). cbn. apply IH.
  intros i Hi. apply H. now right.
Qed.

Lemma Forall2_opened_unique (E : externals) (urls : list string)
    (objs objs' : list media_object) :
  Forall2 (fun u mo => media_object_open E u = Some mo) urls objs ->
  Forall2 (fun u mo => media_object_open E u = Some mo) urls objs' ->
  objs' = objs.
Proof.
  intros H. revert objs'. induction H as [|u mo urls objs Hu _ IH]; intros objs' H';
    inversion H' as [|? mo' ? rest Hu' Hrest]; subst; [reflexivity|].
  f_equal; [congruence|now apply IH].
Qed.

(** The stream counts follow the tables along [tables_stable]. *)
Lemma tables_stable_totals (m m' : media_input) :
  tables_stable m m' ->
  MediaInput.video_streams m = stream_total mo_video (_media_objects m) ->
  MediaInput.audio_streams m = stream_total mo_audio (_media_objects m) ->
  MediaInput.video_streams m' = stream_total mo_video (_media_objects m')
  /\ MediaInput.audio_streams m' = stream_total mo_audio (_media_objects m').
Proof.
  intros [_ _ _ Hv Ha _ _ _ Hst] Htv Hta.
  unfold MediaInput.video_streams, MediaInput.audio_streams in *.
  rewrite Hv, Ha, Htv, Hta.
  now rewrite (stream_total_video_statics _ _ Hst), (stream_total_audio_statics _ _ Hst).
Qed.

(** The detection never fails on an input whose tables are in step with
    its media objects. *)
Lemma detect_stereo_layout_separate_run (m : media_input) :
  MediaInput.video_streams m = stream_total mo_video (_media_objects m) ->
  MediaInput.detect_stereo_layout_separate m
  = (Ok tt,
     MediaInput.set_supports_stereo_layout_separate m
       match all_video_templates (_media_objects m) with
       | [t0; t1] => MediaInput.templates_match t0 t1
       | _ => false
       end).
Proof.
  intros Htotal.
  pose proof (length_flattened mo_video (_media_objects m)) as Hlen.
  rewrite <- Htotal in Hlen.
  assert (Hlen' : Z.of_nat (List.length (all_video_templates (_media_objects m)))
                  = MediaInput.video_streams m)
    by (unfold all_video_templates; now rewrite length_map).
  set (m0 := MediaInput.set_supports_stereo_layout_separate m false).
  unfold MediaInput.detect_stereo_layout_separate.
  unfold MediaInput.bind at 1, MediaInput.modify at 1. fold m0.
  unfold MediaInput.bind at 1, MediaInput.read at 1.
  change (MediaInput.video_streams m0) with (MediaInput.video_streams m).
  destruct (Z.eqb_spec (MediaInput.video_streams m) 2) as [H2|Hn2].
  - destruct (template_at_flattened m0 0 Htotal ltac:(change (MediaInput.video_streams m0) with (MediaInput.video_streams m); lia))
      as (t0 & Hn0 & Ht0).
    destruct (template_at_flattened m0 1 Htotal ltac:(change (MediaInput.video_streams m0) with (MediaInput.video_streams m); lia))
      as (t1 & Hn1 & Ht1).
    unfold MediaInput.bind at 1, MediaInput.read at 1. rewrite Ht0.
    unfold MediaInput.bind at 1, MediaInput.read at 1. rewrite Ht1.
    change (_media_objects m0) with (_media_objects m) in Hn0, Hn1.
    destruct (all_video_templates (_media_objects m)) as [|x [|y [|z l]]];
      cbn in Hlen'; try lia.
    cbn in Hn0, Hn1. injection Hn0 as ->. injection Hn1 as ->.
    destruct (MediaInput.templates_match t0 t1); reflexivity.
  - destruct (all_video_templates (_media_objects m)) as [|x [|y [|z l]]];
      cbn in Hlen'; try reflexivity. lia.
Qed.

(** [stereo_layout_is_supported] in terms of the template of the active
    stream. *)
Lemma stereo_layout_is_supported_flattened (m : media_input) (l : stereo_layout_t)
    (swap : bool) :
  MediaInput.video_streams m = stream_total mo_video (_media_objects m) ->
  0 <= _active_video_stream m < MediaInput.video_streams m ->
  exists t,
    nth_error (all_video_templates (_media_objects m))
      (Z.to_nat (_active_video_stream m)) = Some t
    /\ MediaInput.stereo_layout_is_supported m l swap
       = Ok (negb (layout_ruled_out l t (_supports_stereo_layout_separate m))).
Proof.
  intros Htotal Hactive.
  destruct (get_video_stream_flattened m _ Htotal Hactive)
    as (o & s & mo & vs & Hget & _ & Hmo & Hvs & Hflat).
  exists (vs_template vs). split.
  - unfold all_video_templates. now rewrite nth_error_map, Hflat.
  - unfold MediaInput.stereo_layout_is_supported.
    destruct (Z.ltb_spec (MediaInput.video_streams m) 1); [lia|].
    destruct (Z.leb_spec 0 (_active_video_stream m)); [|lia].
    destruct (Z.ltb_spec (_active_video_stream m) (MediaInput.video_streams m)); [|lia].
    cbn. rewrite Hget. cbn. rewrite Hmo. cbn.
    unfold MediaObject.video_frame_template. rewrite Hvs. cbn.
    rewrite <- !Zquot.Zodd_rem.
    destruct l; cbn; rewrite ?orb_false_r; reflexivity.
Qed.

(** [select_video_stream] on the first stream, as [open] calls it. *)
Lemma select_first_video_stream_succeeds (E : externals) (m : media_input)
    (t0 : video_frame) (rest : list video_frame) :
  MediaInput.video_streams m = stream_total mo_video (_media_objects m) ->
  all_video_templates (_media_objects m) = t0 :: rest ->
  stereo_layout (_video_frame m) = separate
  \/ (_supports_stereo_layout_separate m = false
      /\ layout_ruled_out (stereo_layout (_video_frame m)) t0 true = false) ->
  exists m',
    MediaInput.select_video_stream E 0 m = (Ok tt, m')
    /\ (_active_video_stream m = 0 -> _active_video_stream m' = 0).
Proof.
  intros Htotal Htemplates Haccepted.
  assert (Hn : 0 <= 0 < MediaInput.video_streams m).
  { pose proof (length_flattened mo_video (_media_objects m)) as Hlen.
    rewrite <- Htotal in Hlen.
    assert (Hlen' : List.length (all_video_templates (_media_objects m))
                    = List.length (flattened mo_video (_media_objects m)))
      by (unfold all_video_templates; now rewrite length_map).
    rewrite Htemplates in Hlen'. cbn in Hlen'. lia. }
  destruct (stereo_layout_eqb (stereo_layout (_video_frame m)) separate) eqn:Hsep.
  - eexists. split.
    + now apply select_video_stream_separate_run.
    + intros Ha. exact Ha.
  - destruct Haccepted as [Hs|[Hflag Hruled]].
    { rewrite Hs in Hsep. discriminate. }
    set (m1 := MediaInput.set_active_video_stream m 0).
    destruct (stereo_layout_is_supported_flattened m1
                (stereo_layout (_video_frame m)) (stereo_layout_swap (_video_frame m))
                Htotal Hn) as (t & Ht & Hsup).
    cbn [_active_video_stream _media_objects m1
         MediaInput.set_active_video_stream] in Ht.
    change (Z.to_nat 0) with 0%nat in Ht. rewrite Htemplates in Ht.
    cbn in Ht. injection Ht as <-.
    cbn [_supports_stereo_layout_separate m1
         MediaInput.set_active_video_stream] in Hsup.
    rewrite Hflag in Hsup.
    assert (Hfalse : layout_ruled_out (stereo_layout (_video_frame m)) t0 false = false).
    { destruct (stereo_layout (_video_frame m)); cbn in *;
        try assumption; discriminate. }
    rewrite Hfalse in Hsup. cbn [negb] in Hsup.
    destruct (select_video_stream_run E m 0 Hsep Htotal Hn Hsup)
      as (o & s & vs & _ & _ & Hrun).
    eexists. split; [exact Hrun|]. intros _. reflexivity.
Qed.

(** [set_active_video] succeeds where the first layout is accepted. *)
Lemma set_active_video_succeeds (E : externals) (m : media_input)
    (t0 : video_frame) (rest : list video_frame) :
  MediaInput.video_streams m = stream_total mo_video (_media_objects m) ->
  all_video_templates (_media_objects m) = t0 :: rest ->
  _supports_stereo_layout_separate m = true
  \/ layout_ruled_out (stereo_layout t0) t0 true = false ->
  exists m',
    MediaInput.set_active_video E m = (Ok tt, m') /\ _active_video_stream m' = 0.
Proof.
  intros Htotal Htemplates Haccepted.
  assert (Hn : 0 <= 0 < MediaInput.video_streams m).
  { pose proof (length_flattened mo_video (_media_objects m)) as Hlen.
    rewrite <- Htotal in Hlen.
    assert (Hlen' : List.length (all_video_templates (_media_objects m))
                    = List.length (flattened mo_video (_media_objects m)))
      by (unfold all_video_templates; now rewrite length_map).
    rewrite Htemplates in Hlen'. cbn in Hlen'. lia. }
  set (m0 := MediaInput.set_active_video_stream m 0).
  destruct (template_at_flattened m0 0 Htotal Hn) as (t & Hnth & Ht).
  cbn [_media_objects m0 MediaInput.set_active_video_stream] in Hnth.
  change (Z.to_nat 0) with 0%nat in Hnth. rewrite Htemplates in Hnth.
  cbn in Hnth. injection Hnth as <-.
  set (f := if _supports_stereo_layout_separate m
            then with_stereo_layout t0 separate else t0).
  set (m1 := MediaInput.set_video_frame m0 f).
  assert (Hfirst : (if _supports_stereo_layout_separate m
                    then
                      MediaInput.bind
                        (MediaInput.modify
                           (fun m => MediaInput.set_active_video_stream m 0))
                        (fun _ =>
                           MediaInput.bind
                             (MediaInput.read
                                (fun m =>
                                   MediaInput.template_at m (_active_video_stream m)))
                             (fun t =>
                                MediaInput.modify
                                  (fun m =>
                                     MediaInput.set_video_frame m
                                       (with_stereo_layout t separate))))
                    else if 0 <? MediaInput.video_streams m
                    then
                      MediaInput.bind
                        (MediaInput.modify
                           (fun m => MediaInput.set_active_video_stream m 0))
                        (fun _ =>
                           MediaInput.bind
                             (MediaInput.read
                                (fun m =>
                                   MediaInput.template_at m (_active_video_stream m)))
                             (fun t =>
                                MediaInput.modify
                                  (fun m => MediaInput.set_video_frame m t)))
                    else
                      MediaInput.modify
                        (fun m => MediaInput.set_active_video_stream m (-1)))
                     m
                   = (Ok tt, m1)).
  { unfold m1, f.
    destruct (_supports_stereo_layout_separate m).
    - unfold MediaInput.bind at 1, MediaInput.modify at 1. fold m0.
      unfold MediaInput.bind at 1, MediaInput.read at 1.
      change (_active_video_stream m0) with 0. now rewrite Ht.
    - destruct (Z.ltb_spec 0 (MediaInput.video_streams m)); [|lia].
      unfold MediaInput.bind at 1, MediaInput.modify at 1. fold m0.
      unfold MediaInput.bind at 1, MediaInput.read at 1.
      change (_active_video_stream m0) with 0. now rewrite Ht. }
  destruct (select_first_video_stream_succeeds E m1 t0 rest Htotal Htemplates)
    as (m' & Hsel & Hactive).
  { unfold m1, f. cbn [_video_frame _supports_stereo_layout_separate
                       MediaInput.set_video_frame MediaInput.set_active_video_stream m0].
    destruct (_supports_stereo_layout_separate m).
    - left. reflexivity.
    - right. split; [reflexivity|].
      destruct Haccepted as [Hflag|Hruled]; [discriminate|exact Hruled]. }
  exists m'. split; [|now apply Hactive].
  unfold MediaInput.set_active_video.
  unfold MediaInput.bind at 1, MediaInput.read at 1.
  unfold MediaInput.bind at 1, MediaInput.read at 1.
  rewrite (bind_run _ _ _ _ m m1 tt Hfirst).
  unfold MediaInput.bind at 1, MediaInput.read at 1.
  change (_active_video_stream m1) with 0. cbn [Z.leb Z.compare].
  exact Hsel.
Qed.

(** The reads of the summary succeed on an input whose tables are in step
    with its media objects and that has an active video stream. *)
Lemma print_summary_run (m : media_input) :
  MediaInput.video_streams m = stream_total mo_video (_media_objects m) ->
  MediaInput.audio_streams m = stream_total mo_audio (_media_objects m) ->
  0 <= _active_video_stream m ->
  MediaInput.print_summary m = Ok tt.
Proof.
  intros Hv Ha Hactive.
  unfold MediaInput.print_summary, MediaInput.video_frame_template.
  destruct (Z.leb_spec 0 (_active_video_stream m)); [|lia]. cbn [guard res_bind].
  rewrite for_each_all; cbn [res_bind].
  - apply for_each_all. intros i Hi. apply In_zrange in Hi.
    destruct (nth_error (_audio_stream_names m) (Z.to_nat i)) as [n|] eqn:Hn;
      [|apply nth_error_None in Hn; lia].
    rewrite (proj2 (at_index_Ok _ _ _ _) (conj (proj1 Hi) Hn)). cbn [res_bind].
    destruct (blob_template_at_flattened m i Ha) as (t & _ & Ht).
    { unfold MediaInput.audio_streams. lia. }
    now rewrite Ht.
  - intros i Hi. apply In_zrange in Hi.
    destruct (nth_error (_video_stream_names m) (Z.to_nat i)) as [n|] eqn:Hn;
      [|apply nth_error_None in Hn; lia].
    rewrite (proj2 (at_index_Ok _ _ _ _) (conj (proj1 Hi) Hn)). cbn [res_bind].
    destruct (template_at_flattened m i Hv) as (t & _ & Ht).
    { unfold MediaInput.video_streams. lia. }
    now rewrite Ht.
Qed.

(** [open] of a new input succeeds when every locator opens and the first
    layout is accepted. *)
Lemma open_succeeds (E : externals) (urls : list string) (objs : list media_object)
    (b : bool) :
  urls <> [] ->
  Forall2 (fun u mo => media_object_open E u = Some mo) urls objs ->
  first_layout_accepted objs = true ->
  exists st, MediaInput.open E urls (MediaInput.new b) = (Ok tt, st).
Proof.
  intros Hne Hopen Haccepted.
  assert (Hid : exists id, MediaInput.construct_id objs = Ok id).
  { destruct Hopen; [contradiction|]. eexists. reflexivity. }
  destruct Hid as [id Hid].
  assert (Hskip : MediaInput.tag_value_loop
                    (_tag_names (MediaInput.new b) ++ MediaInput.gathered_tag_names objs)
                    (_tag_values (MediaInput.new b) ++ MediaInput.gathered_tag_values objs)
                    "StereoscopicSkip"
                  = Ok (first_tag_value (MediaInput.gathered_tag_names objs)
                          (MediaInput.gathered_tag_values objs) "StereoscopicSkip")).
  { cbn [_tag_names _tag_values MediaInput.new app].
    apply tag_value_loop_first.
    unfold MediaInput.gathered_tag_names, MediaInput.gathered_tag_values.
    now rewrite !length_gathered_tags. }
  set (skip := first_tag_value (MediaInput.gathered_tag_names objs)
                 (MediaInput.gathered_tag_values objs) "StereoscopicSkip") in *.
  rewrite (open_from_gathered E urls (MediaInput.new b) objs id skip Hne Hopen Hid Hskip).
  set (m1 := gathered_input E (MediaInput.new b) objs id skip).
  set (flag := match all_video_templates objs with
               | [t0; t1] => MediaInput.templates_match t0 t1
               | _ => false
               end).
  set (m2 := MediaInput.set_supports_stereo_layout_separate m1 flag).
  destruct (gathered_input_video_total E b b objs id skip) as [Hv1 Ha1].
  destruct (gathered_input_video_total E b flag objs id skip) as [Hv2 Ha2].
  assert (Hdetect : MediaInput.detect_stereo_layout_separate m1 = (Ok tt, m2)).
  { apply (detect_stereo_layout_separate_run m1). exact Hv1. }
  assert (Hvideo : exists m3,
             MediaInput.set_active_video E m2 = (Ok tt, m3)
             /\ _active_video_stream m3 = 0).
  { unfold first_layout_accepted in Haccepted.
    destruct (all_video_templates objs) as [|t0 rest] eqn:Htemplates;
      [discriminate|].
    apply (set_active_video_succeeds E m2 t0 rest Hv2 Htemplates).
    cbn [_supports_stereo_layout_separate m2
         MediaInput.set_supports_stereo_layout_separate].
    unfold flag.
    destruct rest as [|t1 [|t2 rest]].
    - right. now apply negb_true_iff.
    - apply orb_true_iff in Haccepted. destruct Haccepted as [Hpair|Hruled];
        [left; exact Hpair|right; now apply negb_true_iff].
    - right. now apply negb_true_iff. }
  destruct Hvideo as (m3 & Hvideo & Hactive3).
  pose proof (set_active_video_stable E _ _ _ Hvideo) as Hst23.
  destruct (tables_stable_totals _ _ Hst23 Hv2 Ha2) as [Hv3 Ha3].
  destruct (MediaInput.set_active_audio m3) as [r st] eqn:Haudio.
  destruct (set_active_audio_run m3 r st Ha3 Haudio) as (-> & _).
  pose proof (set_active_audio_stable _ _ _ Haudio) as Hst3.
  destruct (tables_stable_totals _ _ Hst3 Hv3 Ha3) as [Hv4 Ha4].
  pose proof (set_active_audio_video_kept _ _ _ Haudio) as [_ _ Hactive4].
  exists st.
  unfold MediaInput.find_stereo_layout.
  rewrite (bind_run _ _ _ _ m1 m3 tt).
  - rewrite (bind_run _ _ _ _ m3 st tt Haudio).
    unfold MediaInput.read. rewrite print_summary_run; auto. lia.
  - now rewrite (bind_run _ _ _ _ m1 m2 tt Hdetect).
Qed.

(** C1.  When every locator opens, [open] of a new input succeeds as soon
    as the first layout is accepted, and in every input that [open] returns
    the media objects are the opened sources in the order of the locators,
    with their streams; the number of video (audio) streams is the sum of the
    numbers of video (audio) streams of the sources; and [get_video_stream]
    ([get_audio_stream]) maps the global indices below it one-to-one onto the
    (media object, local stream) index pairs, media objects in order and the
    streams of one media object in order. *)
Theorem open_flattened_stream_indices
    (E : externals) (urls : list string) (objs : list media_object) (b : bool) :
  urls <> [] ->
  Forall2 (fun u mo => media_object_open E u = Some mo) urls objs ->
  (first_layout_accepted objs = true ->
   exists st, MediaInput.open E urls (MediaInput.new b) = (Ok tt, st))
  /\ forall st,
       MediaInput.open E urls (MediaInput.new b) = (Ok tt, st) ->
       map mo_url (_media_objects st) = map mo_url objs
       /\ statics (_media_objects st) = statics objs
       /\ MediaInput.video_streams st
          = fold_right Z.add 0 (map MediaObject.video_streams objs)
       /\ MediaInput.audio_streams st
          = fold_right Z.add 0 (map MediaObject.audio_streams objs)
       /\ resolves_in_order (_media_objects st) MediaObject.video_streams
            (MediaInput.get_video_stream st) (MediaInput.video_streams st)
       /\ resolves_in_order (_media_objects st) MediaObject.audio_streams
            (MediaInput.get_audio_stream st) (MediaInput.audio_streams st).
Proof.
  intros Hne Hopen. split; [now apply open_succeeds|].
  intros st H.
  pose proof (open_tables E urls b st H) as [Hv Ha].
  apply open_gathered in H.
  destruct H as (objs' & id & skip & Hopen' & _ & _ & [_ _ _ _ _ _ _ _ Hst] & Hurl & _).
  cbn in Hst.
  rewrite (Forall2_opened_unique E urls objs objs' Hopen Hopen') in Hst, Hurl.
  split; [exact Hurl|]. split; [exact Hst|]. split; [|split; [|split]].
  - rewrite Hv, (stream_total_video_statics _ _ Hst).
    now apply (stream_total_counts mo_video).
  - rewrite Ha, (stream_total_audio_statics _ _ Hst).
    now apply (stream_total_counts mo_audio).
  - apply (resolves_in_order_pairs mo_video); auto.
    intros g Hg.
    destruct (get_video_stream_flattened st g Hv Hg) as (o & s & _ & _ & Hget & Hnth & _).
    exists (o, s). auto.
  - apply (resolves_in_order_pairs mo_audio); auto.
    intros g Hg.
    destruct (get_audio_stream_flattened st g Ha Hg) as (o & s & _ & _ & Hget & Hnth & _).
    exists (o, s). auto.
Qed.

(** [double.mkv] and [left.mkv] open to three video streams: the two of the
    first file come first, in their order, and the audio stream is the one
    of the second file. *)
Example example_double_left_opens :
  MediaInput.open example_externals example_double_left_urls (MediaInput.new false)
  = (Ok tt, example_double_left)
  /\ MediaInput.video_streams example_double_left = 3
  /\ MediaInput.get_video_stream example_double_left 0 = Ok (0, 0)
  /\ MediaInput.get_video_stream example_double_left 1 = Ok (0, 1)
  /\ MediaInput.get_video_stream example_double_left 2 = Ok (1, 0)
  /\ MediaInput.audio_streams example_double_left = 1
  /\ MediaInput.get_audio_stream example_double_left 0 = Ok (1, 0).
Proof. vm_compute. repeat split. Qed.

Lemma open_flattened_stream_indices_witness :
  exists st,
    MediaInput.open example_externals example_double_left_urls (MediaInput.new false)
    = (Ok tt, st)
    /\ map mo_url (_media_objects st) = map mo_url [example_double; example_left]
    /\ statics (_media_objects st) = statics [example_double; example_left]
    /\ MediaInput.video_streams st
       = fold_right Z.add 0
           (map MediaObject.video_streams [example_double; example_left])
    /\ MediaInput.audio_streams st
       = fold_right Z.add 0
           (map MediaObject.audio_streams [example_double; example_left])
    /\ resolves_in_order (_media_objects st) MediaObject.video_streams
         (MediaInput.get_video_stream st) (MediaInput.video_streams st)
    /\ resolves_in_order (_media_objects st) MediaObject.audio_streams
         (MediaInput.get_audio_stream st) (MediaInput.audio_streams st).
Proof.
  destruct (open_flattened_stream_indices example_externals example_double_left_urls
              [example_double; example_left] false) as [Hopens Hall].
  - discriminate.
  - repeat constructor.
  - destruct (Hopens eq_refl) as [st Hst].
    exists st. split; [exact Hst|]. exact (Hall st Hst).
Defined.
